(** * mcp-error-relay: log extraction, resolution and classification

    A shallow embedding of [src/services/logService.ts], of
    [src/services/formatter.ts] and of the [execute] functions of the
    three tools, with the properties of the specification, and further
    properties read off the code, stated over it.

    Conventions of the embedding:
    - a JavaScript string is the list of its UTF-16 code units ([jsstring]);
    - regular-expression literals are values of [regex], run by a
      backtracking matcher ([mtch]) that follows the ECMAScript semantics
      of the constructs the literals use;
    - the file system and the clock are a [World] record, which does not
      change during a call; a call that may throw returns a [result];
    - built-ins that depend on Unicode tables, on the time zone or on
      the platform ([String.prototype.toLowerCase], [Date] parsing,
      [path.join], [JSON.stringify], the text of a system error) are
      section variables. *)

From Stdlib Require Import Strings.String Strings.Ascii Numbers.DecimalString.
From Stdlib Require Import List NArith ZArith Bool Arith Lia Sorted.
From Stdlib Require DecimalFacts DecimalPos.
Import ListNotations.

Set Implicit Arguments.

(** ** JavaScript strings *)

Definition char16 := N.
Definition jsstring := list char16.

(** Code units of an ASCII literal. *)
Definition js (s : string) : jsstring :=
  map N_of_ascii (list_ascii_of_string s).
Arguments js s%_string.

Fixpoint str_eqb (a b : jsstring) : bool :=
  match a, b with
  | [], [] => true
  | x :: a', y :: b' => N.eqb x y && str_eqb a' b'
  | _, _ => false
  end.

(** [s.startsWith(p)] *)
Fixpoint startsWith (s p : jsstring) {struct p} : bool :=
  match p, s with
  | [], _ => true
  | y :: p', x :: s' => N.eqb x y && startsWith s' p'
  | _ :: _, [] => false
  end.

(** [s.endsWith(p)] *)
Definition endsWith (s p : jsstring) : bool :=
  startsWith (rev s) (rev p).

(** [s.includes(t)] *)
Fixpoint includes (s t : jsstring) : bool :=
  startsWith s t ||
  match s with
  | [] => false
  | _ :: s' => includes s' t
  end.

(** [parts.join(sep)] *)
Fixpoint join (sep : jsstring) (parts : list jsstring) : jsstring :=
  match parts with
  | [] => []
  | [p] => p
  | p :: ps => p ++ sep ++ join sep ps
  end.

Definition LF : char16 := 10%N.
Definition HYPHEN : char16 := 45%N.
Definition UNDERSCORE : char16 := 95%N.

(** [content.split("\n")]: the result always has at least one element. *)
Fixpoint split_lines (s : jsstring) : list jsstring :=
  match s with
  | [] => [[]]
  | c :: s' =>
      if N.eqb c LF then [] :: split_lines s'
      else match split_lines s' with
           | l :: ls => (c :: l) :: ls
           | [] => [[c]]
           end
  end.

(** ECMAScript LineTerminator code points. *)
Definition is_line_terminator (c : char16) : bool :=
  N.eqb c 10 || N.eqb c 13 || N.eqb c 8232 || N.eqb c 8233.

(** ECMAScript WhiteSpace and LineTerminator: what [trim] strips and what
    the class escape [\s] matches. *)
Definition is_space (c : char16) : bool :=
  N.eqb c 9 || N.eqb c 11 || N.eqb c 12 || N.eqb c 32 || N.eqb c 160 ||
  N.eqb c 5760 || (N.leb 8192 c && N.leb c 8202) || N.eqb c 8239 ||
  N.eqb c 8287 || N.eqb c 12288 || N.eqb c 65279 || is_line_terminator c.

Fixpoint trimStart (s : jsstring) : jsstring :=
  match s with
  | c :: s' => if is_space c then trimStart s' else s
  | [] => []
  end.

Definition trimEnd (s : jsstring) : jsstring := rev (trimStart (rev s)).

(** [s.trim()] *)
Definition trim (s : jsstring) : jsstring := trimEnd (trimStart s).

(** [s.replace(/c/g, d)] for a one-character pattern. *)
Definition replace_all_char (c d : char16) (s : jsstring) : jsstring :=
  map (fun x => if N.eqb x c then d else x) s.

(** Decimal rendering of a non-negative integer in a template literal. *)
Definition Number_toString (n : Z) : jsstring :=
  js (NilZero.string_of_int (Z.to_int n)).

(** The ASCII part of [toLowerCase]. *)
Definition is_ascii (c : char16) : bool := (c <? 128)%N.
Definition ascii_lower (c : char16) : char16 :=
  if (65 <=? c)%N && (c <=? 90)%N then (c + 32)%N else c.

(** ** Regular expressions *)

Inductive regex : Type :=
| Eps
| Chr (p : char16 -> bool)
| Seq (a b : regex)
| Alt (a b : regex)
| Star (a : regex)
| Group (i : nat) (a : regex)
| Bol
| Eol.

Definition captures := list (nat * jsstring).

Fixpoint capture (i : nat) (c : captures) : option jsstring :=
  match c with
  | [] => None
  | (j, v) :: c' => if Nat.eqb i j then Some v else capture i c'
  end.

Section Matcher.
Variable A : Type.
(** The whole subject string: [^] holds only at its start. *)
Variable input : jsstring.

Section Star.
Variable step :
  jsstring -> captures -> (jsstring -> captures -> option A) -> option A.
Variable k : jsstring -> captures -> option A.

(** Greedy iteration of [step]: one more turn is tried first, the
    continuation [k] only when that fails; a turn that consumes nothing is
    refused.  At most [n] turns, and a subject of [n] characters allows no
    more. *)
Fixpoint star_loop (n : nat) (s : jsstring) (c : captures) : option A :=
  match n with
  | O => k s c
  | S n' =>
      match
        step s c
          (fun s' c' =>
             if length s' <? length s then star_loop n' s' c' else None)
      with
      | Some v => Some v
      | None => k s c
      end
  end.
End Star.

(** [mtch r s c k]: match [r] at the front of [s], then run the
    continuation [k] on what is left; alternatives are tried in order
    and a failing continuation makes the matcher backtrack. *)
Fixpoint mtch (r : regex) (s : jsstring) (c : captures)
         (k : jsstring -> captures -> option A) {struct r} : option A :=
  match r with
  | Eps => k s c
  | Chr p =>
      match s with
      | x :: s' => if p x then k s' c else None
      | [] => None
      end
  | Seq a b => mtch a s c (fun s' c' => mtch b s' c' k)
  | Alt a b =>
      match mtch a s c k with
      | Some v => Some v
      | None => mtch b s c k
      end
  | Star a => star_loop (mtch a) k (length s) s c
  | Group i a =>
      mtch a s c
        (fun s' c' => k s' ((i, firstn (length s - length s') s) :: c'))
  | Bol => if length s =? length input then k s c else None
  | Eol => match s with [] => k s c | _ :: _ => None end
  end.
End Matcher.

Record MatchResult := {
  m_before : jsstring;   (* the subject up to the match *)
  m_after : jsstring;    (* the subject after the match *)
  m_caps : captures
}.

(** Leftmost match: the start positions are tried from left to right. *)
Fixpoint search_from (r : regex) (input before_rev s : jsstring)
  : option MatchResult :=
  match mtch input r s [] (fun s' c => Some (s', c)) with
  | Some (s', c) =>
      Some {| m_before := rev before_rev; m_after := s'; m_caps := c |}
  | None =>
      match s with
      | [] => None
      | x :: s' => search_from r input (x :: before_rev) s'
      end
  end.

(** [re.exec(s)] / [s.match(re)] for a literal without the [g] flag. *)
Definition regex_exec (r : regex) (s : jsstring) : option MatchResult :=
  search_from r s [] s.

(** [re.test(s)] *)
Definition regex_test (r : regex) (s : jsstring) : bool :=
  match regex_exec r s with Some _ => true | None => false end.

(** [s.replace(re, empty)] for a literal without the [g] flag: the first
    match is cut out of the subject. *)
Definition regex_remove (r : regex) (s : jsstring) : jsstring :=
  match regex_exec r s with
  | Some m => m_before m ++ m_after m
  | None => s
  end.

(** Derived forms. *)
Definition Plus (a : regex) : regex := Seq a (Star a).
Definition Opt (a : regex) : regex := Alt a Eps.
Fixpoint Rep (n : nat) (a : regex) : regex :=
  match n with
  | O => Eps
  | S n' => Seq a (Rep n' a)
  end.
Fixpoint Seqs (rs : list regex) : regex :=
  match rs with
  | [] => Eps
  | [r] => r
  | r :: rs' => Seq r (Seqs rs')
  end.

Definition is_digit (c : char16) : bool := N.leb 48 c && N.leb c 57.
Definition chr (a : ascii) : char16 -> bool := N.eqb (N_of_ascii a).
(** A letter of a literal carrying the [i] flag: without the [u] flag the
    canonicalisation never maps a non-ASCII code unit to an ASCII one, so
    only the two ASCII cases of the letter match. *)
Definition chr_i (lower upper : ascii) (c : char16) : bool :=
  N.eqb c (N_of_ascii lower) || N.eqb c (N_of_ascii upper).

Definition digit : regex := Chr is_digit.           (* \d *)
Definition space : regex := Chr is_space.           (* \s *)
Definition dot : regex := Chr (fun c => negb (is_line_terminator c)). (* . *)
Definition lit (a : ascii) : regex := Chr (chr a).
Definition not_rbracket : regex :=                  (* [^\]] *)
  Chr (fun c => negb (chr "]" c)).

(** ** The regular-expression literals of [logService.ts] *)

(** The timestamp group of the header literal (line 168), under the flag
    [i]: [\d{4}-\d{2}-\d{2}T\d{2}:\d{2}:\d{2}(?:\.\d{3})?Z]. *)
Definition HEADER_TS : regex :=
  Seqs [ Rep 4 digit; lit "-"; Rep 2 digit; lit "-";
         Rep 2 digit; Chr (chr_i "t" "T");
         Rep 2 digit; lit ":"; Rep 2 digit; lit ":";
         Rep 2 digit;
         Opt (Seq (lit ".") (Rep 3 digit));
         Chr (chr_i "z" "Z") ].

(** The header literal (line 168), flag [i]:
    [^(TS)\s+\[([^\]]+)\]\s+\[([^\]]+)\]\s+(REST)$], where [TS] is
    [HEADER_TS] and [REST] is the greedy star of the dot. *)
Definition HEADER_RE : regex :=
  Seqs [ Bol;
         Group 1 HEADER_TS;
         Plus space; lit "["; Group 2 (Plus not_rbracket); lit "]";
         Plus space; lit "["; Group 3 (Plus not_rbracket); lit "]";
         Plus space; Group 4 (Star dot); Eol ].

(** [/^(\d{4}-\d{2}-\d{2}T\d{2}:\d{2}:\d{2}(?:\.\d{3})?Z?)/] (line 43). *)
Definition SCAN_TS_RE : regex :=
  Seqs [ Bol;
         Group 1 (Seqs [ Rep 4 digit; lit "-"; Rep 2 digit; lit "-";
                         Rep 2 digit; lit "T";
                         Rep 2 digit; lit ":"; Rep 2 digit; lit ":";
                         Rep 2 digit;
                         Opt (Seq (lit ".") (Rep 3 digit));
                         Opt (lit "Z") ]) ].

(** [/\.(log|txt)$/] (line 26). *)
Definition EXT_RE : regex :=
  Seqs [ lit ".";
         Group 1 (Alt (Seqs [lit "l"; lit "o"; lit "g"])
                      (Seqs [lit "t"; lit "x"; lit "t"]));
         Eol ].

(** [/^.*-/] (line 26). *)
Definition UPTO_HYPHEN_RE : regex := Seqs [ Bol; Star dot; lit "-" ].

(** [/error/i] (line 178). *)
Definition ERROR_RE : regex :=
  Seqs [ Chr (chr_i "e" "E"); Chr (chr_i "r" "R"); Chr (chr_i "r" "R");
         Chr (chr_i "o" "O"); Chr (chr_i "r" "R") ].

(** The [i]-th capture of a successful match (never undefined for the
    groups read by the code, which all lie on the only path of their
    literal). *)
Definition group (i : nat) (m : MatchResult) : jsstring :=
  match capture i (m_caps m) with
  | Some v => v
  | None => []
  end.

(** ** Data model ([types.ts]) *)

Module LogEntry.
Record t := {
  timestamp : jsstring;
  level : jsstring;
  server_name : jsstring;
  tool_name : option jsstring;
  message : jsstring;
  error_code : option jsstring;
  stack_trace : option jsstring;
  request_id : option jsstring
}.
(** [{ ...e, stack_trace: undefined }] *)
Definition without_stack_trace (e : t) : t :=
  {| timestamp := timestamp e; level := level e;
     server_name := server_name e; tool_name := tool_name e;
     message := message e; error_code := error_code e;
     stack_trace := None; request_id := request_id e |}.
End LogEntry.

Module ServerInfo.
Record t := {
  server_name : jsstring;
  log_file_path : jsstring;
  last_modified : jsstring;
  total_errors : nat;
  recent_error_count : nat
}.
End ServerInfo.

Module ErrorAnalysis.
Record t := {
  error : LogEntry.t;
  root_cause : jsstring;
  suggested_actions : list jsstring;
  related_errors : list LogEntry.t
}.
End ErrorAnalysis.

(** ** Constants ([constants.ts]) *)

Definition CHARACTER_LIMIT : Z := 25000.
Definition MAX_LOG_SCAN_LIMIT : Z := 1000.

(** ** The environment *)

(** What a call observes of the file system and of the clock.  A field
    returning [None] stands for the Node call throwing. *)
Record World := {
  existsSync : jsstring -> bool;
  readdirSync : jsstring -> option (list jsstring);
  (** [fs.statSync(p).mtime.toISOString()] *)
  stat_mtime : jsstring -> option jsstring;
  (** [fs.readFileSync(p, "utf-8")] *)
  readFileSync : jsstring -> option jsstring;
  (** [Date.now()], as read while the file at the given path is being
      processed. *)
  Date_now : jsstring -> Z
}.

Inductive exn : Type :=
| JsError (msg : jsstring)     (* [throw new Error(msg)] *)
| FsError (path : jsstring).   (* a system error raised by an [fs] call *)

Definition result (A : Type) : Type := sum exn A.
Definition ret {A : Type} (a : A) : result A := inr a.
Definition throw {A : Type} (e : exn) : result A := inl e.
Definition bind {A B : Type} (m : result A) (f : A -> result B) : result B :=
  match m with
  | inl e => inl e
  | inr a => f a
  end.
Notation "x <- m ;; k" := (bind m (fun x => k))
  (at level 61, m at next level, right associativity).

Definition is_empty (s : jsstring) : bool :=
  match s with [] => true | _ :: _ => false end.

(** ** Truncation ([formatter.ts]) *)

(** The notice appended on line 220, after the first [truncatedLength]
    characters of the content. *)
Definition truncation_notice (truncatedLength itemCount : Z) : jsstring :=
  [LF; LF] ++ js "---" ++ [LF; LF] ++ js "**" ++ [9888%N; 65039%N] ++
  js " Response Truncated**" ++ [LF; LF] ++
  js "The full response exceeded " ++ Number_toString CHARACTER_LIMIT ++
  js " characters. Showing first " ++ Number_toString truncatedLength ++
  js " characters of " ++ Number_toString itemCount ++ js " item(s)." ++
  [LF; LF] ++ js "To see more:" ++ [LF] ++
  js "- Use filters to narrow results (e.g., specify tool_name or hours)" ++
  [LF] ++ js "- Reduce the limit parameter" ++ [LF] ++
  js "- Query for specific errors using mcp_log_get_error_details".

(** [content.substring(0, n)] *)
Definition substring0 (content : jsstring) (n : Z) : jsstring :=
  firstn (Z.to_nat n) content.

Definition truncateIfNeeded (content : jsstring) (itemCount : Z) : jsstring :=
  if (Z.of_nat (length content) <=? CHARACTER_LIMIT)%Z then content
  else
    let truncatedLength := (CHARACTER_LIMIT - 500)%Z in
    let truncated := substring0 content truncatedLength in
    truncated ++ truncation_notice truncatedLength itemCount.

(** ** Markdown formatters ([formatter.ts]) *)

(** The three backticks of a code fence. *)
Definition FENCE : jsstring := [96%N; 96%N; 96%N].

(** What one turn of the loop of lines 26-44 pushes for the entry of
    index [i]; an optional field is printed when it is defined and not
    empty. *)
Definition error_block (i : nat) (error : LogEntry.t) : list jsstring :=
  [ js "## Error " ++ Number_toString (Z.of_nat i + 1);
    js "- **Time**: " ++ LogEntry.timestamp error ] ++
  match LogEntry.tool_name error with
  | Some (c :: t) => [ js "- **Tool**: `" ++ (c :: t) ++ js "`" ]
  | _ => []
  end ++
  match LogEntry.error_code error with
  | Some (c :: t) => [ js "- **Error Code**: " ++ (c :: t) ]
  | _ => []
  end ++
  [ js "- **Message**: " ++ LogEntry.message error ] ++
  match LogEntry.stack_trace error with
  | Some (c :: t) => [ js "- **Stack Trace**:"; FENCE; c :: t; FENCE ]
  | _ => []
  end ++
  [ [] ].

(** The loop of lines 26-44, from index [i] on. *)
Fixpoint error_blocks (i : nat) (errors : list LogEntry.t) : list jsstring :=
  match errors with
  | [] => []
  | error :: errors' => error_block i error ++ error_blocks (S i) errors'
  end.

Definition formatErrorsAsMarkdown (errors : list LogEntry.t)
           (serverName : jsstring) : jsstring :=
  match errors with
  | [] =>
      js "# No Errors Found" ++ [LF; LF] ++
      js "No error logs found for server: **" ++ serverName ++ js "**"
  | _ :: _ =>
      let lines :=
        [ js "# Error Logs: " ++ serverName;
          [];
          js "Found **" ++ Number_toString (Z.of_nat (length errors)) ++
          js "** error(s)";
          [] ] ++
        error_blocks 0 errors in
      truncateIfNeeded (join [LF] lines) (Z.of_nat (length errors))
  end.

(** What one turn of the loop of lines 89-100 pushes. *)
Definition server_block (includeStats : bool) (server : ServerInfo.t)
  : list jsstring :=
  [ js "## " ++ ServerInfo.server_name server;
    js "- **Log Path**: `" ++ ServerInfo.log_file_path server ++ js "`";
    js "- **Last Modified**: " ++ ServerInfo.last_modified server ] ++
  (if includeStats then
     [ js "- **Total Errors**: " ++
       Number_toString (Z.of_nat (ServerInfo.total_errors server));
       js "- **Recent Errors (24h)**: " ++
       Number_toString (Z.of_nat (ServerInfo.recent_error_count server)) ]
   else []) ++
  [ [] ].

Definition formatServersAsMarkdown (servers : list ServerInfo.t)
           (includeStats : bool) : jsstring :=
  match servers with
  | [] =>
      js "# No MCP Servers Found" ++ [LF; LF] ++
      js "No MCP server log files found in the configured directory."
  | _ :: _ =>
      let lines :=
        [ js "# Available MCP Servers";
          [];
          js "Found **" ++ Number_toString (Z.of_nat (length servers)) ++
          js "** server(s) with log files";
          [] ] ++
        flat_map (server_block includeStats) servers in
      join [LF] lines
  end.

(** The loop of lines 162-164, from index [i] on. *)
Fixpoint action_lines (i : nat) (actions : list jsstring) : list jsstring :=
  match actions with
  | [] => []
  | action :: actions' =>
      (Number_toString (Z.of_nat i + 1) ++ js ". " ++ action)
      :: action_lines (S i) actions'
  end.

(** The line of a related error (line 173): its message is cut after 100
    characters. *)
Definition related_line (relatedError : LogEntry.t) : jsstring :=
  js "- **" ++ LogEntry.timestamp relatedError ++ js "**: " ++
  substring0 (LogEntry.message relatedError) 100 ++
  (if 100 <? length (LogEntry.message relatedError) then js "..." else []).

Definition formatAnalysisAsMarkdown (analysis : ErrorAnalysis.t) : jsstring :=
  let error := ErrorAnalysis.error analysis in
  let related := ErrorAnalysis.related_errors analysis in
  let lines :=
    [ js "# Error Analysis";
      [];
      js "## Root Cause";
      ErrorAnalysis.root_cause analysis;
      [];
      js "## Original Error";
      js "- **Time**: " ++ LogEntry.timestamp error;
      js "- **Server**: " ++ LogEntry.server_name error ] ++
    match LogEntry.tool_name error with
    | Some (c :: t) => [ js "- **Tool**: `" ++ (c :: t) ++ js "`" ]
    | _ => []
    end ++
    [ js "- **Message**: " ++ LogEntry.message error ] ++
    match LogEntry.stack_trace error with
    | Some (c :: t) => [ []; js "**Stack Trace**:"; FENCE; c :: t; FENCE ]
    | _ => []
    end ++
    [ []; js "## Suggested Actions" ] ++
    action_lines 0 (ErrorAnalysis.suggested_actions analysis) ++
    match related with
    | [] => []
    | _ :: _ =>
        [ [];
          js "## Related Errors (" ++
          Number_toString (Z.of_nat (length related)) ++ js ")";
          [] ] ++
        map related_line related
    end in
  truncateIfNeeded (join [LF] lines) (1 + Z.of_nat (length related)).

(** ** JSON values *)

(** The values the formatters hand to [JSON.stringify]: numbers, strings,
    arrays, and objects with their keys in insertion order. *)
Unset Elimination Schemes.
Inductive json : Type :=
| JNumber (n : Z)
| JString (s : jsstring)
| JArray (items : list json)
| JObject (fields : list (string * json)).
Set Elimination Schemes.

(** [...(v ? { key: v } : {})]: the key is there when the optional string
    is defined and not empty. *)
Definition optional_field (key : string) (v : option jsstring)
  : list (string * json) :=
  match v with
  | Some (c :: t) => [ (key, JString (c :: t)) ]
  | _ => []
  end.

(** ** Tool parameters and responses ([constants.ts], [tools/]) *)

Inductive ResponseFormat : Type :=
| MARKDOWN
| JSON.

(** What [execute] resolves to: the flag [isError], which a successful
    call leaves unset, and the text of the only content item. *)
Module ToolResponse.
Record t := {
  isError : bool;
  text : jsstring
}.
End ToolResponse.

(** The parsed arguments of [get_recent_errors]. *)
Module GetRecentErrorsInput.
Record t := {
  server_name : jsstring;
  limit : Z;
  tool_name : option jsstring;
  hours : option Z;
  response_format : ResponseFormat
}.
End GetRecentErrorsInput.

(** The constraints of [GetRecentErrorsInputSchema] on parsed arguments:
    a server name of one character at least, a limit from 1 to 100, a
    number of hours from 1 to 168 when there is one. *)
Definition GetRecentErrorsInputSchema (params : GetRecentErrorsInput.t)
  : bool :=
  (1 <=? length (GetRecentErrorsInput.server_name params)) &&
  (1 <=? GetRecentErrorsInput.limit params)%Z &&
  (GetRecentErrorsInput.limit params <=? 100)%Z &&
  match GetRecentErrorsInput.hours params with
  | Some h => (1 <=? h)%Z && (h <=? 168)%Z
  | None => true
  end.

(** The parsed arguments of [get_error_details]. *)
Module GetErrorDetailsInput.
Record t := {
  server_name : jsstring;
  error_message : jsstring;
  include_stack_trace : bool;
  response_format : ResponseFormat
}.
End GetErrorDetailsInput.

(** The parsed arguments of [get_server_list]. *)
Module ListServersInput.
Record t := {
  include_stats : bool;
  response_format : ResponseFormat
}.
End ListServersInput.

(** ** The log service ([logService.ts]) *)

Section LogService.
Set Default Proof Using "Type".

(** [String.prototype.toLowerCase] *)
Variable toLowerCase : jsstring -> jsstring.
(** [new Date(s).getTime()], with [None] for [NaN]. *)
Variable Date_parse : jsstring -> option Z.
(** [path.join] *)
Variable path_join : jsstring -> jsstring -> jsstring.
Variable DEFAULT_LOG_DIR : jsstring.

(** On a string of ASCII characters [toLowerCase] lowers the letters A-Z
    and leaves the rest alone. *)
Hypothesis toLowerCase_ascii :
  forall s, forallb is_ascii s = true -> toLowerCase s = map ascii_lower s.

(** [path.join] never returns the empty string. *)
Hypothesis path_join_nonempty : forall d f, path_join d f <> [].

(** *** Server Directory Scanner *)

(** The name derived on line 26:
    [file.replace(EXT_RE, empty).replace(UPTO_HYPHEN_RE, empty)]. *)
Definition derive_server_name (file : jsstring) : jsstring :=
  regex_remove UPTO_HYPHEN_RE (regex_remove EXT_RE file).

(** [a > b] on numbers, where [a] may be [NaN]. *)
Definition num_gtb (a : option Z) (b : Z) : bool :=
  match a with Some x => (b <? x)%Z | None => false end.
(** [a < b] on numbers, where [a] may be [NaN]. *)
Definition num_ltb (a : option Z) (b : Z) : bool :=
  match a with Some x => (x <? b)%Z | None => false end.

(** One turn of the loop over the lines of a file (lines 37-52); the
    state is [(totalErrors, recentErrors)]. *)
Definition count_line (cutoffTime : Z) (st : nat * nat) (line : jsstring)
  : nat * nat :=
  let '(totalErrors, recentErrors) := st in
  if includes line (js "ERROR") || includes line (js "error") then
    let totalErrors := S totalErrors in
    match regex_exec SCAN_TS_RE line with
    | Some m =>
        let timestamp := Date_parse (group 1 m) in
        if num_gtb timestamp cutoffTime
        then (totalErrors, S recentErrors)
        else (totalErrors, recentErrors)
    | None => (totalErrors, recentErrors)
    end
  else (totalErrors, recentErrors).

(** The statistics of one file (lines 29-55): a failing read is caught
    and leaves both counters at zero. *)
Definition file_stats (w : World) (filePath : jsstring) : nat * nat :=
  let cutoffTime := (Date_now w filePath - 24 * 60 * 60 * 1000)%Z in
  match readFileSync w filePath with
  | Some content =>
      fold_left (count_line cutoffTime) (split_lines content) (0, 0)
  | None => (0, 0)
  end.

Definition is_log_file (file : jsstring) : bool :=
  startsWith file (js "mcp-server-") && endsWith file (js ".log").

(** The loop over the directory listing (lines 22-65). *)
Fixpoint scan_files (w : World) (files : list jsstring)
         (servers : list ServerInfo.t) : result (list ServerInfo.t) :=
  match files with
  | [] => ret servers
  | file :: files' =>
      if is_log_file file then
        let filePath := path_join DEFAULT_LOG_DIR file in
        match stat_mtime w filePath with
        | None => throw (FsError filePath)
        | Some mtime =>
            let serverName := derive_server_name file in
            let '(totalErrors, recentErrors) := file_stats w filePath in
            scan_files w files'
              (servers ++
               [ {| ServerInfo.server_name := serverName;
                    ServerInfo.log_file_path := filePath;
                    ServerInfo.last_modified := mtime;
                    ServerInfo.total_errors := totalErrors;
                    ServerInfo.recent_error_count := recentErrors |} ])
        end
      else scan_files w files' servers
  end.

Definition getAvailableServers (w : World) : result (list ServerInfo.t) :=
  if negb (existsSync w DEFAULT_LOG_DIR) then ret []
  else
    match readdirSync w DEFAULT_LOG_DIR with
    | None => throw (FsError DEFAULT_LOG_DIR)
    | Some files => scan_files w files []
    end.

(** *** Server-name resolution *)

(** The predicate given to [servers.find] on lines 141-144. *)
Definition name_matches (serverName : jsstring) (s : ServerInfo.t) : bool :=
  str_eqb (ServerInfo.server_name s) serverName ||
  str_eqb (replace_all_char HYPHEN UNDERSCORE (ServerInfo.server_name s))
          serverName ||
  str_eqb (replace_all_char UNDERSCORE HYPHEN (ServerInfo.server_name s))
          serverName.

(** [servers.find(...)] followed by line 147. *)
Definition resolve (servers : list ServerInfo.t) (serverName : jsstring)
  : option jsstring :=
  match find (name_matches serverName) servers with
  | Some server => Some (ServerInfo.log_file_path server)
  | None => None
  end.

Definition findLogPath (w : World) (serverName : jsstring)
  : result (option jsstring) :=
  servers <- getAvailableServers w ;;
  ret (resolve servers serverName).

(** *** Record Extractor *)

(** The [while] loop of lines 186-198, run on the lines from index [j]
    on: it returns [messageChunks] and the lines from the final [j] on. *)
Fixpoint collect_chunks (rest : list jsstring) (messageChunks : list jsstring)
  : list jsstring * list jsstring :=
  match rest with
  | [] => (messageChunks, [])
  | next :: rest' =>
      if is_empty next then collect_chunks rest' messageChunks
      else if regex_test HEADER_RE next then (messageChunks, rest)
      else collect_chunks rest' (messageChunks ++ [next])
  end.

(** A truthy optional number. *)
Definition truthy_num (o : option Z) : bool :=
  match o with Some h => negb (h =? 0)%Z | None => false end.

Section Extract.
Variable serverName : jsstring.
Variable limit : Z.
Variable toolName : option jsstring.
Variable hours : option Z.
Variable cutoffTime : Z.

Definition tool_filter_rejects (fullMessage : jsstring) : bool :=
  match toolName with
  | Some (c :: t) =>
      negb (includes (toLowerCase fullMessage) (toLowerCase (c :: t)))
  | _ => false
  end.

(** The [for] loop of lines 170-219, run on the lines from index [i]
    on.  Every turn moves to a strictly later line, so [fuel] need not
    exceed the number of lines left. *)
Fixpoint scan_log (fuel : nat) (rest : list jsstring)
         (errors : list LogEntry.t) : list LogEntry.t :=
  match fuel with
  | O => errors
  | S fuel' =>
      match rest with
      | [] => errors
      | line :: rest' =>
          if is_empty line then scan_log fuel' rest' errors
          else
            match regex_exec HEADER_RE line with
            | None => scan_log fuel' rest' errors
            | Some m =>
                let ts := group 1 m in
                let serverFromLine := group 2 m in
                let level := group 3 m in
                let firstMsgChunk := group 4 m in
                if negb (regex_test ERROR_RE level)
                then scan_log fuel' rest' errors
                else if truthy_num hours &&
                        num_ltb (Date_parse ts) cutoffTime
                then scan_log fuel' rest' errors
                else
                  let '(messageChunks, rest_j) :=
                    collect_chunks rest' [firstMsgChunk] in
                  let fullMessage := trim (join [LF] messageChunks) in
                  if tool_filter_rejects fullMessage
                  then scan_log fuel' rest_j errors
                  else
                    let errors' :=
                      errors ++
                      [ {| LogEntry.timestamp := ts;
                           LogEntry.level := js "ERROR";
                           LogEntry.server_name :=
                             if is_empty serverName then serverFromLine
                             else serverName;
                           LogEntry.tool_name := None;
                           LogEntry.message := fullMessage;
                           LogEntry.error_code := None;
                           LogEntry.stack_trace := None;
                           LogEntry.request_id := None |} ] in
                    if (limit <=? Z.of_nat (length errors'))%Z
                    then errors'
                    else scan_log fuel' rest_j errors'
            end
      end
  end.
End Extract.

Definition getErrorsFromTextLog (w : World) (logPath serverName : jsstring)
           (limit : Z) (toolName : option jsstring) (hours : option Z)
  : result (list LogEntry.t) :=
  match readFileSync w logPath with
  | None => throw (FsError logPath)
  | Some content =>
      let lines := split_lines content in
      let cutoffTime :=
        match hours with
        | Some h =>
            if (h =? 0)%Z then 0%Z
            else (Date_now w logPath - h * 60 * 60 * 1000)%Z
        | None => 0%Z
        end in
      ret (rev (scan_log serverName limit toolName hours cutoffTime
                  (length lines) lines []))
  end.

(** *** Query Engine *)

Definition not_found_message (serverName : jsstring)
           (servers : list ServerInfo.t) : jsstring :=
  js "Log file not found for server: " ++ serverName ++
  js ". Available servers: " ++
  join (js ", ") (map ServerInfo.server_name servers).

Definition getRecentErrors (w : World) (serverName : jsstring) (limit : Z)
           (toolName : option jsstring) (hours : option Z)
  : result (list LogEntry.t) :=
  logPath <- findLogPath w serverName ;;
  match logPath with
  | Some (c :: p) =>
      getErrorsFromTextLog w (c :: p) serverName limit toolName hours
  | _ =>
      (* [!logPath]: [null], or the empty string *)
      servers <- getAvailableServers w ;;
      throw (JsError (not_found_message serverName servers))
  end.

(** *** Root-Cause Classifier *)

(** The warning sign of the template literal on line 342: U+26A0
    followed by the variation selector U+FE0F. *)
Definition WARNING_SIGN : jsstring := [9888%N; 65039%N].

(** The keyword of line 240, U+AD8C U+D55C. *)
Definition KW_GWONHAN : jsstring := [44428%N; 54620%N].

(** The root cause and the actions pushed by each branch of the chain
    of lines 237-337, in the order of the branches. *)
Definition PERMISSION_ERROR : jsstring * list jsstring :=
  (js "Permission or authorization error",
   [ js "Check if the required API credentials are properly configured";
     js "Verify that the API key or token has the necessary permissions";
     js "Ensure the user has access to the requested resource";
     js "Review the API documentation for required OAuth scopes or permissions" ]).

Definition RATE_LIMIT : jsstring * list jsstring :=
  (js "API rate limit exceeded",
   [ js "Implement exponential backoff for API requests";
     js "Reduce the frequency of API calls";
     js "Consider caching responses to minimize API usage";
     js "Check if you can upgrade to a higher rate limit tier" ]).

Definition REQUEST_TIMEOUT : jsstring * list jsstring :=
  (js "Request timeout",
   [ js "Increase the timeout duration in the API configuration";
     js "Check network connectivity";
     js "Verify that the target service is responsive";
     js "Consider breaking large requests into smaller chunks" ]).

Definition NOT_FOUND : jsstring * list jsstring :=
  (js "Resource not found",
   [ js "Verify that the resource ID or identifier is correct";
     js "Check if the resource has been deleted or moved";
     js "Ensure you're using the correct API endpoint";
     js "Confirm the resource exists before attempting to access it" ]).

Definition NETWORK_ISSUE : jsstring * list jsstring :=
  (js "Network connectivity issue",
   [ js "Check your internet connection";
     js "Verify firewall settings are not blocking the connection";
     js "Try again after a short delay";
     js "Ensure the target service is online and accessible" ]).

Definition INVALID_REQUEST : jsstring * list jsstring :=
  (js "Invalid input or malformed request",
   [ js "Validate input parameters before making the API call";
     js "Check the API documentation for correct request format";
     js "Ensure all required fields are provided";
     js "Verify data types match the API expectations" ]).

Definition AUTH_FAILED : jsstring * list jsstring :=
  (js "Authentication failed",
   [ js "Verify API credentials are correct and not expired";
     js "Check if the authentication token needs to be refreshed";
     js "Ensure credentials are properly configured in environment variables" ]).

Definition SERVER_ERROR : jsstring * list jsstring :=
  (js "Server-side error",
   [ js "The error is on the service provider's side";
     js "Try again after a few minutes";
     js "Check the service status page for known outages";
     js "Contact the service provider if the issue persists" ]).

(** The [if]/[else if] chain of lines 233-337 on the lower-cased
    message: the root cause and the actions pushed by the branch taken. *)
Definition classify (message : jsstring) : jsstring * list jsstring :=
  if includes message (js "permission") ||
     includes message (js "unauthorized") ||
     includes message KW_GWONHAN ||
     includes message (js "forbidden")
  then PERMISSION_ERROR
  else if includes message (js "rate limit") ||
          includes message (js "too many requests") ||
          includes message (js "429")
  then RATE_LIMIT
  else if includes message (js "timeout") ||
          includes message (js "timed out")
  then REQUEST_TIMEOUT
  else if includes message (js "not found") ||
          includes message (js "404")
  then NOT_FOUND
  else if includes message (js "network") ||
          includes message (js "connection") ||
          includes message (js "econnrefused")
  then NETWORK_ISSUE
  else if includes message (js "invalid") ||
          includes message (js "malformed") ||
          includes message (js "validation")
  then INVALID_REQUEST
  else if includes message (js "authentication") ||
          includes message (js "unauthenticated") ||
          includes message (js "401")
  then AUTH_FAILED
  else if includes message (js "server error") ||
          includes message (js "500") ||
          includes message (js "503")
  then SERVER_ERROR
  else (js "Unknown error occurred", []).

(** The template literal of line 342. *)
Definition occurrence_warning (n : Z) : jsstring :=
  WARNING_SIGN ++ js " This error has occurred " ++ Number_toString n ++
  js " times. Consider implementing a permanent fix rather than retrying.".

Definition FIRST_OCCURRENCE : jsstring :=
  js "This is the first occurrence of this error - monitor for patterns".

(** [generateErrorAnalysis], returning [(rootCause, suggestedActions)]. *)
Definition generateErrorAnalysis (error : LogEntry.t)
           (relatedErrors : list LogEntry.t) : jsstring * list jsstring :=
  let message := toLowerCase (LogEntry.message error) in
  let '(rootCause, suggestedActions) := classify message in
  let suggestedActions :=
    if 2 <? length relatedErrors then
      occurrence_warning (Z.of_nat (length relatedErrors) + 1)
        :: suggestedActions
    else if length relatedErrors =? 0 then
      suggestedActions ++ [FIRST_OCCURRENCE]
    else suggestedActions in
  (rootCause, suggestedActions).

(** *** Detail analysis *)

Definition same_message_other_time (matchingError e : LogEntry.t) : bool :=
  str_eqb (LogEntry.message e) (LogEntry.message matchingError) &&
  negb (str_eqb (LogEntry.timestamp e) (LogEntry.timestamp matchingError)).

(** [analyzeError]; [ret None] is the [null] of line 108. *)
Definition analyzeError (w : World) (serverName errorMessage : jsstring)
           (includeStackTrace : bool) : result (option ErrorAnalysis.t) :=
  errors <- getRecentErrors w serverName MAX_LOG_SCAN_LIMIT None None ;;
  match
    find (fun e => includes (toLowerCase (LogEntry.message e))
                            (toLowerCase errorMessage)) errors
  with
  | None => ret None
  | Some matchingError =>
      let relatedErrors :=
        firstn 5 (filter (same_message_other_time matchingError) errors) in
      let analysis := generateErrorAnalysis matchingError relatedErrors in
      ret (Some
             {| ErrorAnalysis.error :=
                  if includeStackTrace then matchingError
                  else LogEntry.without_stack_trace matchingError;
                ErrorAnalysis.root_cause := fst analysis;
                ErrorAnalysis.suggested_actions := snd analysis;
                ErrorAnalysis.related_errors :=
                  if includeStackTrace then relatedErrors
                  else map LogEntry.without_stack_trace relatedErrors |})
  end.

(** *** JSON formatters ([formatter.ts]) *)

(** [JSON.stringify(value, null, 2)] *)
Variable JSON_stringify : json -> jsstring.

(** The object built for an entry on lines 55-64. *)
Definition error_json (error : LogEntry.t) : json :=
  JObject
    ([ ("timestamp"%string, JString (LogEntry.timestamp error));
       ("level"%string, JString (LogEntry.level error));
       ("server_name"%string, JString (LogEntry.server_name error)) ] ++
     optional_field "tool_name" (LogEntry.tool_name error) ++
     [ ("message"%string, JString (LogEntry.message error)) ] ++
     optional_field "error_code" (LogEntry.error_code error) ++
     optional_field "stack_trace" (LogEntry.stack_trace error) ++
     optional_field "request_id" (LogEntry.request_id error)).

Definition formatErrorsAsJson (errors : list LogEntry.t) : jsstring :=
  let response :=
    JObject
      [ ("total"%string, JNumber (Z.of_nat (length errors)));
        ("errors"%string, JArray (map error_json errors)) ] in
  let jsonString := JSON_stringify response in
  truncateIfNeeded jsonString (Z.of_nat (length errors)).

(** The object built for a server on lines 114-124. *)
Definition server_json (includeStats : bool) (server : ServerInfo.t) : json :=
  JObject
    ([ ("server_name"%string, JString (ServerInfo.server_name server));
       ("log_file_path"%string, JString (ServerInfo.log_file_path server));
       ("last_modified"%string, JString (ServerInfo.last_modified server)) ] ++
     (if includeStats then
        [ ("total_errors"%string,
           JNumber (Z.of_nat (ServerInfo.total_errors server)));
          ("recent_error_count"%string,
           JNumber (Z.of_nat (ServerInfo.recent_error_count server))) ]
      else [])).

Definition formatServersAsJson (servers : list ServerInfo.t)
           (includeStats : bool) : jsstring :=
  let response :=
    JObject
      [ ("total"%string, JNumber (Z.of_nat (length servers)));
        ("servers"%string, JArray (map (server_json includeStats) servers)) ]
  in
  JSON_stringify response.

(** The object built for a related error on lines 199-203. *)
Definition related_json (e : LogEntry.t) : json :=
  JObject
    ([ ("timestamp"%string, JString (LogEntry.timestamp e));
       ("message"%string, JString (LogEntry.message e)) ] ++
     optional_field "stack_trace" (LogEntry.stack_trace e)).

(** The object built on lines 185-204. *)
Definition analysis_json (analysis : ErrorAnalysis.t) : json :=
  let error := ErrorAnalysis.error analysis in
  JObject
    [ ("root_cause"%string, JString (ErrorAnalysis.root_cause analysis));
      ("error"%string,
       JObject
         ([ ("timestamp"%string, JString (LogEntry.timestamp error));
            ("server_name"%string, JString (LogEntry.server_name error)) ] ++
          optional_field "tool_name" (LogEntry.tool_name error) ++
          [ ("message"%string, JString (LogEntry.message error)) ] ++
          optional_field "stack_trace" (LogEntry.stack_trace error)));
      ("suggested_actions"%string,
       JArray (map JString (ErrorAnalysis.suggested_actions analysis)));
      ("related_errors"%string,
       JArray (map related_json (ErrorAnalysis.related_errors analysis))) ].

Definition formatAnalysisAsJson (analysis : ErrorAnalysis.t) : jsstring :=
  JSON_stringify (analysis_json analysis).

(** *** The tools ([tools/]) *)

(** The message of the system error that an [fs] call raises for a
    path. *)
Variable fs_error_message : jsstring -> jsstring.

(** [error instanceof Error ? error.message : String(error)] *)
Definition message_of (error : exn) : jsstring :=
  match error with
  | JsError msg => msg
  | FsError path => fs_error_message path
  end.

(** [execute] of [get_server_list]. *)
Definition get_server_list (w : World) (params : ListServersInput.t)
  : ToolResponse.t :=
  match getAvailableServers w with
  | inr servers =>
      let result :=
        match ListServersInput.response_format params with
        | MARKDOWN =>
            formatServersAsMarkdown servers
              (ListServersInput.include_stats params)
        | JSON =>
            formatServersAsJson servers
              (ListServersInput.include_stats params)
        end in
      {| ToolResponse.isError := false; ToolResponse.text := result |}
  | inl error =>
      {| ToolResponse.isError := true;
         ToolResponse.text :=
           js "Error listing servers: " ++ message_of error |}
  end.

(** [execute] of [get_recent_errors]. *)
Definition get_recent_errors (w : World) (params : GetRecentErrorsInput.t)
  : ToolResponse.t :=
  match
    getRecentErrors w (GetRecentErrorsInput.server_name params)
      (GetRecentErrorsInput.limit params)
      (GetRecentErrorsInput.tool_name params)
      (GetRecentErrorsInput.hours params)
  with
  | inr errors =>
      let result :=
        match GetRecentErrorsInput.response_format params with
        | MARKDOWN =>
            formatErrorsAsMarkdown errors
              (GetRecentErrorsInput.server_name params)
        | JSON => formatErrorsAsJson errors
        end in
      {| ToolResponse.isError := false; ToolResponse.text := result |}
  | inl error =>
      {| ToolResponse.isError := true;
         ToolResponse.text :=
           js "Error retrieving logs: " ++ message_of error |}
  end.

(** [execute] of [get_error_details]. *)
Definition get_error_details (w : World) (params : GetErrorDetailsInput.t)
  : ToolResponse.t :=
  match
    analyzeError w (GetErrorDetailsInput.server_name params)
      (GetErrorDetailsInput.error_message params)
      (GetErrorDetailsInput.include_stack_trace params)
  with
  | inr None =>
      {| ToolResponse.isError := false;
         ToolResponse.text :=
           js "No error found matching " ++ [34%N] ++
           GetErrorDetailsInput.error_message params ++ [34%N] ++
           js " in " ++ GetErrorDetailsInput.server_name params ++
           js " logs. Try using get_recent_errors first to see available" ++
           js " errors." |}
  | inr (Some analysis) =>
      let result :=
        match GetErrorDetailsInput.response_format params with
        | MARKDOWN => formatAnalysisAsMarkdown analysis
        | JSON => formatAnalysisAsJson analysis
        end in
      {| ToolResponse.isError := false; ToolResponse.text := result |}
  | inl error =>
      {| ToolResponse.isError := true;
         ToolResponse.text :=
           js "Error analyzing error details: " ++ message_of error |}
  end.

(** ** Specification-side definitions *)

(** *** The classifier as a priority table *)

Definition UNKNOWN_ERROR : jsstring * list jsstring :=
  (js "Unknown error occurred", []).

(** One row per rule, highest priority first: the trigger keywords and
    the result. *)
Definition RULES : list (list jsstring * (jsstring * list jsstring)) :=
  [ ([js "permission"; js "unauthorized"; KW_GWONHAN; js "forbidden"],
     PERMISSION_ERROR);
    ([js "rate limit"; js "too many requests"; js "429"], RATE_LIMIT);
    ([js "timeout"; js "timed out"], REQUEST_TIMEOUT);
    ([js "not found"; js "404"], NOT_FOUND);
    ([js "network"; js "connection"; js "econnrefused"], NETWORK_ISSUE);
    ([js "invalid"; js "malformed"; js "validation"], INVALID_REQUEST);
    ([js "authentication"; js "unauthenticated"; js "401"], AUTH_FAILED);
    ([js "server error"; js "500"; js "503"], SERVER_ERROR) ].

Definition triggers (message : jsstring) (keywords : list jsstring) : bool :=
  existsb (includes message) keywords.

(** First match wins. *)
Fixpoint first_match (rules : list (list jsstring * (jsstring * list jsstring)))
         (message : jsstring) : jsstring * list jsstring :=
  match rules with
  | [] => UNKNOWN_ERROR
  | (keywords, res) :: rules' =>
      if triggers message keywords then res else first_match rules' message
  end.

(** The post-processing of the base actions for a number of related
    errors. *)
Definition post_process (relatedCount : nat) (base : list jsstring)
  : list jsstring :=
  if 2 <? relatedCount then
    occurrence_warning (Z.of_nat relatedCount + 1) :: base
  else if relatedCount =? 0 then base ++ [FIRST_OCCURRENCE]
  else base.

(** *** The scanner's line heuristic *)

Definition has_error_word (line : jsstring) : bool :=
  includes line (js "ERROR") || includes line (js "error").

(** [s] starts with one character of each class of [shape], in order. *)
Fixpoint has_shape (shape : list (char16 -> bool)) (s : jsstring) : bool :=
  match shape, s with
  | [], _ => true
  | p :: shape', x :: s' => p x && has_shape shape' s'
  | _ :: _, [] => false
  end.

(** [YYYY-MM-DDTHH:MM:SS] *)
Definition DATE_TIME_SHAPE : list (char16 -> bool) :=
  [ is_digit; is_digit; is_digit; is_digit; chr "-"; is_digit; is_digit;
    chr "-"; is_digit; is_digit; chr "T"; is_digit; is_digit; chr ":";
    is_digit; is_digit; chr ":"; is_digit; is_digit ].

(** [.mmm] *)
Definition MILLIS_SHAPE : list (char16 -> bool) :=
  [ chr "."; is_digit; is_digit; is_digit ].

(** The bare ISO timestamp a line starts with, if any: date and time,
    then the milliseconds when they are there, then [Z] when it is
    there.  Nothing is asked of what follows. *)
Definition bare_iso_prefix (line : jsstring) : option jsstring :=
  if has_shape DATE_TIME_SHAPE line then
    let tail := skipn 19 line in
    let millis :=
      if has_shape MILLIS_SHAPE tail then firstn 4 tail else [] in
    let tail' := skipn (length millis) tail in
    let zone := if has_shape [chr "Z"] tail' then firstn 1 tail' else [] in
    Some (firstn 19 line ++ millis ++ zone)
  else None.

(** A time within the last 24 hours of the scan: later than 24 hours
    before the scan, and not later than the scan. *)
Definition within_last_24h (scan_time : Z) (t : option Z) : bool :=
  match t with
  | Some t => (scan_time - 86400000 <? t)%Z && (t <=? scan_time)%Z
  | None => false
  end.

(** A time later than 24 hours before the scan, be it before the scan
    or after it. *)
Definition later_than_24h_before (scan_time : Z) (t : option Z) : bool :=
  match t with
  | Some t => (scan_time - 86400000 <? t)%Z
  | None => false
  end.

(** An error line that starts with a bare ISO timestamp whose time is
    within the last 24 hours of the scan. *)
Definition error_line_within_last_24h (scan_time : Z) (line : jsstring)
  : bool :=
  has_error_word line &&
  match bare_iso_prefix line with
  | Some ts => within_last_24h scan_time (Date_parse ts)
  | None => false
  end.

(** An error line that starts with a bare ISO timestamp whose time is
    later than 24 hours before the scan. *)
Definition recent_error_line (scan_time : Z) (line : jsstring) : bool :=
  has_error_word line &&
  match bare_iso_prefix line with
  | Some ts => later_than_24h_before scan_time (Date_parse ts)
  | None => false
  end.

(** An error line that starts with a bare ISO timestamp whose time is
    after the scan. *)
Definition error_line_after_scan (scan_time : Z) (line : jsstring) : bool :=
  has_error_word line &&
  match bare_iso_prefix line with
  | Some ts => num_gtb (Date_parse ts) scan_time
  | None => false
  end.

(** The physical lines of a file; none when it cannot be read. *)
Definition physical_lines (w : World) (filePath : jsstring)
  : list jsstring :=
  match readFileSync w filePath with
  | Some content => split_lines content
  | None => []
  end.

(** *** The extractor as a list of records *)

Definition is_header (line : jsstring) : bool := regex_test HEADER_RE line.

(** The physical lines that follow a header, up to the next header
    line. *)
Fixpoint body_lines (rest : list jsstring) : list jsstring :=
  match rest with
  | [] => []
  | l :: rest' => if is_header l then [] else l :: body_lines rest'
  end.

Definition nonempty (s : jsstring) : bool := negb (is_empty s).

(** Rest of the header line, then the body lines; empty lines removed,
    the others joined with a newline, the whole trimmed. *)
Definition joined_message (rest_of_line : jsstring) (body : list jsstring)
  : jsstring :=
  trim (join [LF] (filter nonempty (rest_of_line :: body))).

Definition is_error_header (m : MatchResult) : bool :=
  regex_test ERROR_RE (group 3 m).

(** Every header line of error level, in file order, with the lines that
    follow it up to the next header line. *)
Fixpoint error_headers (lines : list jsstring)
  : list (MatchResult * list jsstring) :=
  match lines with
  | [] => []
  | line :: rest =>
      match regex_exec HEADER_RE line with
      | Some m =>
          if is_error_header m then (m, body_lines rest) :: error_headers rest
          else error_headers rest
      | None => error_headers rest
      end
  end.

Definition entry_of (serverName : jsstring)
           (h : MatchResult * list jsstring) : LogEntry.t :=
  {| LogEntry.timestamp := group 1 (fst h);
     LogEntry.level := js "ERROR";
     LogEntry.server_name :=
       if is_empty serverName then group 2 (fst h) else serverName;
     LogEntry.tool_name := None;
     LogEntry.message := joined_message (group 4 (fst h)) (snd h);
     LogEntry.error_code := None;
     LogEntry.stack_trace := None;
     LogEntry.request_id := None |}.

(** The recency filter and the tool-name filter. *)
Definition passes_filters (toolName : option jsstring) (hours : option Z)
           (cutoffTime : Z) (e : LogEntry.t) : bool :=
  negb (truthy_num hours &&
        num_ltb (Date_parse (LogEntry.timestamp e)) cutoffTime) &&
  negb (tool_filter_rejects toolName (LogEntry.message e)).

(** The cut-off of line 164. *)
Definition cutoff_of (w : World) (logPath : jsstring) (hours : option Z) : Z :=
  match hours with
  | Some h =>
      if (h =? 0)%Z then 0%Z
      else (Date_now w logPath - h * 60 * 60 * 1000)%Z
  | None => 0%Z
  end.

(** What the extractor returns for the lines of a file. *)
Definition extracted (w : World) (logPath serverName : jsstring) (limit : Z)
           (toolName : option jsstring) (hours : option Z)
           (lines : list jsstring) : list LogEntry.t :=
  rev (firstn (Z.to_nat (Z.max 1 limit))
         (filter (passes_filters toolName hours (cutoff_of w logPath hours))
            (map (entry_of serverName) (error_headers lines)))).

(** *** The entries that carry a message *)

Definition with_message (m : jsstring) (errors : list LogEntry.t)
  : list LogEntry.t :=
  filter (fun e => str_eqb (LogEntry.message e) m) errors.

(** The test of [errors.find] on lines 103-105. *)
Definition message_includes (errorMessage : jsstring) (e : LogEntry.t)
  : bool :=
  includes (toLowerCase (LogEntry.message e)) (toLowerCase errorMessage).

(** *** Order on timestamps: code-unit order of the strings *)

Fixpoint str_leb (a b : jsstring) : bool :=
  match a, b with
  | [], _ => true
  | _ :: _, [] => false
  | x :: a', y :: b' =>
      if (x <? y)%N then true
      else if (x =? y)%N then str_leb a' b'
      else false
  end.

Definition str_le (a b : jsstring) : Prop := str_leb a b = true.
Definition str_ge (a b : jsstring) : Prop := str_leb b a = true.

(** *** Definitions used by the proofs *)

Definition final_k (s : jsstring) (c : captures) : option (jsstring * captures) :=
  Some (s, c).

(** What follows the last hyphen of a string, if it has one. *)
Fixpoint after_last_hyphen (s : jsstring) : option jsstring :=
  match s with
  | [] => None
  | x :: s' =>
      match after_last_hyphen s' with
      | Some r => Some r
      | None => if N.eqb x HYPHEN then Some s' else None
      end
  end.

Definition no_line_terminator (s : jsstring) : Prop :=
  Forall (fun c => is_line_terminator c = false) s.

(** The descriptor pushed for a log file. *)
Definition describe (w : World) (file : jsstring) : ServerInfo.t :=
  let filePath := path_join DEFAULT_LOG_DIR file in
  {| ServerInfo.server_name := derive_server_name file;
     ServerInfo.log_file_path := filePath;
     ServerInfo.last_modified :=
       match stat_mtime w filePath with Some t => t | None => [] end;
     ServerInfo.total_errors := fst (file_stats w filePath);
     ServerInfo.recent_error_count := snd (file_stats w filePath) |}.

(** [eat shape s]: what is left of [s] after one character of each class
    of [shape]. *)
Fixpoint eat (shape : list (char16 -> bool)) (s : jsstring)
  : option jsstring :=
  match shape with
  | [] => Some s
  | p :: shape' =>
      match s with
      | x :: s' => if p x then eat shape' s' else None
      | [] => None
      end
  end.

(** The classes of [shape] in sequence, then [r]. *)
Fixpoint ChrSeq (shape : list (char16 -> bool)) (r : regex) : regex :=
  match shape with
  | [] => r
  | p :: shape' => Seq (Chr p) (ChrSeq shape' r)
  end.

(** The lines from the next header line on. *)
Fixpoint drop_body (rest : list jsstring) : list jsstring :=
  match rest with
  | [] => []
  | l :: rest' => if is_header l then rest else drop_body rest'
  end.

(** The header timestamps of a file, in file order. *)
Definition error_header_timestamps (lines : list jsstring) : list jsstring :=
  map (fun h => group 1 (fst h)) (error_headers lines).

(** [YYYY-MM-DDTHH:MM:SS] under the [i] flag. *)
Definition DATE_TIME_SHAPE_I : list (char16 -> bool) :=
  [ is_digit; is_digit; is_digit; is_digit; chr "-"; is_digit; is_digit;
    chr "-"; is_digit; is_digit; chr_i "t" "T"; is_digit; is_digit; chr ":";
    is_digit; is_digit; chr ":"; is_digit; is_digit ].

(** What follows the date and time of a line, and its milliseconds when
    they are there. *)
Definition after_date_time (line : jsstring) : jsstring :=
  let tail := skipn 19 line in
  if has_shape MILLIS_SHAPE tail then skipn 4 tail else tail.

(** The entries the loop may append for the lines left: those of the
    error headers that pass the filters. *)
Definition candidates (serverName : jsstring) (toolName : option jsstring)
           (hours : option Z) (cutoffTime : Z) (rest : list jsstring)
  : list LogEntry.t :=
  filter (passes_filters toolName hours cutoffTime)
    (map (entry_of serverName) (error_headers rest)).

(** How many entries the loop still appends once [errors] are there: it
    appends one before it looks at the limit. *)
Definition room (limit : Z) (errors : list LogEntry.t) : nat :=
  Z.to_nat (Z.max 1 (limit - Z.of_nat (length errors))).

(** *** The header grammar *)

Fixpoint dropWhile (p : char16 -> bool) (s : jsstring) : jsstring :=
  match s with
  | x :: s' => if p x then dropWhile p s' else s
  | [] => []
  end.

Fixpoint takeWhile (p : char16 -> bool) (s : jsstring) : jsstring :=
  match s with
  | x :: s' => if p x then x :: takeWhile p s' else []
  | [] => []
  end.

Definition not_line_terminator (c : char16) : bool :=
  negb (is_line_terminator c).
Definition not_closing (c : char16) : bool := negb (chr "]" c).

(** The timestamp a header starts with, and what follows it: date and
    time, the milliseconds when they are there, then Z. *)
Definition header_timestamp (line : jsstring)
  : option (jsstring * jsstring) :=
  if has_shape DATE_TIME_SHAPE_I line then
    let n := if has_shape MILLIS_SHAPE (skipn 19 line) then 23 else 19 in
    if has_shape [chr_i "z" "Z"] (skipn n line)
    then Some (firstn (S n) line, skipn (S n) line)
    else None
  else None.

(** White space, then a non-empty token between brackets; the token and
    what follows the closing bracket. *)
Definition bracketed (s : jsstring) : option (jsstring * jsstring) :=
  match s with
  | x :: s1 =>
      if is_space x then
        match dropWhile is_space s1 with
        | y :: s2 =>
            if chr "[" y then
              match takeWhile not_closing s2, dropWhile not_closing s2 with
              | t :: tok, _ :: s3 => Some (t :: tok, s3)
              | _, _ => None
              end
            else None
        | [] => None
        end
      else None
  | [] => None
  end.

(** White space, then the rest of the line, free of line terminators. *)
Definition header_message (s : jsstring) : option jsstring :=
  match s with
  | x :: s1 =>
      if is_space x then
        let rest := dropWhile is_space s1 in
        if forallb not_line_terminator rest then Some rest else None
      else None
  | [] => None
  end.

(** The four fields of a header line. *)
Definition parse_header (line : jsstring)
  : option (jsstring * jsstring * jsstring * jsstring) :=
  match header_timestamp line with
  | Some (ts, r1) =>
      match bracketed r1 with
      | Some (source, r2) =>
          match bracketed r2 with
          | Some (level, r3) =>
              match header_message r3 with
              | Some rest => Some (ts, source, level, rest)
              | None => None
              end
          | None => None
          end
      | None => None
      end
  | None => None
  end.

(** Date and time, optional milliseconds, and the Z. *)
Definition zoned_timestamp (ts : jsstring) : Prop :=
  exists dt ms z,
    ts = dt ++ ms ++ [z] /\
    length dt = 19 /\ has_shape DATE_TIME_SHAPE_I dt = true /\
    (ms = [] \/ (length ms = 4 /\ has_shape MILLIS_SHAPE ms = true)) /\
    chr_i "z" "Z" z = true.

Definition blank (ws : jsstring) : Prop :=
  ws <> [] /\ forallb is_space ws = true.

Definition token (t : jsstring) : Prop :=
  t <> [] /\ forallb not_closing t = true.

Definition LBRACKET : char16 := 91%N.
Definition RBRACKET : char16 := 93%N.

(** [timestamp ws [source] ws [level] ws rest] *)
Definition header_line (ts ws1 source ws2 level ws3 rest : jsstring)
  : jsstring :=
  ts ++ ws1 ++ [LBRACKET] ++ source ++ [RBRACKET] ++
  ws2 ++ [LBRACKET] ++ level ++ [RBRACKET] ++ ws3 ++ rest.

(** ** Example environment *)

(** [toLowerCase] on ASCII text. *)
Definition ex_toLowerCase (s : jsstring) : jsstring := map ascii_lower s.

(** POSIX [path.join] of a directory and a file name. *)
Definition ex_path_join (d f : jsstring) : jsstring := d ++ js "/" ++ f.

Definition ex_dir : jsstring := js "/logs".

Definition text (lines : list string) : jsstring := join [LF] (map js lines).

Fixpoint lookup_str (A : Type) (k : jsstring) (table : list (string * A))
  : option A :=
  match table with
  | [] => None
  | (k', v) :: table' =>
      if str_eqb k (js k') then Some v else lookup_str k table'
  end.

(** [Date] parsing on the timestamps of the examples (UTC). *)
Definition ex_Date_parse (ts : jsstring) : option Z :=
  lookup_str ts
    [ ("2025-10-01T00:00:00Z"%string, 1759276800000%Z);
      ("2025-10-29T18:00:46.468Z"%string, 1761760846468%Z);
      ("2025-10-29T18:00:47.000Z"%string, 1761760847000%Z);
      ("2025-10-29T18:05:00Z"%string, 1761761100000%Z);
      ("2100-01-01T00:00:00Z"%string, 4102444800000%Z) ].

Definition slack_log : jsstring :=
  text [ "2025-10-01T00:00:00Z [slack] [error] old failure";
         "2025-10-29T18:00:46.468Z [slack] [error] Request timed out after 30s";
         "    at fetch (client.js:10)";
         EmptyString;
         "    at run (main.js:3)";
         "2025-10-29T18:00:47.000Z [slack] [info] reconnecting after error";
         "details of the reconnect";
         "2025-10-29T18:05:00Z [slack] [ERROR] 403 Forbidden: missing scope";
         "Error: capitalised, not counted by the scanner" ]%string.

(** Two error entries, the later one first. *)
Definition unordered_log : jsstring :=
  text [ "2025-10-29T18:00:00Z [old] [error] later";
         "2025-10-28T18:00:00Z [old] [error] earlier" ]%string.

(** Ten error entries with one message. *)
Definition ten_log : jsstring :=
  text [ "2025-10-29T18:00:00Z [ten] [error] 429 Too Many Requests";
         "2025-10-29T18:00:01Z [ten] [error] 429 Too Many Requests";
         "2025-10-29T18:00:02Z [ten] [error] 429 Too Many Requests";
         "2025-10-29T18:00:03Z [ten] [error] 429 Too Many Requests";
         "2025-10-29T18:00:04Z [ten] [error] 429 Too Many Requests";
         "2025-10-29T18:00:05Z [ten] [error] 429 Too Many Requests";
         "2025-10-29T18:00:06Z [ten] [error] 429 Too Many Requests";
         "2025-10-29T18:00:07Z [ten] [error] 429 Too Many Requests";
         "2025-10-29T18:00:08Z [ten] [error] 429 Too Many Requests";
         "2025-10-29T18:00:09Z [ten] [error] 429 Too Many Requests" ]%string.

(** A header-shaped line whose timestamp has no Z. *)
Definition no_zone_line : jsstring :=
  js "2025-10-29T18:00:46.468 [context7] [error] Server disconnected".

(** A directory with five log files, one of them unreadable, scanned at
    2025-10-29T20:00:00Z. *)
Definition ex_world : World :=
  {| existsSync := fun _ => true;
     readdirSync := fun _ =>
       Some [ js "mcp-server-slack.log"; js "notes.txt";
              js "mcp-server-github-bot.log"; js "mcp-server-old.log";
              js "mcp-server-ten.log"; js "mcp-server-local.log" ];
     stat_mtime := fun _ => Some (js "2025-10-29T19:00:00.000Z");
     readFileSync := fun p =>
       lookup_str p
         [ ("/logs/mcp-server-slack.log"%string, slack_log);
           ("/logs/mcp-server-old.log"%string, unordered_log);
           ("/logs/mcp-server-ten.log"%string, ten_log);
           ("/logs/mcp-server-local.log"%string, no_zone_line) ];
     Date_now := fun _ => 1761768000000%Z |}.

(** A directory whose only log file has a line feed in its name. *)
Definition newline_world : World :=
  {| existsSync := fun _ => true;
     readdirSync := fun _ =>
       Some [ js "mcp-server-a" ++ [LF] ++ js "-b.log" ];
     stat_mtime := fun _ => Some (js "2025-10-29T19:00:00.000Z");
     readFileSync := fun _ => None;
     Date_now := fun _ => 1761768000000%Z |}.

(** A content longer than [CHARACTER_LIMIT]. *)
Definition long_content : jsstring := repeat 120%N (Z.to_nat 25001).

(** The header match of the Forbidden entry of [slack_log]. *)
Definition forbidden_match : MatchResult :=
  {| m_before := []; m_after := [];
     m_caps := [ (4, js "403 Forbidden: missing scope"); (3, js "ERROR");
                 (2, js "slack"); (1, js "2025-10-29T18:05:00Z") ] |}.

(** *** The rule a message falls under *)

(** The position in [rules] of the first rule that [message] triggers;
    the number of rules when it triggers none. *)
Fixpoint first_index
         (rules : list (list jsstring * (jsstring * list jsstring)))
         (message : jsstring) : nat :=
  match rules with
  | [] => 0
  | (keywords, _) :: rules' =>
      if triggers message keywords then 0
      else S (first_index rules' message)
  end.

(** *** Further example environments *)

(** No log directory. *)
Definition absent_world : World :=
  {| existsSync := fun _ => false;
     readdirSync := fun _ => None;
     stat_mtime := fun _ => None;
     readFileSync := fun _ => None;
     Date_now := fun _ => 1761768000000%Z |}.

(** A directory whose second log file vanished after the listing: it
    cannot be examined any more. *)
Definition vanished_world : World :=
  {| existsSync := fun _ => true;
     readdirSync := fun _ =>
       Some [ js "mcp-server-slack.log"; js "mcp-server-gone.log" ];
     stat_mtime := fun p =>
       if str_eqb p (js "/logs/mcp-server-gone.log") then None
       else Some (js "2025-10-29T19:00:00.000Z");
     readFileSync := fun p =>
       lookup_str p [ ("/logs/mcp-server-slack.log"%string, slack_log) ];
     Date_now := fun _ => 1761768000000%Z |}.

(** A directory with two log files whose names end in the same
    segment. *)
Definition shadow_world : World :=
  {| existsSync := fun _ => true;
     readdirSync := fun _ =>
       Some [ js "mcp-server-github-bot.log"; js "mcp-server-slack-bot.log" ];
     stat_mtime := fun _ => Some (js "2025-10-29T19:00:00.000Z");
     readFileSync := fun _ => None;
     Date_now := fun _ => 1761768000000%Z |}.

(** A directory whose only log file has an underscore in its last
    segment. *)
Definition alias_world : World :=
  {| existsSync := fun _ => true;
     readdirSync := fun _ => Some [ js "mcp-server-my_tool.log" ];
     stat_mtime := fun _ => Some (js "2025-10-29T19:00:00.000Z");
     readFileSync := fun _ => Some slack_log;
     Date_now := fun _ => 1761768000000%Z |}.

(** Two error lines, the first dated after the scan of the examples. *)
Definition future_log : jsstring :=
  text [ "2100-01-01T00:00:00Z [future] [error] clock ahead";
         "2025-10-29T18:05:00Z [future] [error] recent" ]%string.

(** A directory whose only log file holds a line dated after the scan,
    which takes place at 2025-10-29T20:00:00Z. *)
Definition future_world : World :=
  {| existsSync := fun _ => true;
     readdirSync := fun _ => Some [ js "mcp-server-future.log" ];
     stat_mtime := fun _ => Some (js "2025-10-29T19:00:00.000Z");
     readFileSync := fun _ => Some future_log;
     Date_now := fun _ => 1761768000000%Z |}.


(** Ten error entries with one message and one timestamp. *)
Definition same_time_log : jsstring :=
  text [ "2025-10-29T18:00:00Z [same] [error] 429 Too Many Requests";
         "2025-10-29T18:00:00Z [same] [error] 429 Too Many Requests";
         "2025-10-29T18:00:00Z [same] [error] 429 Too Many Requests";
         "2025-10-29T18:00:00Z [same] [error] 429 Too Many Requests";
         "2025-10-29T18:00:00Z [same] [error] 429 Too Many Requests";
         "2025-10-29T18:00:00Z [same] [error] 429 Too Many Requests";
         "2025-10-29T18:00:00Z [same] [error] 429 Too Many Requests";
         "2025-10-29T18:00:00Z [same] [error] 429 Too Many Requests";
         "2025-10-29T18:00:00Z [same] [error] 429 Too Many Requests";
         "2025-10-29T18:00:00Z [same] [error] 429 Too Many Requests"
       ]%string.

(** The ten entries of [ten_log], then a newer entry whose message
    contains theirs. *)
Definition newer_log : jsstring :=
  ten_log ++ [LF] ++
  js "2025-10-29T18:00:10Z [ten] [error] gave up after 429 Too Many Requests".

(** A directory with these two logs. *)
Definition related_world : World :=
  {| existsSync := fun _ => true;
     readdirSync := fun _ =>
       Some [ js "mcp-server-same.log"; js "mcp-server-newer.log" ];
     stat_mtime := fun _ => Some (js "2025-10-29T19:00:00.000Z");
     readFileSync := fun p =>
       lookup_str p
         [ ("/logs/mcp-server-same.log"%string, same_time_log);
           ("/logs/mcp-server-newer.log"%string, newer_log) ];
     Date_now := fun _ => 1761768000000%Z |}.

(** The message of a system error, as Node words it for a file that
    cannot be opened. *)
Definition ex_fs_error_message (path : jsstring) : jsstring :=
  js "ENOENT: no such file or directory, open '" ++ path ++ js "'".

(** A stand-in for [JSON.stringify] in the examples, none of which reads
    the text it returns. *)
Definition ex_JSON_stringify (v : json) : jsstring := js "{}".

(** Arguments of the tools. *)
Definition slack_query : GetRecentErrorsInput.t :=
  {| GetRecentErrorsInput.server_name := js "slack";
     GetRecentErrorsInput.limit := 2;
     GetRecentErrorsInput.tool_name := None;
     GetRecentErrorsInput.hours := Some 3%Z;
     GetRecentErrorsInput.response_format := MARKDOWN |}.

Definition unknown_details : GetErrorDetailsInput.t :=
  {| GetErrorDetailsInput.server_name := js "slack-mcp";
     GetErrorDetailsInput.error_message := js "timed out";
     GetErrorDetailsInput.include_stack_trace := false;
     GetErrorDetailsInput.response_format := MARKDOWN |}.

Definition unmatched_details : GetErrorDetailsInput.t :=
  {| GetErrorDetailsInput.server_name := js "slack";
     GetErrorDetailsInput.error_message := js "no such text";
     GetErrorDetailsInput.include_stack_trace := true;
     GetErrorDetailsInput.response_format := JSON |}.

Definition listing_query : ListServersInput.t :=
  {| ListServersInput.include_stats := true;
     ListServersInput.response_format := MARKDOWN |}.

(** An entry whose message no rule recognises. *)
Definition odd_entry : LogEntry.t :=
  {| LogEntry.timestamp := js "2025-10-29T18:00:00Z";
     LogEntry.level := js "ERROR";
     LogEntry.server_name := js "slack";
     LogEntry.tool_name := None;
     LogEntry.message := js "something odd";
     LogEntry.error_code := None;
     LogEntry.stack_trace := None;
     LogEntry.request_id := None |}.

(** ** String lemmas *)

Lemma str_eqb_eq (a b : jsstring) : str_eqb a b = true <-> a = b.
Proof.
  revert b; induction a as [|x a IH]; intros [|y b]; simpl;
    try (split; [discriminate | discriminate]);
    [split; reflexivity|].
  rewrite andb_true_iff, N.eqb_eq, IH.
  split; [intros [-> ->]; reflexivity | intros H; inversion H; auto].
Qed.

Lemma str_eqb_refl (a : jsstring) : str_eqb a a = true.
Proof. apply str_eqb_eq; reflexivity. Qed.

Lemma str_eqb_neq (a b : jsstring) : str_eqb a b = false <-> a <> b.
Proof.
  rewrite <- str_eqb_eq. destruct (str_eqb a b); split; congruence.
Qed.

Lemma startsWith_spec (s p : jsstring) :
  startsWith s p = true <-> exists r, s = p ++ r.
Proof.
  revert s; induction p as [|y p IH]; intros s; simpl.
  - split; [exists s; reflexivity | reflexivity].
  - destruct s as [|x s].
    + split; [discriminate | intros [r H]; discriminate].
    + rewrite andb_true_iff, N.eqb_eq, IH. split.
      * intros [-> [r ->]]. exists r; reflexivity.
      * intros [r H]. inversion H; subst. split; [reflexivity | eauto].
Qed.

Lemma includes_spec (s t : jsstring) :
  includes s t = true <-> exists a b, s = a ++ t ++ b.
Proof.
  induction s as [|x s IH].
  - simpl. rewrite orb_false_r, startsWith_spec. split.
    + intros [r H]. exists [], r. exact H.
    + intros [a [b H]]. destruct a; [eauto | discriminate].
  - cbn [includes]. rewrite orb_true_iff, startsWith_spec, IH. split.
    + intros [[r H] | [a [b H]]].
      * exists [], r. exact H.
      * exists (x :: a), b. rewrite H. reflexivity.
    + intros [[|y a] [b H]].
      * left. exists b. exact H.
      * right. inversion H; subst. eauto.
Qed.

Lemma includes_refl (s : jsstring) : includes s s = true.
Proof.
  apply includes_spec. exists [], []. rewrite app_nil_r. reflexivity.
Qed.

Lemma trimStart_LF (s : jsstring) : trimStart (LF :: s) = trimStart s.
Proof. reflexivity. Qed.

(** An empty first chunk leaves no trace in the trimmed join. *)
Lemma trim_join_drop_empty (parts : list jsstring) :
  trim (join [LF] ([] :: parts)) = trim (join [LF] parts).
Proof.
  destruct parts as [|p ps]; [reflexivity|].
  unfold trim. change (join [LF] ([] :: p :: ps)) with (LF :: join [LF] (p :: ps)).
  rewrite trimStart_LF. reflexivity.
Qed.


(** ** Truncation *)


(** ** Root-Cause Classifier *)

(** The branching chain is the priority table read first match first. *)
Lemma classify_first_match (message : jsstring) :
  classify message = first_match RULES message.
Proof.
  unfold classify, RULES.
  cbn [first_match triggers existsb].
  repeat match goal with
         | |- context [includes message ?k] =>
             destruct (includes message k); cbn [orb]; try reflexivity
         end.
Qed.

Lemma generateErrorAnalysis_table (e : LogEntry.t) (related : list LogEntry.t) :
  generateErrorAnalysis e related =
  (fst (first_match RULES (toLowerCase (LogEntry.message e))),
   post_process (length related)
     (snd (first_match RULES (toLowerCase (LogEntry.message e))))).
Proof.
  unfold generateErrorAnalysis. rewrite classify_first_match.
  destruct (first_match RULES (toLowerCase (LogEntry.message e))) as [rc acts].
  reflexivity.
Qed.

Lemma first_match_none (rules : list (list jsstring * (jsstring * list jsstring)))
      (message : jsstring) :
  (forall kws res, In (kws, res) rules -> triggers message kws = false) ->
  first_match rules message = UNKNOWN_ERROR.
Proof.
  induction rules as [|[kws res] rules IH]; intros H; [reflexivity|].
  cbn [first_match]. rewrite (H kws res (or_introl eq_refl)).
  apply IH. intros k r Hin. apply (H k r). right. exact Hin.
Qed.

(** The rule that fires is the first one, in table order, with a keyword
    in the message. *)
Lemma first_match_first (before after : list (list jsstring * (jsstring * list jsstring)))
      (kws : list jsstring) (res : jsstring * list jsstring)
      (message : jsstring) :
  (forall k r, In (k, r) before -> triggers message k = false) ->
  triggers message kws = true ->
  first_match (before ++ (kws, res) :: after) message = res.
Proof.
  induction before as [|[k r] before IH]; intros Hb Ht; cbn [first_match app].
  - rewrite Ht. reflexivity.
  - rewrite (Hb k r (or_introl eq_refl)). apply IH; [|exact Ht].
    intros k' r' Hin. apply (Hb k' r'). right. exact Hin.
Qed.

(** C7.  The two messages of the specification are classified as it
    says, a message with none of the keywords is unknown with no base
    action, and the classification is the first rule of the priority
    table with a keyword in the lower-cased message. *)
Theorem classifier_spec :
  (forall e related,
      LogEntry.message e = js "403 Forbidden: missing scope" ->
      generateErrorAnalysis e related =
      (js "Permission or authorization error",
       post_process (length related) (snd PERMISSION_ERROR)) /\
      length (snd PERMISSION_ERROR) = 4) /\
  (forall e related,
      LogEntry.message e = js "Request timed out after 30s" ->
      fst (generateErrorAnalysis e related) = js "Request timeout") /\
  (forall e related,
      (forall kws res, In (kws, res) RULES ->
         triggers (toLowerCase (LogEntry.message e)) kws = false) ->
      generateErrorAnalysis e related =
      (js "Unknown error occurred", post_process (length related) [])) /\
  (forall e related before kws res after,
      RULES = before ++ (kws, res) :: after ->
      (forall k r, In (k, r) before ->
         triggers (toLowerCase (LogEntry.message e)) k = false) ->
      triggers (toLowerCase (LogEntry.message e)) kws = true ->
      generateErrorAnalysis e related =
      (fst res, post_process (length related) (snd res))).
Proof using toLowerCase_ascii.
  repeat split.
  - rewrite generateErrorAnalysis_table, H.
    rewrite toLowerCase_ascii by (vm_compute; reflexivity).
    vm_compute first_match. reflexivity.
  - intros e related H. rewrite generateErrorAnalysis_table, H.
    rewrite toLowerCase_ascii by (vm_compute; reflexivity).
    vm_compute. reflexivity.
  - intros e related H. rewrite generateErrorAnalysis_table.
    rewrite first_match_none by exact H. reflexivity.
  - intros e related before kws res after HR Hb Ht.
    rewrite generateErrorAnalysis_table, HR.
    rewrite first_match_first by assumption. reflexivity.
Qed.

(** ** Matcher lemmas *)

(** A successful match hands a suffix of the subject to its
    continuation. *)
Lemma mtch_inv (A : Type) (input : jsstring) (r : regex) :
  forall s c (k : jsstring -> captures -> option A) v,
    mtch input r s c k = Some v ->
    exists p s' c', s = p ++ s' /\ k s' c' = Some v.
Proof.
  induction r as [|p|a IHa b IHb|a IHa b IHb|a IHa|i a IHa| |];
    intros s c k v H; cbn [mtch] in H.
  - exists [], s, c. auto.
  - destruct s as [|x s]; [discriminate|].
    destruct (p x); [|discriminate]. exists [x], s, c. auto.
  - apply IHa in H. destruct H as (p1 & s1 & c1 & -> & H).
    apply IHb in H. destruct H as (p2 & s2 & c2 & -> & H).
    exists (p1 ++ p2), s2, c2. rewrite <- app_assoc. auto.
  - destruct (mtch input a s c k) eqn:E.
    + inversion H; subst. apply IHa in E. exact E.
    + apply IHb in H. exact H.
  - remember (length s) as n eqn:En. clear En.
    revert s c H. induction n as [|n IHn]; intros s c H; cbn [star_loop] in H.
    + exists [], s, c. auto.
    + match type of H with
      | match ?X with _ => _ end = _ => destruct X eqn:E
      end.
      * inversion H; subst. apply IHa in E.
        destruct E as (p1 & s1 & c1 & -> & E).
        destruct (length s1 <? length (p1 ++ s1)); [|discriminate].
        apply IHn in E. destruct E as (p2 & s2 & c2 & -> & E).
        exists (p1 ++ p2), s2, c2. rewrite <- app_assoc. auto.
      * exists [], s, c. auto.
  - apply IHa in H. destruct H as (p1 & s1 & c1 & -> & H). eauto.
  - destruct (length s =? length input); [|discriminate].
    exists [], s, c. auto.
  - destruct s; [|discriminate]. exists [], [], c. auto.
Qed.

Lemma search_from_parts (r : regex) (input : jsstring) :
  forall s before_rev m,
    search_from r input before_rev s = Some m ->
    exists mid, rev before_rev ++ s = m_before m ++ mid ++ m_after m.
Proof.
  induction s as [|x s IH]; intros b m H; cbn [search_from] in H.
  - destruct (mtch input r [] [] _) as [[s' c]|] eqn:E; [|discriminate].
    inversion H; subst; cbn. apply mtch_inv in E.
    destruct E as (p & s1 & c1 & Hs & E). inversion E; subst.
    exists p. rewrite Hs. reflexivity.
  - destruct (mtch input r (x :: s) [] _) as [[s' c]|] eqn:E.
    + inversion H; subst; cbn. apply mtch_inv in E.
      destruct E as (p & s1 & c1 & Hs & E). inversion E; subst.
      exists p. rewrite Hs. reflexivity.
    + apply IH in H. destruct H as [mid H]. exists mid.
      rewrite <- H. cbn [rev]. rewrite <- app_assoc. reflexivity.
Qed.

(** Cutting a match out keeps what holds of every character. *)
Lemma regex_remove_Forall (P : char16 -> Prop) (r : regex) (s : jsstring) :
  Forall P s -> Forall P (regex_remove r s).
Proof.
  intros H. unfold regex_remove, regex_exec.
  destruct (search_from r s [] s) as [m|] eqn:E; [|exact H].
  apply search_from_parts in E. destruct E as [mid E]. cbn in E.
  rewrite E in H. apply Forall_app in H. destruct H as [H1 H].
  apply Forall_app in H. destruct H as [_ H2].
  apply Forall_app. auto.
Qed.

(** A literal that starts with [^] matches at the start of the subject or
    nowhere. *)
Lemma search_from_Bol (r : regex) (input : jsstring) :
  forall s before_rev,
    length s < length input ->
    search_from (Seq Bol r) input before_rev s = None.
Proof.
  induction s as [|x s IH]; intros b H; cbn [search_from mtch].
  - destruct (Nat.eqb_spec (length (@nil char16)) (length input)) as [E|E];
      [cbn in *; lia | reflexivity].
  - destruct (Nat.eqb_spec (length (x :: s)) (length input)) as [E|E];
      [cbn in *; lia |].
    apply IH. cbn in H. lia.
Qed.

Lemma regex_exec_Bol (r : regex) (s : jsstring) :
  regex_exec (Seq Bol r) s =
  match mtch s r s [] final_k with
  | Some (s', c) =>
      Some {| m_before := []; m_after := s'; m_caps := c |}
  | None => None
  end.
Proof.
  unfold regex_exec.
  destruct s as [|x s]; cbn [search_from mtch]; rewrite Nat.eqb_refl;
    fold final_k.
  - destruct (mtch [] r [] [] final_k) as [[s' c]|]; reflexivity.
  - destruct (mtch (x :: s) r (x :: s) [] final_k) as [[s' c]|];
      [reflexivity|].
    apply search_from_Bol. cbn. lia.
Qed.

(** Greedy star over a character class. *)
Lemma mtch_star_chr_nil (A : Type) (input : jsstring) (p : char16 -> bool)
      (c : captures) (k : jsstring -> captures -> option A) :
  mtch input (Star (Chr p)) [] c k = k [] c.
Proof. reflexivity. Qed.

Lemma mtch_star_chr_cons (A : Type) (input : jsstring) (p : char16 -> bool)
      (x : char16) (s : jsstring) (c : captures)
      (k : jsstring -> captures -> option A) :
  mtch input (Star (Chr p)) (x :: s) c k =
  if p x then
    match mtch input (Star (Chr p)) s c k with
    | Some v => Some v
    | None => k (x :: s) c
    end
  else k (x :: s) c.
Proof.
  cbn [mtch star_loop length]. destruct (p x); [|reflexivity].
  replace (length s <? S (length s)) with true
    by (symmetry; apply Nat.ltb_lt; lia).
  reflexivity.
Qed.

(** ** Server Directory Scanner *)

Lemma after_last_hyphen_Some (s r : jsstring) :
  after_last_hyphen s = Some r -> ~ In HYPHEN r.
Proof.
  revert r. induction s as [|x s IH]; intros r H; cbn in H; [discriminate|].
  destruct (after_last_hyphen s) as [r'|] eqn:E.
  - inversion H; subst. apply IH. reflexivity.
  - destruct (N.eqb x HYPHEN); [|discriminate]. inversion H; subst.
    clear - E. induction r as [|y r IH]; [intros []|].
    cbn in E. destruct (after_last_hyphen r); [discriminate|].
    destruct (N.eqb_spec y HYPHEN) as [Ey|Ey]; [discriminate|].
    intros [Hy|Hy]; [congruence | exact (IH eq_refl Hy)].
Qed.

Lemma after_last_hyphen_None (s : jsstring) :
  after_last_hyphen s = None -> ~ In HYPHEN s.
Proof.
  induction s as [|y r IH]; intros E; [intros []|].
  cbn in E. destruct (after_last_hyphen r); [discriminate|].
  destruct (N.eqb_spec y HYPHEN) as [Ey|Ey]; [discriminate|].
  intros [Hy|Hy]; [congruence | exact (IH eq_refl Hy)].
Qed.

Lemma star_dot_hyphen (input : jsstring) (c : captures) :
  forall s,
    no_line_terminator s ->
    mtch input (Star dot) s c
         (fun s' c' => mtch input (lit "-") s' c' final_k) =
    match after_last_hyphen s with
    | Some r => Some (r, c)
    | None => None
    end.
Proof.
  unfold dot. induction s as [|x s IH]; intros H.
  - reflexivity.
  - inversion H as [|? ? Hx Hs]; subst.
    rewrite mtch_star_chr_cons, Hx. cbn [negb].
    rewrite (IH Hs). cbn [after_last_hyphen].
    destruct (after_last_hyphen s) as [r|]; [reflexivity|].
    cbn [mtch lit]. unfold chr. rewrite N.eqb_sym.
    change (N_of_ascii "-") with HYPHEN.
    destruct (N.eqb x HYPHEN); reflexivity.
Qed.

(** On a name without line terminator the second replacement of line 26
    cuts everything up to and including the last hyphen. *)
Lemma remove_upto_hyphen (s : jsstring) :
  no_line_terminator s ->
  regex_remove UPTO_HYPHEN_RE s =
  match after_last_hyphen s with
  | Some r => r
  | None => s
  end.
Proof.
  intros H. unfold regex_remove, UPTO_HYPHEN_RE. cbn [Seqs].
  rewrite regex_exec_Bol.
  change (mtch s (Seq (Star dot) (lit "-")) s [] final_k)
    with (mtch s (Star dot) s []
               (fun s' c' => mtch s (lit "-") s' c' final_k)).
  rewrite (star_dot_hyphen s [] H).
  destruct (after_last_hyphen s); reflexivity.
Qed.

Lemma derive_server_name_no_hyphen (file : jsstring) :
  no_line_terminator file -> ~ In HYPHEN (derive_server_name file).
Proof.
  intros H. unfold derive_server_name.
  rewrite remove_upto_hyphen by (apply regex_remove_Forall; exact H).
  destruct (after_last_hyphen (regex_remove EXT_RE file)) eqn:E.
  - eapply after_last_hyphen_Some; eassumption.
  - apply after_last_hyphen_None; assumption.
Qed.

(** The scanner pushes one descriptor per log file of the listing, in
    listing order. *)
Lemma scan_files_spec (w : World) :
  forall files acc servers,
    scan_files w files acc = inr servers ->
    servers = acc ++ map (describe w) (filter is_log_file files).
Proof.
  induction files as [|f files IH]; intros acc servers H; cbn in H.
  - inversion H. cbn. rewrite app_nil_r. reflexivity.
  - cbn [filter]. destruct (is_log_file f).
    + destruct (stat_mtime w (path_join DEFAULT_LOG_DIR f)) as [t|] eqn:Et;
        [|discriminate].
      destruct (file_stats w (path_join DEFAULT_LOG_DIR f)) as [tot rec] eqn:Es.
      apply IH in H. rewrite H, <- app_assoc. cbn [map app].
      unfold describe. rewrite Et, Es. reflexivity.
    + apply IH in H. exact H.
Qed.

Lemma getAvailableServers_spec (w : World) (servers : list ServerInfo.t) :
  getAvailableServers w = inr servers ->
  (existsSync w DEFAULT_LOG_DIR = false /\ servers = []) \/
  (exists files,
      existsSync w DEFAULT_LOG_DIR = true /\
      readdirSync w DEFAULT_LOG_DIR = Some files /\
      servers = map (describe w) (filter is_log_file files)).
Proof.
  unfold getAvailableServers. intros H.
  destruct (existsSync w DEFAULT_LOG_DIR); cbn in H.
  - right. destruct (readdirSync w DEFAULT_LOG_DIR) as [files|];
      [|discriminate].
    exists files. apply scan_files_spec in H. auto.
  - left. inversion H. auto.
Qed.

Lemma replace_all_char_absent (c d : char16) (s : jsstring) :
  ~ In c s -> replace_all_char c d s = s.
Proof.
  induction s as [|x s IH]; intros H; [reflexivity|].
  cbn. destruct (N.eqb_spec x c) as [E|E].
  - exfalso. apply H. left. exact E.
  - f_equal. apply IH. intros Hin. apply H. right. exact Hin.
Qed.

(** C10 (amended).  When no log file name of the listing contains a line
    terminator, no derived server name contains a hyphen, and the
    hyphen-to-underscore comparison of the resolution agrees with the
    exact comparison on every descriptor of the scanner. *)
Theorem scanner_names_no_hyphen (w : World) (servers : list ServerInfo.t) :
  getAvailableServers w = inr servers ->
  (forall files file,
      readdirSync w DEFAULT_LOG_DIR = Some files ->
      In file files -> is_log_file file = true ->
      no_line_terminator file) ->
  forall s, In s servers ->
    ~ In HYPHEN (ServerInfo.server_name s) /\
    forall serverName,
      str_eqb (replace_all_char HYPHEN UNDERSCORE (ServerInfo.server_name s))
              serverName
      = str_eqb (ServerInfo.server_name s) serverName.
Proof.
  intros H Hfiles s Hs.
  assert (Hno : ~ In HYPHEN (ServerInfo.server_name s)).
  { apply getAvailableServers_spec in H.
    destruct H as [[_ ->] | (files & _ & Hdir & ->)]; [destruct Hs|].
    apply in_map_iff in Hs. destruct Hs as (file & <- & Hin).
    apply filter_In in Hin. destruct Hin as [Hin Hlog].
    cbn. apply derive_server_name_no_hyphen. eapply Hfiles; eassumption. }
  split; [exact Hno|].
  intros serverName. rewrite replace_all_char_absent by exact Hno.
  reflexivity.
Qed.

(** *** The timestamp literal of the scanner *)

Lemma mtch_ChrSeq (A : Type) (input : jsstring)
      (shape : list (char16 -> bool)) (r : regex) :
  forall s c (k : jsstring -> captures -> option A),
    mtch input (ChrSeq shape r) s c k =
    match eat shape s with
    | Some s' => mtch input r s' c k
    | None => None
    end.
Proof.
  induction shape as [|p shape IH]; intros s c k; [reflexivity|].
  cbn [ChrSeq eat]. 
  change (mtch input (Seq (Chr p) (ChrSeq shape r)) s c k)
    with (mtch input (Chr p) s c
               (fun s' c' => mtch input (ChrSeq shape r) s' c' k)).
  cbn [mtch]. destruct s as [|x s]; [reflexivity|].
  destruct (p x); [apply IH | reflexivity].
Qed.

Lemma eat_has_shape (shape : list (char16 -> bool)) :
  forall s,
    eat shape s =
    if has_shape shape s then Some (skipn (length shape) s) else None.
Proof.
  induction shape as [|p shape IH]; intros s; [reflexivity|].
  destruct s as [|x s]; [reflexivity|].
  cbn [eat has_shape length skipn]. destruct (p x); [apply IH | reflexivity].
Qed.

Lemma has_shape_length (shape : list (char16 -> bool)) :
  forall s, has_shape shape s = true -> length shape <= length s.
Proof.
  induction shape as [|p shape IH]; intros s H; [cbn; lia|].
  destruct s as [|x s]; [discriminate|].
  cbn in H. apply andb_true_iff in H. destruct H as [_ H].
  apply IH in H. cbn. lia.
Qed.

Lemma firstn_prefix_length (l a b : jsstring) :
  l = a ++ b -> firstn (length l - length b) l = a.
Proof.
  intros ->. rewrite length_app. replace (length a + length b - length b) with (length a) by lia.
  rewrite firstn_app, Nat.sub_diag, firstn_all. cbn. apply app_nil_r.
Qed.

Lemma mtch_Seq (A : Type) (input : jsstring) (a b : regex) (s : jsstring)
      (c : captures) (k : jsstring -> captures -> option A) :
  mtch input (Seq a b) s c k =
  mtch input a s c (fun s' c' => mtch input b s' c' k).
Proof. reflexivity. Qed.

Lemma mtch_Opt (A : Type) (input : jsstring) (a : regex) (s : jsstring)
      (c : captures) (k : jsstring -> captures -> option A) :
  mtch input (Opt a) s c k =
  match mtch input a s c k with
  | Some v => Some v
  | None => k s c
  end.
Proof. reflexivity. Qed.

Lemma mtch_Eps (A : Type) (input : jsstring) (s : jsstring)
      (c : captures) (k : jsstring -> captures -> option A) :
  mtch input Eps s c k = k s c.
Proof. reflexivity. Qed.

(** An optional character before a continuation that cannot fail. *)
Lemma mtch_Opt_Chr_total (A : Type) (input : jsstring) (p : char16 -> bool)
      (s : jsstring) (c : captures) (f : jsstring -> captures -> A) :
  mtch input (Opt (Chr p)) s c (fun s' c' => Some (f s' c')) =
  Some (f (skipn (length (if has_shape [p] s then firstn 1 s else [])) s) c).
Proof.
  cbn [mtch Opt]. destruct s as [|x s]; [reflexivity|].
  cbn [has_shape]. rewrite andb_true_r. destruct (p x); reflexivity.
Qed.

Lemma optional_prefix_split (p : list (char16 -> bool)) (n : nat)
      (s : jsstring) :
  let part := if has_shape p s then firstn n s else [] in
  s = part ++ skipn (length part) s.
Proof.
  cbv zeta. destruct (has_shape p s); [|reflexivity].
  rewrite <- (firstn_skipn n s) at 1. f_equal.
  rewrite length_firstn.
  destruct (Nat.le_ge_cases n (length s)) as [H|H].
  - rewrite Nat.min_l by exact H. reflexivity.
  - rewrite Nat.min_r by exact H. rewrite !skipn_all2; [reflexivity|lia|lia].
Qed.

(** The literal of line 43 captures the bare ISO timestamp the line
    starts with, and fails when there is none. *)
Lemma scan_ts_capture (line : jsstring) :
  match regex_exec SCAN_TS_RE line with
  | Some m => Some (group 1 m)
  | None => None
  end = bare_iso_prefix line.
Proof.
  unfold SCAN_TS_RE. cbn [Seqs]. rewrite regex_exec_Bol.
  change (mtch line (Group 1 _) line [] final_k)
    with (mtch line
            (ChrSeq DATE_TIME_SHAPE
               (Seq (Opt (ChrSeq MILLIS_SHAPE Eps)) (Opt (lit "Z"))))
            line []
            (fun s' c' =>
               final_k s' ((1, firstn (length line - length s') line) :: c'))).
  unfold final_k, lit.
  rewrite mtch_ChrSeq, eat_has_shape. unfold bare_iso_prefix.
  destruct (has_shape DATE_TIME_SHAPE line) eqn:Hd; [|reflexivity].
  change (length DATE_TIME_SHAPE) with 19.
  set (tail := skipn 19 line).
  assert (Hline : line = firstn 19 line ++ tail)
    by (symmetry; apply firstn_skipn).
  rewrite mtch_Seq, mtch_Opt, mtch_ChrSeq, eat_has_shape.
  pose proof (optional_prefix_split MILLIS_SHAPE 4 tail) as Hm.
  cbv zeta in Hm.
  set (millis := if has_shape MILLIS_SHAPE tail then firstn 4 tail else [])
    in *.
  assert (Hk : forall s c,
             mtch line (Opt (Chr (chr "Z"))) s c
                  (fun s' c' =>
                     Some (s', (1, firstn (length line - length s') line) :: c'))
             = Some (skipn (length (if has_shape [chr "Z"] s
                                    then firstn 1 s else [])) s,
                     (1, firstn (length line -
                                 length (skipn (length (if has_shape [chr "Z"] s
                                    then firstn 1 s else [])) s)) line) :: c)).
  { intros s c.
    exact (mtch_Opt_Chr_total line (chr "Z") s c
             (fun s' c' =>
                (s', (1, firstn (length line - length s') line) :: c'))). }
  assert (Hgoal :
            mtch line (Opt (Chr (chr "Z"))) (skipn (length millis) tail) []
                 (fun s' c' =>
                    Some (s', (1, firstn (length line - length s') line) :: c'))
            = Some (skipn (length (if has_shape [chr "Z"]
                                        (skipn (length millis) tail)
                                   then firstn 1 (skipn (length millis) tail)
                                   else []))
                          (skipn (length millis) tail),
                    [(1, firstn 19 line ++ millis ++
                         (if has_shape [chr "Z"] (skipn (length millis) tail)
                          then firstn 1 (skipn (length millis) tail)
                          else []))])).
  { rewrite Hk. f_equal. f_equal. f_equal. f_equal.
    pose proof (optional_prefix_split [chr "Z"] 1
                  (skipn (length millis) tail)) as Hzn.
    cbv zeta in Hzn.
    set (zone := if has_shape [chr "Z"] (skipn (length millis) tail)
                 then firstn 1 (skipn (length millis) tail) else []) in *.
    set (rest := skipn (length zone) (skipn (length millis) tail)) in *.
    assert (E : line = (firstn 19 line ++ millis ++ zone) ++ rest).
    { rewrite <- !app_assoc, <- Hzn, <- Hm. exact Hline. }
    apply firstn_prefix_length. exact E. }
  unfold millis in Hgoal |- *.
  destruct (has_shape MILLIS_SHAPE tail) eqn:Es.
  - change (length MILLIS_SHAPE) with 4.
    rewrite mtch_Eps.
    assert (H4 : length (firstn 4 tail) = 4).
    { apply has_shape_length in Es. rewrite length_firstn.
      change (length MILLIS_SHAPE) with 4 in Es. lia. }
    rewrite H4 in Hgoal |- *.
    match goal with
    | |- context [match ?X with Some v => Some v | None => _ end] =>
        replace X with
          (Some (skipn (length (if has_shape [chr "Z"] (skipn 4 tail)
                                then firstn 1 (skipn 4 tail) else []))
                       (skipn 4 tail),
                 [(1, firstn 19 line ++ firstn 4 tail ++
                      (if has_shape [chr "Z"] (skipn 4 tail)
                       then firstn 1 (skipn 4 tail) else []))]))
          by (symmetry; exact Hgoal)
    end.
    reflexivity.
  - cbn [length skipn] in Hgoal |- *.
    match goal with
    | |- match match ?X with _ => _ end with _ => _ end = _ =>
        replace X with
          (Some (skipn (length (if has_shape [chr "Z"] tail
                                then firstn 1 tail else [])) tail,
                 [(1, firstn 19 line ++ [] ++
                      (if has_shape [chr "Z"] tail
                       then firstn 1 tail else []))]))
          by (symmetry; exact Hgoal)
    end.
    reflexivity.
Qed.

(** *** Error counts *)

Lemma count_line_spec (scan_time : Z) (st : nat * nat) (line : jsstring) :
  count_line (scan_time - 24 * 60 * 60 * 1000) st line =
  (fst st + (if has_error_word line then 1 else 0),
   snd st + (if recent_error_line scan_time line then 1 else 0)).
Proof.
  destruct st as [t r]. unfold count_line, recent_error_line.
  fold (has_error_word line). cbn [fst snd].
  destruct (has_error_word line); cbn [andb];
    [|f_equal; lia].
  rewrite <- scan_ts_capture.
  destruct (regex_exec SCAN_TS_RE line) as [m|];
    [|f_equal; lia].
  unfold num_gtb, later_than_24h_before.
  change (24 * 60 * 60 * 1000)%Z with 86400000%Z.
  destruct (Date_parse (group 1 m)) as [x|]; [|f_equal; lia].
  destruct (scan_time - 86400000 <? x)%Z; f_equal; lia.
Qed.

Lemma fold_count_lines (scan_time : Z) (lines : list jsstring) :
  forall st,
    fold_left (count_line (scan_time - 24 * 60 * 60 * 1000)) lines st =
    (fst st + length (filter has_error_word lines),
     snd st + length (filter (recent_error_line scan_time) lines)).
Proof.
  induction lines as [|l lines IH]; intros st; cbn [fold_left filter].
  - destruct st. cbn. f_equal; lia.
  - rewrite IH, count_line_spec. cbn [fst snd].
    destruct (has_error_word l), (recent_error_line scan_time l);
      cbn [length]; f_equal; lia.
Qed.

Lemma file_stats_spec (w : World) (filePath : jsstring) :
  file_stats w filePath =
  (length (filter has_error_word (physical_lines w filePath)),
   length (filter (recent_error_line (Date_now w filePath))
             (physical_lines w filePath))).
Proof.
  unfold file_stats, physical_lines.
  destruct (readFileSync w filePath) as [content|]; [|reflexivity].
  rewrite fold_count_lines. reflexivity.
Qed.

(** The lower bound is the whole test: a line is recent when its time is
    within the last 24 hours of the scan, or after the scan. *)
Lemma recent_error_line_cases (scan_time : Z) (line : jsstring) :
  recent_error_line scan_time line =
  error_line_within_last_24h scan_time line ||
  error_line_after_scan scan_time line.
Proof.
  unfold recent_error_line, error_line_within_last_24h,
    error_line_after_scan.
  destruct (has_error_word line); [|reflexivity]. cbn [andb].
  destruct (bare_iso_prefix line) as [ts|]; [|reflexivity].
  unfold later_than_24h_before, within_last_24h, num_gtb.
  destruct (Date_parse ts) as [t|]; [|reflexivity].
  destruct (Z.ltb_spec (scan_time - 86400000) t),
           (Z.leb_spec t scan_time), (Z.ltb_spec scan_time t);
    cbn [andb orb]; try reflexivity; lia.
Qed.

Lemma filter_ext_on (A : Type) (f g : A -> bool) (l : list A) :
  (forall x, In x l -> f x = g x) -> filter f l = filter g l.
Proof.
  induction l as [|x l IH]; intros H; [reflexivity|].
  cbn [filter]. rewrite (H x (or_introl eq_refl)).
  rewrite IH; [reflexivity|].
  intros y Hy. apply H. right. exact Hy.
Qed.

(** C8 (amended).  Every descriptor of the scanner belongs to a log file
    of the listing; its [total_errors] is the number of physical lines of
    that file that contain [ERROR] or [error], and its
    [recent_error_count] is the number of those lines that start with a
    bare ISO timestamp whose time is later than 24 hours before the scan
    of the file: within the last 24 hours of the scan, or after the
    scan.  When no error line of the file is dated after the scan, it is
    the number of those within the last 24 hours. *)
Theorem scanner_counts (w : World) (servers : list ServerInfo.t) :
  getAvailableServers w = inr servers ->
  forall s, In s servers ->
    exists file files,
      readdirSync w DEFAULT_LOG_DIR = Some files /\
      In file files /\ is_log_file file = true /\
      ServerInfo.log_file_path s = path_join DEFAULT_LOG_DIR file /\
      ServerInfo.total_errors s =
        length (filter has_error_word
                  (physical_lines w (ServerInfo.log_file_path s))) /\
      ServerInfo.recent_error_count s =
        length (filter
                  (recent_error_line
                     (Date_now w (ServerInfo.log_file_path s)))
                  (physical_lines w (ServerInfo.log_file_path s))) /\
      (forall line,
          recent_error_line (Date_now w (ServerInfo.log_file_path s)) line
          = true <->
          has_error_word line = true /\
          exists ts t,
            bare_iso_prefix line = Some ts /\ Date_parse ts = Some t /\
            (Date_now w (ServerInfo.log_file_path s) - 86400000 < t)%Z) /\
      ((forall line,
           In line (physical_lines w (ServerInfo.log_file_path s)) ->
           error_line_after_scan
             (Date_now w (ServerInfo.log_file_path s)) line = false) ->
       ServerInfo.recent_error_count s =
         length (filter
                   (error_line_within_last_24h
                      (Date_now w (ServerInfo.log_file_path s)))
                   (physical_lines w (ServerInfo.log_file_path s)))).
Proof.
  intros H s Hs. apply getAvailableServers_spec in H.
  destruct H as [[_ ->] | (files & _ & Hdir & ->)]; [destruct Hs|].
  apply in_map_iff in Hs. destruct Hs as (file & <- & Hin).
  apply filter_In in Hin. destruct Hin as [Hin Hlog].
  exists file, files. unfold describe; cbn.
  rewrite file_stats_spec. cbn.
  do 6 (split; [solve [auto]|]). split.
  - intros line. unfold recent_error_line, later_than_24h_before.
    rewrite andb_true_iff. split.
    + intros [Hw Ht]. split; [exact Hw|].
      destruct (bare_iso_prefix line) as [ts|]; [|discriminate].
      destruct (Date_parse ts) as [t|] eqn:Et; [|discriminate].
      exists ts, t. apply Z.ltb_lt in Ht. auto.
    + intros [Hw (ts & t & -> & Ht & Hlt)]. split; [exact Hw|].
      rewrite Ht. apply Z.ltb_lt. exact Hlt.
  - intros Hnone. f_equal. apply filter_ext_on. intros line Hline.
    rewrite recent_error_line_cases, (Hnone line Hline).
    apply orb_false_r.
Qed.

(** ** Server-name resolution *)

Lemma find_first (A : Type) (f : A -> bool) (before after : list A) (x : A) :
  (forall y, In y before -> f y = false) ->
  f x = true ->
  find f (before ++ x :: after) = Some x.
Proof.
  induction before as [|y before IH]; intros Hb Hx; cbn.
  - rewrite Hx. reflexivity.
  - rewrite (Hb y (or_introl eq_refl)). apply IH; [|exact Hx].
    intros z Hz. apply Hb. right. exact Hz.
Qed.

(** [findLogPath] is [resolve] on the descriptors of the scanner. *)
Lemma findLogPath_resolve (w : World) (serverName : jsstring)
      (servers : list ServerInfo.t) :
  getAvailableServers w = inr servers ->
  findLogPath w serverName = inr (resolve servers serverName).
Proof. intros H. unfold findLogPath. rewrite H. reflexivity. Qed.

(** What the comparison of line 143 is written for: were a descriptor
    named [slack-mcp] in the list, with no earlier descriptor matching,
    [slack_mcp] would resolve to its file, through the
    hyphen-to-underscore comparison and not through the exact one. *)
Lemma resolve_hyphenated_descriptor (before after : list ServerInfo.t)
      (s : ServerInfo.t) :
  ServerInfo.server_name s = js "slack-mcp" ->
  (forall s', In s' before -> name_matches (js "slack_mcp") s' = false) ->
  resolve (before ++ s :: after) (js "slack_mcp")
    = Some (ServerInfo.log_file_path s) /\
  str_eqb (ServerInfo.server_name s) (js "slack_mcp") = false /\
  str_eqb (replace_all_char HYPHEN UNDERSCORE (ServerInfo.server_name s))
          (js "slack_mcp") = true.
Proof.
  intros Hname Hbefore.
  assert (Hexact : str_eqb (ServerInfo.server_name s) (js "slack_mcp") = false)
    by (rewrite Hname; reflexivity).
  assert (Hnorm : str_eqb (replace_all_char HYPHEN UNDERSCORE
                             (ServerInfo.server_name s))
                          (js "slack_mcp") = true)
    by (rewrite Hname; reflexivity).
  split; [|split; assumption].
  unfold resolve. rewrite find_first; [reflexivity | exact Hbefore |].
  unfold name_matches. rewrite Hexact, Hnorm. reflexivity.
Qed.

(** *** Hyphens in derived names *)







(** ** Record Extractor *)

Lemma header_exec_empty : regex_exec HEADER_RE [] = None.
Proof. reflexivity. Qed.

Lemma is_header_empty : is_header [] = false.
Proof. reflexivity. Qed.

Lemma is_header_false (line : jsstring) :
  is_header line = false -> regex_exec HEADER_RE line = None.
Proof.
  unfold is_header, regex_test.
  destruct (regex_exec HEADER_RE line); [discriminate | reflexivity].
Qed.

(** The inner loop gathers the non-empty lines of the body and stops at
    the next header line. *)
Lemma collect_chunks_spec :
  forall rest messageChunks,
    collect_chunks rest messageChunks =
    (messageChunks ++ filter nonempty (body_lines rest), drop_body rest).
Proof.
  induction rest as [|next rest IH]; intros chunks; cbn [collect_chunks].
  - cbn. rewrite app_nil_r. reflexivity.
  - cbn [body_lines drop_body]. destruct next as [|x next].
    + cbn [is_empty]. rewrite is_header_empty. cbn [filter nonempty is_empty negb].
      apply IH.
    + cbn [is_empty]. fold (is_header (x :: next)).
      destruct (is_header (x :: next)).
      * cbn. rewrite app_nil_r. reflexivity.
      * rewrite IH. cbn [filter nonempty is_empty negb].
        rewrite <- app_assoc. reflexivity.
Qed.

Lemma drop_body_length (rest : list jsstring) :
  length (drop_body rest) <= length rest.
Proof.
  induction rest as [|l rest IH]; cbn; [lia|].
  destruct (is_header l); cbn; lia.
Qed.

(** The lines of a body hold no header. *)
Lemma error_headers_drop_body (rest : list jsstring) :
  error_headers (drop_body rest) = error_headers rest.
Proof.
  induction rest as [|l rest IH]; [reflexivity|].
  cbn [drop_body]. destruct (is_header l) eqn:E; [reflexivity|].
  cbn [error_headers]. rewrite (is_header_false _ E). exact IH.
Qed.

Lemma chunks_message (first : jsstring) (body : list jsstring) :
  trim (join [LF] ([first] ++ filter nonempty body)) =
  joined_message first body.
Proof.
  unfold joined_message. cbn [filter app]. destruct first as [|x first].
  - cbn [nonempty is_empty negb]. apply trim_join_drop_empty.
  - reflexivity.
Qed.

Section ExtractProps.
Variable serverName : jsstring.
Variable limit : Z.
Variable toolName : option jsstring.
Variable hours : option Z.
Variable cutoffTime : Z.

(** The outer loop appends the candidates of the lines left, until the
    list is [limit] long and at least one has been appended; fuel as long
    as the lines left is enough. *)
Lemma scan_log_spec :
  forall fuel rest errors,
    length rest <= fuel ->
    scan_log serverName limit toolName hours cutoffTime fuel rest errors =
    errors ++
    firstn (room limit errors)
      (candidates serverName toolName hours cutoffTime rest).
Proof.
  induction fuel as [|fuel IH]; intros rest errors Hfuel.
  - destruct rest; [|cbn in Hfuel; lia]. cbn.
    rewrite firstn_nil, app_nil_r. reflexivity.
  - destruct rest as [|line rest].
    + cbn. rewrite firstn_nil, app_nil_r. reflexivity.
    + cbn in Hfuel. assert (Hrest : length rest <= fuel) by lia.
      cbn [scan_log]. unfold candidates. cbn [error_headers].
      destruct line as [|x line].
      * cbn [is_empty]. rewrite header_exec_empty. apply IH. exact Hrest.
      * cbn [is_empty].
        destruct (regex_exec HEADER_RE (x :: line)) as [m|] eqn:Em;
          [|apply IH; exact Hrest].
        unfold is_error_header.
        destruct (regex_test ERROR_RE (group 3 m)) eqn:Eerr; cbn [negb];
          [|apply IH; exact Hrest].
        cbn [map filter]. unfold passes_filters at 1.
        cbn [entry_of LogEntry.timestamp LogEntry.message fst snd].
        destruct (truthy_num hours && num_ltb (Date_parse (group 1 m)) cutoffTime)
          eqn:Eh; cbn [negb andb]; [apply IH; exact Hrest|].
        rewrite collect_chunks_spec, chunks_message.
        pose proof (drop_body_length rest) as Hdrop.
        destruct (tool_filter_rejects toolName
                    (joined_message (group 4 m) (body_lines rest))) eqn:Et;
          cbn [negb].
        -- rewrite IH by lia. unfold candidates.
           rewrite error_headers_drop_body. reflexivity.
        -- set (e := {| LogEntry.timestamp := group 1 m |}).
           change (entry_of serverName (m, body_lines rest)) with e.
           rewrite length_app. cbn [length].
           destruct (Z.leb_spec limit (Z.of_nat (length errors + 1))) as [Hl|Hl].
           ++ unfold room.
              replace (Z.to_nat (Z.max 1 (limit - Z.of_nat (length errors))))
                with 1 by lia.
              cbn [firstn]. reflexivity.
           ++ rewrite IH by lia. unfold candidates.
              rewrite error_headers_drop_body. unfold room.
              rewrite length_app. cbn [length].
              replace (Z.to_nat (Z.max 1 (limit - Z.of_nat (length errors))))
                with (S (Z.to_nat
                          (Z.max 1 (limit - Z.of_nat (length errors + 1)))))
                by lia.
              cbn [firstn]. rewrite <- app_assoc. reflexivity.
Qed.
End ExtractProps.

Lemma getErrorsFromTextLog_spec (w : World) (logPath serverName : jsstring)
      (limit : Z) (toolName : option jsstring) (hours : option Z)
      (content : jsstring) :
  readFileSync w logPath = Some content ->
  getErrorsFromTextLog w logPath serverName limit toolName hours =
  inr (extracted w logPath serverName limit toolName hours
         (split_lines content)).
Proof.
  intros H. unfold getErrorsFromTextLog, extracted. rewrite H.
  fold (cutoff_of w logPath hours).
  rewrite scan_log_spec by lia. unfold room, candidates. cbn [app length].
  change (Z.of_nat 0) with 0%Z. rewrite Z.sub_0_r. reflexivity.
Qed.

(** Where an error header of the list sits in the file. *)
Lemma error_headers_In (lines : list jsstring) (m : MatchResult)
      (body : list jsstring) :
  In (m, body) (error_headers lines) ->
  exists before line after,
    lines = before ++ line :: after /\
    regex_exec HEADER_RE line = Some m /\
    is_error_header m = true /\
    body = body_lines after.
Proof.
  induction lines as [|l lines IH]; intros H; [destruct H|].
  cbn [error_headers] in H.
  assert (Hrec : In (m, body) (error_headers lines) ->
                 exists before line after,
                   l :: lines = before ++ line :: after /\
                   regex_exec HEADER_RE line = Some m /\
                   is_error_header m = true /\ body = body_lines after).
  { intros Hin. destruct (IH Hin) as (b & ln & a & -> & H1 & H2 & H3).
    exists (l :: b), ln, a. auto. }
  destruct (regex_exec HEADER_RE l) as [m'|] eqn:E; [|auto].
  destruct (is_error_header m') eqn:Ee; [|auto].
  destruct H as [H|H]; [|auto].
  inversion H; subst. exists [], l, lines. auto.
Qed.

Lemma In_firstn (A : Type) (n : nat) :
  forall (l : list A) (x : A), In x (firstn n l) -> In x l.
Proof.
  induction n as [|n IH]; intros [|y l] x H; cbn in H; try contradiction.
  destruct H as [H|H]; [left; exact H | right; apply IH; exact H].
Qed.

Lemma extracted_In (w : World) (logPath serverName : jsstring) (limit : Z)
      (toolName : option jsstring) (hours : option Z)
      (lines : list jsstring) (e : LogEntry.t) :
  In e (extracted w logPath serverName limit toolName hours lines) ->
  exists h,
    In h (error_headers lines) /\ e = entry_of serverName h /\
    passes_filters toolName hours (cutoff_of w logPath hours) e = true.
Proof.
  unfold extracted. intros H. apply in_rev in H.
  apply In_firstn in H. apply filter_In in H. destruct H as [H Hp].
  apply in_map_iff in H. destruct H as (h & <- & Hh). eauto.
Qed.

(** C1.  The extractor returns, newest first and up to the cap, the
    entries of the error headers that pass the filters; the message of
    each is the rest of its header line followed by the physical lines
    up to the next header line, empty lines removed, joined with a
    newline and trimmed; and when the cap is not reached every error
    header that passes the filters has its entry. *)
Theorem extractor_messages (w : World) (logPath serverName : jsstring)
        (limit : Z) (toolName : option jsstring) (hours : option Z)
        (content : jsstring) :
  readFileSync w logPath = Some content ->
  getErrorsFromTextLog w logPath serverName limit toolName hours =
  inr (extracted w logPath serverName limit toolName hours
         (split_lines content)) /\
  (forall e,
    In e (extracted w logPath serverName limit toolName hours
            (split_lines content)) ->
    exists before line after m,
      split_lines content = before ++ line :: after /\
      regex_exec HEADER_RE line = Some m /\
      is_error_header m = true /\
      LogEntry.timestamp e = group 1 m /\
      LogEntry.message e =
        trim (join [LF]
                (filter nonempty (group 4 m :: body_lines after)))) /\
  (forall h,
      In h (error_headers (split_lines content)) ->
      passes_filters toolName hours (cutoff_of w logPath hours)
        (entry_of serverName h) = true ->
      (Z.of_nat (length (error_headers (split_lines content)))
       <= Z.max 1 limit)%Z ->
      In (entry_of serverName h)
         (extracted w logPath serverName limit toolName hours
            (split_lines content))).
Proof.
  intros H. split; [apply getErrorsFromTextLog_spec; exact H|]. split.
  - intros e He. apply extracted_In in He.
    destruct He as ([m body] & Hh & -> & _).
    apply error_headers_In in Hh.
    destruct Hh as (before & line & after & Hl & Hm & He & ->).
    exists before, line, after, m. auto.
  - intros h Hh Hp Hcap. unfold extracted. apply -> in_rev.
    rewrite firstn_all2.
    + apply filter_In. split; [apply in_map; exact Hh | exact Hp].
    + pose proof (filter_length_le
                    (passes_filters toolName hours
                       (cutoff_of w logPath hours))
                    (map (entry_of serverName)
                       (error_headers (split_lines content)))) as Hf.
      rewrite length_map in Hf. lia.
Qed.

(** *** Query Engine *)

Lemma resolve_nonempty (w : World) (servers : list ServerInfo.t)
      (serverName p : jsstring) :
  getAvailableServers w = inr servers ->
  resolve servers serverName = Some p -> p <> [].
Proof using path_join_nonempty.
  intros H Hr. unfold resolve in Hr.
  destruct (find (name_matches serverName) servers) as [s|] eqn:E;
    [|discriminate].
  inversion Hr; subst. apply find_some in E. destruct E as [Hin _].
  apply getAvailableServers_spec in H.
  destruct H as [[_ ->] | (files & _ & _ & ->)]; [destruct Hin|].
  apply in_map_iff in Hin. destruct Hin as (file & <- & _).
  cbn. apply path_join_nonempty.
Qed.

(** The three outcomes of [getRecentErrors] once the scan has
    succeeded. *)
Lemma getRecentErrors_cases (w : World) (serverName : jsstring) (limit : Z)
      (toolName : option jsstring) (hours : option Z)
      (servers : list ServerInfo.t) :
  getAvailableServers w = inr servers ->
  getRecentErrors w serverName limit toolName hours =
  match resolve servers serverName with
  | None => inl (JsError (not_found_message serverName servers))
  | Some p =>
      match readFileSync w p with
      | None => inl (FsError p)
      | Some content =>
          inr (extracted w p serverName limit toolName hours
                 (split_lines content))
      end
  end.
Proof using path_join_nonempty.
  intros H. unfold getRecentErrors, findLogPath. rewrite H. cbn [bind ret].
  destruct (resolve servers serverName) as [p|] eqn:Er.
  - pose proof (resolve_nonempty _ _ H Er) as Hp.
    destruct p as [|c p]; [congruence|].
    destruct (readFileSync w (c :: p)) as [content|] eqn:Ec.
    + apply getErrorsFromTextLog_spec. exact Ec.
    + unfold getErrorsFromTextLog. rewrite Ec. reflexivity.
  - reflexivity.
Qed.

Lemma getRecentErrors_scan_failure (w : World) (serverName : jsstring)
      (limit : Z) (toolName : option jsstring) (hours : option Z)
      (e : exn) :
  getAvailableServers w = inl e ->
  getRecentErrors w serverName limit toolName hours = inl e.
Proof.
  intros H. unfold getRecentErrors, findLogPath. rewrite H. reflexivity.
Qed.

(** *** Order of the result *)

Lemma str_leb_trans (a b c : jsstring) :
  str_leb a b = true -> str_leb b c = true -> str_leb a c = true.
Proof.
  revert b c. induction a as [|x a IH]; intros [|y b] [|z c]; cbn;
    try reflexivity; try discriminate.
  destruct (N.ltb_spec x y), (N.eqb_spec x y), (N.ltb_spec y z),
           (N.eqb_spec y z), (N.ltb_spec x z), (N.eqb_spec x z);
    intros Hab Hbc; try reflexivity; try discriminate; try lia.
  eapply IH; eassumption.
Qed.

Lemma str_le_transitive : Relations_1.Transitive str_le.
Proof. intros a b c. apply str_leb_trans. Qed.

Lemma StronglySorted_snoc (A : Type) (R : A -> A -> Prop) (l : list A)
      (a : A) :
  StronglySorted R l -> Forall (fun x => R x a) l ->
  StronglySorted R (l ++ [a]).
Proof.
  induction 1 as [|b l Hl IH Hb]; intros H; cbn.
  - constructor; constructor.
  - inversion H; subst. constructor; [apply IH; assumption|].
    apply Forall_app. split; [exact Hb|]. constructor; [assumption|constructor].
Qed.

Section SortedLists.
Variable A : Type.
Variable R : A -> A -> Prop.

Lemma StronglySorted_filter (f : A -> bool) (l : list A) :
  StronglySorted R l -> StronglySorted R (filter f l).
Proof.
  induction 1 as [|a l Hl IH Ha]; cbn; [constructor|].
  destruct (f a); [|exact IH].
  constructor; [exact IH|].
  rewrite Forall_forall in Ha |- *. intros x Hx. apply filter_In in Hx.
  apply Ha. apply Hx.
Qed.

Lemma StronglySorted_firstn (n : nat) (l : list A) :
  StronglySorted R l -> StronglySorted R (firstn n l).
Proof.
  intros H. revert n. induction H as [|a l Hl IH Ha]; intros [|n]; cbn;
    try constructor.
  - apply IH.
  - rewrite Forall_forall in *. intros x Hx. apply Ha.
    eapply In_firstn; eassumption.
Qed.

Lemma StronglySorted_rev (l : list A) :
  StronglySorted R l -> StronglySorted (fun x y => R y x) (rev l).
Proof.
  induction 1 as [|a l Hl IH Ha]; cbn; [constructor|].
  apply StronglySorted_snoc; [exact IH|].
  apply Forall_rev. exact Ha.
Qed.
End SortedLists.

Lemma StronglySorted_map (A B : Type) (R : B -> B -> Prop) (f : A -> B)
      (l : list A) :
  StronglySorted R (map f l) <->
  StronglySorted (fun x y => R (f x) (f y)) l.
Proof.
  induction l as [|a l IH]; cbn.
  - split; constructor.
  - split; intros H; inversion H; subst; constructor;
      try (apply IH; assumption).
    + rewrite Forall_map in *. assumption.
    + rewrite Forall_map. assumption.
Qed.

Lemma extracted_length (w : World) (logPath serverName : jsstring)
      (limit : Z) (toolName : option jsstring) (hours : option Z)
      (lines : list jsstring) :
  (Z.of_nat (length (extracted w logPath serverName limit toolName hours
                       lines)) <= Z.max 1 limit)%Z.
Proof.
  unfold extracted. rewrite length_rev, length_firstn. lia.
Qed.

Lemma extracted_descending (w : World) (logPath serverName : jsstring)
      (limit : Z) (toolName : option jsstring) (hours : option Z)
      (lines : list jsstring) :
  Sorted str_le (error_header_timestamps lines) ->
  Sorted str_ge
    (map LogEntry.timestamp
       (extracted w logPath serverName limit toolName hours lines)).
Proof.
  intros H. apply (Sorted_StronglySorted str_le_transitive) in H.
  unfold error_header_timestamps in H.
  apply (proj1 (StronglySorted_map str_le _ _)) in H.
  apply StronglySorted_Sorted.
  apply (proj2 (StronglySorted_map str_ge LogEntry.timestamp _)).
  unfold extracted.
  apply (StronglySorted_rev
           (R := fun x y => str_le (LogEntry.timestamp x) (LogEntry.timestamp y))).
  apply StronglySorted_firstn, StronglySorted_filter.
  apply (proj2 (StronglySorted_map
                  (fun x y => str_le (LogEntry.timestamp x)
                                     (LogEntry.timestamp y))
                  (entry_of serverName) _)).
  exact H.
Qed.

(** C3 (amended).  For a limit of at least one, [getRecentErrors] returns
    at most [limit] entries, in the reverse of their file order: read
    backwards, the result is the list of the first [limit] entries, in
    file order, of the error headers of the resolved file that pass the
    filters.  So the timestamps of the result never increase when the
    timestamps of the error headers of the file never decrease. *)
Theorem recentErrors_cap_and_order (w : World) (serverName : jsstring)
        (limit : Z) (toolName : option jsstring) (hours : option Z)
        (entries : list LogEntry.t) :
  (1 <= limit)%Z ->
  getRecentErrors w serverName limit toolName hours = inr entries ->
  (Z.of_nat (length entries) <= limit)%Z /\
  exists servers p content,
    getAvailableServers w = inr servers /\
    resolve servers serverName = Some p /\
    readFileSync w p = Some content /\
    rev entries =
      firstn (Z.to_nat limit)
        (filter (passes_filters toolName hours (cutoff_of w p hours))
           (map (entry_of serverName)
              (error_headers (split_lines content)))) /\
    (Sorted str_le (error_header_timestamps (split_lines content)) ->
     Sorted str_ge (map LogEntry.timestamp entries)).
Proof using path_join_nonempty.
  intros Hlimit H.
  destruct (getAvailableServers w) as [e|servers] eqn:Es.
  - rewrite getRecentErrors_scan_failure with (1 := Es) in H. discriminate.
  - rewrite getRecentErrors_cases with (1 := Es) in H.
    destruct (resolve servers serverName) as [p|] eqn:Er; [|discriminate].
    destruct (readFileSync w p) as [content|] eqn:Ec; [|discriminate].
    inversion H; subst. split.
    + pose proof (extracted_length w p serverName limit toolName hours
                    (split_lines content)). lia.
    + exists servers, p, content. repeat split; try assumption.
      * unfold extracted. rewrite rev_involutive.
        replace (Z.max 1 limit) with limit by lia. reflexivity.
      * apply extracted_descending.
Qed.

(** *** Failures and empty results *)

(** C4 (amended).  Once the directory scan has succeeded,
    [getRecentErrors] raises its own error exactly when the identifier
    resolves to no log file, and the message then enumerates the known
    server names; the only other failure is a resolved file that cannot
    be read.  [analyzeError] on a server that resolves to a readable file
    returns [null] when no extracted message contains the search string,
    case-insensitively. *)
Theorem recentErrors_failures (w : World) (serverName : jsstring) (limit : Z)
        (toolName : option jsstring) (hours : option Z)
        (servers : list ServerInfo.t) :
  getAvailableServers w = inr servers ->
  ((exists msg,
       getRecentErrors w serverName limit toolName hours = inl (JsError msg))
   <-> resolve servers serverName = None) /\
  (resolve servers serverName = None ->
   getRecentErrors w serverName limit toolName hours =
   inl (JsError
          (js "Log file not found for server: " ++ serverName ++
           js ". Available servers: " ++
           join (js ", ") (map ServerInfo.server_name servers)))) /\
  ((exists e, getRecentErrors w serverName limit toolName hours = inl e)
   <-> resolve servers serverName = None \/
       exists p, resolve servers serverName = Some p /\
                 readFileSync w p = None) /\
  (forall p content errorMessage includeStackTrace,
      resolve servers serverName = Some p ->
      readFileSync w p = Some content ->
      (forall e,
          In e (extracted w p serverName MAX_LOG_SCAN_LIMIT None None
                  (split_lines content)) ->
          includes (toLowerCase (LogEntry.message e))
                   (toLowerCase errorMessage) = false) ->
      analyzeError w serverName errorMessage includeStackTrace = inr None).
Proof using path_join_nonempty.
  intros Hs.
  pose proof (@getRecentErrors_cases w serverName limit toolName hours servers Hs) as Hc.
  repeat split.
  - intros [msg H]. rewrite Hc in H.
    destruct (resolve servers serverName) as [p|]; [|reflexivity].
    destruct (readFileSync w p); discriminate.
  - intros Hr. rewrite Hc, Hr. eauto.
  - intros Hr. rewrite Hc, Hr. reflexivity.
  - intros [e H]. rewrite Hc in H.
    destruct (resolve servers serverName) as [p|]; [|left; reflexivity].
    right. exists p. split; [reflexivity|].
    destruct (readFileSync w p); [discriminate | reflexivity].
  - intros [Hr | (p & Hr & Hp)]; rewrite Hc, Hr; [eauto|].
    rewrite Hp. eauto.
  - intros p content errorMessage includeStackTrace Hr Hp Hnone.
    unfold analyzeError.
    rewrite getRecentErrors_cases with (1 := Hs). rewrite Hr, Hp.
    cbn [bind].
    match goal with
    | |- match find ?f ?l with _ => _ end = _ =>
        destruct (find f l) as [e|] eqn:E
    end; [|reflexivity].
    apply find_some in E. destruct E as [Hin He].
    rewrite (Hnone e Hin) in He. discriminate.
Qed.

(** *** Related errors *)

Lemma filter_all (A : Type) (f : A -> bool) (l : list A) :
  Forall (fun x => f x = true) l -> filter f l = l.
Proof.
  induction 1 as [|x l Hx Hl IH]; cbn; [reflexivity|].
  rewrite Hx, IH. reflexivity.
Qed.

(** What [find] returns is the first element with a narrower property,
    when it has that property. *)
Lemma find_hd_filter (A : Type) (f g : A -> bool) (l : list A) (p : A) :
  (forall x, g x = true -> f x = true) ->
  find f l = Some p -> g p = true ->
  hd_error (filter g l) = Some p.
Proof.
  intros Hgf. induction l as [|x l IH]; intros Hfind Hp; [discriminate|].
  cbn [find] in Hfind. cbn [filter].
  destruct (f x) eqn:Ef.
  - inversion Hfind; subst. rewrite Hp. reflexivity.
  - destruct (g x) eqn:Eg; [rewrite (Hgf x Eg) in Ef; discriminate|].
    apply IH; assumption.
Qed.

Lemma find_filter_some (A : Type) (f g : A -> bool) (l : list A) :
  (forall x, g x = true -> f x = true) ->
  filter g l <> [] -> exists p, find f l = Some p.
Proof.
  intros Hgf. induction l as [|x l IH]; intros Hne; [contradiction|].
  cbn [find]. cbn [filter] in Hne. destruct (f x) eqn:Ef; [eauto|].
  destruct (g x) eqn:Eg; [rewrite (Hgf x Eg) in Ef; discriminate|].
  apply IH. exact Hne.
Qed.

Lemma str_ge_transitive : Relations_1.Transitive str_ge.
Proof. intros a b c Hab Hbc. exact (str_leb_trans _ _ _ Hbc Hab). Qed.

(** Entries with pairwise different timestamps: all but one, at most,
    have another timestamp than a given one. *)
Lemma other_timestamp_length (ts : jsstring) (l : list LogEntry.t) :
  NoDup (map LogEntry.timestamp l) ->
  length l <=
  S (length (filter (fun e => negb (str_eqb (LogEntry.timestamp e) ts)) l)).
Proof.
  induction l as [|x l IH]; intros Hdup; [cbn; lia|].
  cbn [map] in Hdup. inversion Hdup as [|? ? Hnotin Hdup']; subst.
  cbn [filter length].
  destruct (str_eqb (LogEntry.timestamp x) ts) eqn:Ex; cbn [negb length].
  - apply str_eqb_eq in Ex. rewrite filter_all; [lia|].
    apply Forall_forall. intros e He.
    apply negb_true_iff, str_eqb_neq. intros E. apply Hnotin.
    rewrite Ex, <- E. apply in_map. exact He.
  - specialize (IH Hdup'). lia.
Qed.

(** C5 (amended).  When at least six of the extracted entries (ten, in
    the specification) carry the message searched for and have pairwise
    different timestamps, and the first entry of the query result whose
    message contains that message, case-insensitively, carries exactly
    that message, [analyzeError] takes the first entry with the message
    as the primary entry and returns exactly five related errors: the
    first five, in the order of the query result, of the entries with
    the message and another timestamp than the primary entry, so newest
    first when that result is.  The suggested actions begin with the
    warning of line 342, followed by the actions of the classifier; the
    number of occurrences that the warning gives is left open. *)
Theorem analyzeError_related_cap (w : World) (serverName m : jsstring)
        (includeStackTrace : bool) (errors ten : list LogEntry.t) :
  getRecentErrors w serverName MAX_LOG_SCAN_LIMIT None None = inr errors ->
  incl ten errors ->
  6 <= length ten ->
  Forall (fun e => LogEntry.message e = m) ten ->
  NoDup (map LogEntry.timestamp ten) ->
  (forall p, find (message_includes m) errors = Some p ->
             LogEntry.message p = m) ->
  exists a primary related,
    analyzeError w serverName m includeStackTrace = inr (Some a) /\
    find (message_includes m) errors = Some primary /\
    hd_error (with_message m errors) = Some primary /\
    related =
      firstn 5
        (filter (fun e => str_eqb (LogEntry.message e) m &&
                          negb (str_eqb (LogEntry.timestamp e)
                                        (LogEntry.timestamp primary)))
           errors) /\
    ErrorAnalysis.error a =
      (if includeStackTrace then primary
       else LogEntry.without_stack_trace primary) /\
    length (ErrorAnalysis.related_errors a) = 5 /\
    ErrorAnalysis.related_errors a =
      (if includeStackTrace then related
       else map LogEntry.without_stack_trace related) /\
    (forall r, In r (ErrorAnalysis.related_errors a) ->
               LogEntry.message r = m /\
               LogEntry.timestamp r <> LogEntry.timestamp primary) /\
    (Sorted str_ge (map LogEntry.timestamp errors) ->
     Sorted str_ge
       (map LogEntry.timestamp (ErrorAnalysis.related_errors a))) /\
    exists n,
      ErrorAnalysis.suggested_actions a =
      occurrence_warning n :: snd (classify (toLowerCase m)).
Proof.
  intros Herr Hincl Hlen Hmsg Hdup Hfirst.
  rewrite Forall_forall in Hmsg.
  assert (Hgf : forall e, str_eqb (LogEntry.message e) m = true ->
                          message_includes m e = true).
  { intros e He. apply str_eqb_eq in He. unfold message_includes.
    rewrite He. apply includes_refl. }
  destruct (@find_filter_some _ (message_includes m)
              (fun e => str_eqb (LogEntry.message e) m) errors Hgf)
    as [primary Hfind].
  { destruct ten as [|e ten']; [cbn in Hlen; lia|].
    assert (He : In e (filter (fun e => str_eqb (LogEntry.message e) m)
                         errors)).
    { apply filter_In. split; [apply Hincl; left; reflexivity|].
      apply str_eqb_eq. apply Hmsg. left. reflexivity. }
    intros Hnil. rewrite Hnil in He. destruct He. }
  pose proof (Hfirst primary Hfind) as Hm.
  assert (Hhd : hd_error (with_message m errors) = Some primary).
  { apply (@find_hd_filter _ _ _ _ _ Hgf Hfind). apply str_eqb_eq.
    exact Hm. }
  set (others := filter (fun e => str_eqb (LogEntry.message e) m &&
                                  negb (str_eqb (LogEntry.timestamp e)
                                          (LogEntry.timestamp primary)))
                   errors).
  assert (Hfilter : filter (same_message_other_time primary) errors
                    = others).
  { unfold same_message_other_time. rewrite Hm. reflexivity. }
  assert (Hothers : forall r, In r others ->
                      LogEntry.message r = m /\
                      LogEntry.timestamp r <> LogEntry.timestamp primary).
  { intros r Hr. apply filter_In in Hr. destruct Hr as [_ Hr].
    apply andb_true_iff in Hr. destruct Hr as [H1 H2].
    apply str_eqb_eq in H1. apply negb_true_iff, str_eqb_neq in H2.
    split; assumption. }
  assert (Hmany : 5 <= length others).
  { pose proof (@other_timestamp_length (LogEntry.timestamp primary) ten
                  Hdup) as Hrest.
    set (rest := filter (fun e => negb (str_eqb (LogEntry.timestamp e)
                                          (LogEntry.timestamp primary)))
                   ten) in Hrest.
    assert (Hle : length rest <= length others).
    { apply NoDup_incl_length.
      - apply NoDup_filter. eapply NoDup_map_inv. exact Hdup.
      - intros e He. apply filter_In in He. destruct He as [He Hts].
        apply filter_In. split; [apply Hincl; exact He|].
        rewrite Hts, (Hmsg e He), str_eqb_refl. reflexivity. }
    lia. }
  set (related := firstn 5 others).
  assert (H5 : length related = 5)
    by (unfold related; rewrite length_firstn; lia).
  assert (Hsorted : Sorted str_ge (map LogEntry.timestamp errors) ->
                    Sorted str_ge (map LogEntry.timestamp related)).
  { intros Hs. apply (Sorted_StronglySorted str_ge_transitive) in Hs.
    apply (proj1 (StronglySorted_map str_ge _ _)) in Hs.
    apply StronglySorted_Sorted.
    apply (proj2 (StronglySorted_map str_ge LogEntry.timestamp _)).
    unfold related, others.
    apply StronglySorted_firstn, StronglySorted_filter.
    exact Hs. }
  eexists. exists primary, related.
  split.
  { unfold analyzeError. rewrite Herr. cbn [bind].
    fold (message_includes m). rewrite Hfind, Hfilter.
    fold related. reflexivity. }
  cbn [ErrorAnalysis.error ErrorAnalysis.related_errors
       ErrorAnalysis.suggested_actions].
  split; [exact Hfind|]. split; [exact Hhd|]. split; [reflexivity|].
  split; [reflexivity|].
  split; [destruct includeStackTrace; [|rewrite length_map]; exact H5|].
  split; [reflexivity|].
  split; [|split].
  - assert (Hin : forall r, In r related ->
                    LogEntry.message r = m /\
                    LogEntry.timestamp r <> LogEntry.timestamp primary).
    { intros r Hr. apply Hothers. eapply In_firstn. exact Hr. }
    destruct includeStackTrace; [exact Hin|].
    intros r Hr. apply in_map_iff in Hr. destruct Hr as (r' & <- & Hr').
    cbn. apply Hin. exact Hr'.
  - intros Hs. destruct includeStackTrace; [exact (Hsorted Hs)|].
    rewrite map_map. cbn [LogEntry.without_stack_trace LogEntry.timestamp].
    exact (Hsorted Hs).
  - unfold generateErrorAnalysis. rewrite Hm.
    destruct (classify (toLowerCase m)) as [rootCause actions].
    rewrite H5. cbn [Nat.ltb Nat.leb snd]. eexists. reflexivity.
Qed.

(** ** The header literal and the trailing Z *)

Lemma mtch_Group (A : Type) (input : jsstring) (i : nat) (a : regex)
      (s : jsstring) (c : captures) (k : jsstring -> captures -> option A) :
  mtch input (Group i a) s c k =
  mtch input a s c
       (fun s' c' => k s' ((i, firstn (length s - length s') s) :: c')).
Proof. reflexivity. Qed.

Lemma mtch_Chr (A : Type) (input : jsstring) (p : char16 -> bool)
      (s : jsstring) (c : captures) (k : jsstring -> captures -> option A) :
  has_shape [p] s = false -> mtch input (Chr p) s c k = None.
Proof.
  destruct s as [|x s]; [reflexivity|]. cbn. rewrite andb_true_r.
  intros ->. reflexivity.
Qed.

Lemma header_ts_shape (A : Type) (input : jsstring) (s : jsstring)
      (c : captures) (k : jsstring -> captures -> option A) :
  mtch input HEADER_TS s c k =
  mtch input
       (ChrSeq DATE_TIME_SHAPE_I
          (Seq (Opt (ChrSeq MILLIS_SHAPE Eps)) (Chr (chr_i "z" "Z"))))
       s c k.
Proof. reflexivity. Qed.

Lemma millis_not_zone (s : jsstring) :
  has_shape MILLIS_SHAPE s = true -> has_shape [chr_i "z" "Z"] s = false.
Proof.
  destruct s as [|x s]; [discriminate|].
  unfold MILLIS_SHAPE. cbn [has_shape]. unfold chr at 1.
  destruct (N.eqb_spec (N_of_ascii ".") x) as [<-|]; [reflexivity|].
  discriminate.
Qed.

(** A line whose date and time (and milliseconds) are not followed by Z,
    in either case, is no header for the extractor. *)
Lemma header_needs_zone (line : jsstring) :
  has_shape [chr_i "z" "Z"] (after_date_time line) = false ->
  regex_exec HEADER_RE line = None.
Proof.
  unfold after_date_time. cbv zeta. intros H.
  unfold HEADER_RE. cbn [Seqs].
  rewrite regex_exec_Bol, mtch_Seq, mtch_Group, header_ts_shape.
  rewrite mtch_ChrSeq, eat_has_shape.
  destruct (has_shape DATE_TIME_SHAPE_I line); [|reflexivity].
  change (length DATE_TIME_SHAPE_I) with 19.
  rewrite mtch_Seq, mtch_Opt, mtch_ChrSeq, eat_has_shape.
  destruct (has_shape MILLIS_SHAPE (skipn 19 line)) eqn:Em.
  - change (length MILLIS_SHAPE) with 4. rewrite mtch_Eps.
    rewrite mtch_Chr by exact H.
    rewrite mtch_Chr by (apply millis_not_zone; exact Em). reflexivity.
  - rewrite mtch_Chr by exact H. reflexivity.
Qed.

(** ** The header grammar *)

Lemma takeWhile_dropWhile (p : char16 -> bool) (s : jsstring) :
  takeWhile p s ++ dropWhile p s = s.
Proof.
  induction s as [|x s IH]; [reflexivity|]. cbn.
  destruct (p x); [cbn; rewrite IH|]; reflexivity.
Qed.

Lemma dropWhile_suffix_forallb (p q : char16 -> bool) (s : jsstring) :
  forallb q s = true -> forallb q (dropWhile p s) = true.
Proof.
  induction s as [|x s IH]; [reflexivity|]. cbn [dropWhile].
  destruct (p x); [|auto]. cbn. intros H. apply andb_true_iff in H.
  apply IH. apply H.
Qed.

(** Greedy star over a class, before a continuation that fails on a
    longer rest whenever it fails on the shortest one: the star takes all
    it can. *)
Lemma mtch_star_chr_maximal (A : Type) (input : jsstring)
      (p : char16 -> bool) (c : captures)
      (k : jsstring -> captures -> option A) :
  (forall x s', p x = true -> k (dropWhile p s') c = None ->
                k (x :: s') c = None) ->
  forall s, mtch input (Star (Chr p)) s c k = k (dropWhile p s) c.
Proof.
  intros Hk. induction s as [|x s IH]; [reflexivity|].
  rewrite mtch_star_chr_cons. cbn [dropWhile].
  destruct (p x) eqn:Ex; [|reflexivity].
  rewrite IH. destruct (k (dropWhile p s) c) eqn:E; [reflexivity|].
  apply Hk; assumption.
Qed.

Lemma mtch_plus_chr (A : Type) (input : jsstring) (p : char16 -> bool)
      (s : jsstring) (c : captures) (k : jsstring -> captures -> option A) :
  mtch input (Plus (Chr p)) s c k =
  match s with
  | x :: s1 => if p x then mtch input (Star (Chr p)) s1 c k else None
  | [] => None
  end.
Proof. destruct s; reflexivity. Qed.

(** Greedy star over a class, before a continuation that wants the end
    of the subject. *)
Lemma mtch_star_chr_all (A : Type) (input : jsstring) (p : char16 -> bool)
      (c : captures) (k : jsstring -> captures -> option A) (v : A) :
  (forall s', k s' c = match s' with [] => Some v | _ :: _ => None end) ->
  forall t,
    mtch input (Star (Chr p)) t c k = if forallb p t then Some v else None.
Proof.
  intros Hk. induction t as [|x t IH]; [rewrite mtch_star_chr_nil; apply Hk|].
  rewrite mtch_star_chr_cons, IH, Hk. cbn [forallb].
  destruct (p x); [|reflexivity].
  destruct (forallb p t); reflexivity.
Qed.

(** The end of the literal: the group of the rest of the line, up to the
    end of the subject. *)
Lemma mtch_rest_of_line (input : jsstring) (s : jsstring) (c : captures) :
  mtch input (Seq (Group 4 (Star dot)) Eol) s c final_k =
  if forallb not_line_terminator s then Some ([], (4, s) :: c) else None.
Proof.
  rewrite mtch_Seq, mtch_Group. unfold dot.
  apply (@mtch_star_chr_all _ input not_line_terminator c _
           ([], (4, s) :: c)).
  intros [|y s']; [|reflexivity].
  cbn [mtch length final_k]. rewrite Nat.sub_0_r, firstn_all. reflexivity.
Qed.

Lemma mtch_header_message (input : jsstring) (s : jsstring) (c : captures) :
  mtch input (Seq (Plus space) (Seq (Group 4 (Star dot)) Eol)) s c final_k =
  match header_message s with
  | Some rest => Some ([], (4, rest) :: c)
  | None => None
  end.
Proof.
  rewrite mtch_Seq. unfold space. rewrite mtch_plus_chr.
  unfold header_message. destruct s as [|x s1]; [reflexivity|].
  destruct (is_space x); [|reflexivity].
  rewrite mtch_star_chr_maximal.
  - rewrite mtch_rest_of_line.
    destruct (forallb not_line_terminator (dropWhile is_space s1));
      reflexivity.
  - intros y s' Hy. rewrite !mtch_rest_of_line.
    destruct (forallb not_line_terminator (y :: s')) eqn:E; [|reflexivity].
    cbn [forallb] in E. apply andb_true_iff in E. destruct E as [_ E].
    rewrite (dropWhile_suffix_forallb is_space _ _ E). discriminate.
Qed.

Lemma space_not_lbracket (x : char16) :
  is_space x = true -> chr "[" x = false.
Proof.
  unfold chr. destruct (N.eqb_spec (N_of_ascii "[") x) as [<-|];
    [discriminate | reflexivity].
Qed.

Lemma dropWhile_head (p : char16 -> bool) (s : jsstring) (z : char16)
      (r : jsstring) :
  dropWhile p s = z :: r -> p z = false.
Proof.
  induction s as [|x s IH]; [discriminate|]. cbn.
  destruct (p x) eqn:E; [exact IH|]. intros H. inversion H; subst. exact E.
Qed.

Lemma mtch_Chr_cons (A : Type) (input : jsstring) (p : char16 -> bool)
      (x : char16) (s : jsstring) (c : captures)
      (k : jsstring -> captures -> option A) :
  mtch input (Chr p) (x :: s) c k = if p x then k s c else None.
Proof. reflexivity. Qed.

(** White space, a bracketed token captured as group [i], then [R]. *)
Lemma mtch_bracketed (A : Type) (input : jsstring) (i : nat) (R : regex)
      (s : jsstring) (c : captures) (k : jsstring -> captures -> option A) :
  mtch input
       (Seq (Plus space)
            (Seq (lit "[")
                 (Seq (Group i (Plus not_rbracket)) (Seq (lit "]") R))))
       s c k =
  match bracketed s with
  | Some (tok, s3) => mtch input R s3 ((i, tok) :: c) k
  | None => None
  end.
Proof.
  rewrite mtch_Seq. unfold space. rewrite mtch_plus_chr. unfold bracketed.
  destruct s as [|x s1]; [reflexivity|].
  destruct (is_space x); [|reflexivity].
  rewrite mtch_star_chr_maximal.
  2:{ intros y s' Hy _. rewrite mtch_Seq. unfold lit.
      rewrite mtch_Chr_cons, (space_not_lbracket _ Hy). reflexivity. }
  cbv beta.
  destruct (dropWhile is_space s1) as [|y s2]; [reflexivity|].
  rewrite mtch_Seq. unfold lit at 1. rewrite mtch_Chr_cons.
  destruct (chr "[" y); [|reflexivity].
  rewrite mtch_Seq, mtch_Group. unfold not_rbracket.
  change (fun c0 : char16 => negb (chr "]" c0)) with not_closing.
  rewrite mtch_plus_chr.
  destruct s2 as [|t s2']; [reflexivity|].
  cbn [takeWhile dropWhile]. destruct (not_closing t) eqn:Et; [|reflexivity].
  rewrite mtch_star_chr_maximal.
  2:{ intros z s' Hz _. rewrite mtch_Seq. unfold lit.
      rewrite mtch_Chr_cons.
      unfold not_closing in Hz. apply negb_true_iff in Hz.
      rewrite Hz. reflexivity. }
  cbv beta.
  destruct (dropWhile not_closing s2') as [|z s3] eqn:Ed; [reflexivity|].
  rewrite mtch_Seq. unfold lit at 1. rewrite mtch_Chr_cons.
  pose proof (dropWhile_head _ _ Ed) as Hz.
  unfold not_closing in Hz. apply negb_false_iff in Hz. rewrite Hz.
  replace (firstn (length (t :: s2') - length (z :: s3)) (t :: s2'))
    with (t :: takeWhile not_closing s2'); [reflexivity|].
  symmetry. apply firstn_prefix_length.
  rewrite <- Ed. cbn [app]. rewrite takeWhile_dropWhile. reflexivity.
Qed.

Lemma skipn_cons_inv (n : nat) :
  forall (s : jsstring) (z : char16) (r : jsstring),
    skipn n s = z :: r ->
    skipn (S n) s = r /\ firstn (length s - length r) s = firstn (S n) s.
Proof.
  induction n as [|n IH]; intros s z r H.
  - cbn [skipn] in H. subst. split; [reflexivity|].
    replace (length (z :: r) - length r) with 1 by (cbn [length]; lia).
    reflexivity.
  - destruct s as [|x s]; [discriminate|]. cbn [skipn] in H.
    destruct (IH s z r H) as [H1 H2]. split; [exact H1|].
    assert (Hlen : length r < length s).
    { rewrite <- H1. rewrite length_skipn.
      assert (length (skipn n s) = S (length r)) by (rewrite H; reflexivity).
      rewrite length_skipn in H0. lia. }
    cbn [length]. replace (S (length s) - length r)
      with (S (length s - length r)) by lia.
    cbn [firstn]. f_equal. exact H2.
Qed.

(** The timestamp group, then [R]. *)
Lemma mtch_header_timestamp (A : Type) (input : jsstring) (R : regex)
      (s : jsstring) (c : captures) (k : jsstring -> captures -> option A) :
  mtch input (Seq (Group 1 HEADER_TS) R) s c k =
  match header_timestamp s with
  | Some (ts, r) => mtch input R r ((1, ts) :: c) k
  | None => None
  end.
Proof.
  rewrite mtch_Seq, mtch_Group, header_ts_shape, mtch_ChrSeq, eat_has_shape.
  unfold header_timestamp.
  destruct (has_shape DATE_TIME_SHAPE_I s); [|reflexivity].
  change (length DATE_TIME_SHAPE_I) with 19.
  rewrite mtch_Seq, mtch_Opt, mtch_ChrSeq, eat_has_shape.
  destruct (has_shape MILLIS_SHAPE (skipn 19 s)) eqn:Em.
  - change (length MILLIS_SHAPE) with 4. rewrite mtch_Eps.
    rewrite (mtch_Chr input (chr_i "z" "Z") (skipn 19 s) c _
               (millis_not_zone _ Em)).
    rewrite skipn_skipn. change (4 + 19) with 23.
    destruct (skipn 23 s) as [|z r] eqn:Es; [reflexivity|].
    rewrite mtch_Chr_cons. cbn [has_shape]. rewrite andb_true_r.
    destruct (chr_i "z" "Z" z); [|reflexivity].
    destruct (skipn_cons_inv _ _ Es) as [-> ->].
    cbv beta.
    match goal with
    | |- match ?X with _ => _ end = ?Y => change Y with X; destruct X
    end; reflexivity.
  - destruct (skipn 19 s) as [|z r] eqn:Es; [reflexivity|].
    rewrite mtch_Chr_cons. cbn [has_shape]. rewrite andb_true_r.
    destruct (chr_i "z" "Z" z); [|reflexivity].
    destruct (skipn_cons_inv _ _ Es) as [-> ->]. reflexivity.
Qed.

(** The header literal accepts exactly the lines [parse_header] reads,
    with its fields as groups. *)
Theorem header_exec_spec (line : jsstring) :
  regex_exec HEADER_RE line =
  match parse_header line with
  | Some (ts, source, level, rest) =>
      Some {| m_before := []; m_after := [];
              m_caps := [(4, rest); (3, level); (2, source); (1, ts)] |}
  | None => None
  end.
Proof.
  unfold HEADER_RE. cbn [Seqs].
  rewrite regex_exec_Bol, mtch_header_timestamp. unfold parse_header.
  destruct (header_timestamp line) as [[ts r1]|]; [|reflexivity].
  rewrite mtch_bracketed.
  destruct (bracketed r1) as [[source r2]|]; [|reflexivity].
  rewrite mtch_bracketed.
  destruct (bracketed r2) as [[level r3]|]; [|reflexivity].
  rewrite mtch_header_message.
  destruct (header_message r3) as [rest|]; reflexivity.
Qed.

(** *** Lines of the header grammar *)

Lemma has_shape_app (shape : list (char16 -> bool)) :
  forall a b,
    length a = length shape -> has_shape shape (a ++ b) = has_shape shape a.
Proof.
  induction shape as [|p shape IH]; intros a b H; [reflexivity|].
  destruct a as [|x a]; [discriminate|]. cbn [has_shape app].
  rewrite IH by (cbn in H; lia). reflexivity.
Qed.

Lemma skipn_exact (a b : jsstring) (n : nat) :
  length a = n -> skipn n (a ++ b) = b.
Proof.
  intros <-. rewrite skipn_app, Nat.sub_diag, skipn_all. reflexivity.
Qed.

Lemma firstn_exact (a b : jsstring) (n : nat) :
  length a = n -> firstn n (a ++ b) = a.
Proof.
  intros <-. rewrite firstn_app, Nat.sub_diag, firstn_all. cbn.
  apply app_nil_r.
Qed.

Lemma dropWhile_app_stop (p : char16 -> bool) (a : jsstring) (y : char16)
      (r : jsstring) :
  forallb p a = true -> p y = false -> dropWhile p (a ++ y :: r) = y :: r.
Proof.
  intros Ha Hy. induction a as [|x a IH]; cbn.
  - rewrite Hy. reflexivity.
  - cbn in Ha. apply andb_true_iff in Ha. destruct Ha as [-> Ha]. auto.
Qed.

Lemma takeWhile_app_stop (p : char16 -> bool) (a : jsstring) (y : char16)
      (r : jsstring) :
  forallb p a = true -> p y = false -> takeWhile p (a ++ y :: r) = a.
Proof.
  intros Ha Hy. induction a as [|x a IH]; cbn.
  - rewrite Hy. reflexivity.
  - cbn in Ha. apply andb_true_iff in Ha. destruct Ha as [-> Ha].
    rewrite IH by exact Ha. reflexivity.
Qed.

Lemma dropWhile_app_all (p : char16 -> bool) (a b : jsstring) :
  forallb p a = true -> dropWhile p (a ++ b) = dropWhile p b.
Proof.
  intros Ha. induction a as [|x a IH]; [reflexivity|]. cbn.
  cbn in Ha. apply andb_true_iff in Ha. destruct Ha as [-> Ha]. auto.
Qed.

Lemma header_timestamp_app (ts r : jsstring) :
  zoned_timestamp ts -> header_timestamp (ts ++ r) = Some (ts, r).
Proof.
  intros (dt & ms & z & -> & Hlen & Hdt & Hms & Hz).
  unfold header_timestamp. rewrite <- !app_assoc.
  rewrite has_shape_app by exact Hlen. rewrite Hdt.
  rewrite (skipn_exact dt _ Hlen).
  destruct Hms as [-> | [Hl4 Hms]].
  - cbn [app]. 
    assert (Hm : has_shape MILLIS_SHAPE (z :: r) = false).
    { apply not_true_iff_false. intros Hm.
      apply millis_not_zone in Hm. cbn in Hm. rewrite Hz in Hm.
      discriminate. }
    rewrite Hm.
    rewrite (skipn_exact dt _ Hlen). cbn [has_shape]. rewrite Hz. cbn [andb].
    replace (dt ++ z :: r) with ((dt ++ [z]) ++ r)
      by (rewrite <- app_assoc; reflexivity).
    assert (Hl : length (dt ++ [z]) = 20)
      by (rewrite length_app, Hlen; reflexivity).
    rewrite (firstn_exact _ _ Hl), (skipn_exact _ _ Hl). reflexivity.
  - rewrite has_shape_app by exact Hl4. rewrite Hms.
    replace (dt ++ ms ++ [z] ++ r) with ((dt ++ ms) ++ z :: r)
      by (rewrite <- app_assoc; reflexivity).
    assert (Hl : length (dt ++ ms) = 23)
      by (rewrite length_app, Hlen, Hl4; reflexivity).
    rewrite (skipn_exact _ _ Hl). cbn [has_shape]. rewrite Hz. cbn [andb].
    replace ((dt ++ ms) ++ z :: r) with ((dt ++ ms ++ [z]) ++ r)
      by (rewrite <- !app_assoc; reflexivity).
    assert (Hl' : length (dt ++ ms ++ [z]) = 24)
      by (rewrite !length_app, Hlen, Hl4; reflexivity).
    rewrite (firstn_exact _ _ Hl'), (skipn_exact _ _ Hl'). reflexivity.
Qed.

Lemma bracketed_app (ws tok r : jsstring) :
  blank ws -> token tok ->
  bracketed (ws ++ [LBRACKET] ++ tok ++ [RBRACKET] ++ r) = Some (tok, r).
Proof.
  intros [Hne Hws] [Htne Htok].
  destruct ws as [|x ws]; [congruence|].
  cbn [forallb] in Hws. apply andb_true_iff in Hws. destruct Hws as [Hx Hws].
  unfold bracketed. cbn [app]. rewrite Hx.
  rewrite (dropWhile_app_stop is_space ws LBRACKET _ Hws eq_refl).
  change (chr "[" LBRACKET) with true. cbv iota.
  rewrite (takeWhile_app_stop not_closing tok RBRACKET r Htok eq_refl).
  rewrite (dropWhile_app_stop not_closing tok RBRACKET r Htok eq_refl).
  destruct tok; [congruence | reflexivity].
Qed.

Lemma header_message_app (ws rest : jsstring) :
  blank ws -> forallb not_line_terminator rest = true ->
  header_message (ws ++ rest) = Some (dropWhile is_space rest).
Proof.
  intros [Hne Hws] Hrest.
  destruct ws as [|x ws]; [congruence|].
  cbn [forallb] in Hws. apply andb_true_iff in Hws. destruct Hws as [Hx Hws].
  unfold header_message. cbn [app]. rewrite Hx.
  rewrite (dropWhile_app_all is_space ws rest Hws).
  rewrite dropWhile_suffix_forallb by exact Hrest. reflexivity.
Qed.

Lemma parse_header_line (ts ws1 source ws2 level ws3 rest : jsstring) :
  zoned_timestamp ts -> blank ws1 -> token source -> blank ws2 ->
  token level -> blank ws3 -> forallb not_line_terminator rest = true ->
  parse_header (header_line ts ws1 source ws2 level ws3 rest) =
  Some (ts, source, level, dropWhile is_space rest).
Proof.
  intros Hts H1 Hs H2 Hl H3 Hr. unfold parse_header, header_line.
  rewrite header_timestamp_app by exact Hts.
  rewrite bracketed_app by assumption.
  rewrite bracketed_app by assumption.
  rewrite header_message_app by assumption. reflexivity.
Qed.

(** C2 (amended).  A line made of a timestamp with optional milliseconds
    and the Z, white space, a bracketed non-empty token, white space, a
    second one, white space and a rest free of line terminators is a
    header, with these parts as its groups; a line whose date and time
    (and milliseconds) are not followed by Z is none. *)
Theorem header_grammar :
  (forall ts ws1 source ws2 level ws3 rest,
      zoned_timestamp ts -> blank ws1 -> token source -> blank ws2 ->
      token level -> blank ws3 ->
      forallb not_line_terminator rest = true ->
      exists m,
        regex_exec HEADER_RE (header_line ts ws1 source ws2 level ws3 rest)
        = Some m /\
        group 1 m = ts /\ group 2 m = source /\ group 3 m = level /\
        group 4 m = dropWhile is_space rest) /\
  (forall line,
      has_shape [chr_i "z" "Z"] (after_date_time line) = false ->
      regex_exec HEADER_RE line = None).
Proof.
  split; [|exact header_needs_zone].
  intros ts ws1 source ws2 level ws3 rest Hts H1 Hs H2 Hl H3 Hr.
  eexists. rewrite header_exec_spec.
  rewrite parse_header_line by assumption.
  split; [reflexivity|]. repeat split.
Qed.

(** ** Size of the formatted responses *)

Lemma nb_digits_double (d : Decimal.uint) :
  Decimal.nb_digits (Decimal.Little.double d) <= S (Decimal.nb_digits d) /\
  Decimal.nb_digits (Decimal.Little.succ_double d) <= S (Decimal.nb_digits d).
Proof.
  induction d as [|d [IH1 IH2]|d [IH1 IH2]|d [IH1 IH2]|d [IH1 IH2]
                  |d [IH1 IH2]|d [IH1 IH2]|d [IH1 IH2]|d [IH1 IH2]
                  |d [IH1 IH2]|d [IH1 IH2]];
    cbn [Decimal.Little.double Decimal.Little.succ_double Decimal.nb_digits];
    split; lia.
Qed.

Lemma nb_digits_to_little_uint (p : positive) :
  Decimal.nb_digits (Pos.to_little_uint p) <= Pos.size_nat p.
Proof.
  induction p as [p IH|p IH|]; cbn [Pos.to_little_uint Pos.size_nat].
  - pose proof (proj2 (nb_digits_double (Pos.to_little_uint p))). lia.
  - pose proof (proj1 (nb_digits_double (Pos.to_little_uint p))). lia.
  - cbn. lia.
Qed.

Lemma string_of_uint_length (d : Decimal.uint) :
  String.length (NilEmpty.string_of_uint d) = Decimal.nb_digits d.
Proof.
  induction d; cbn [NilEmpty.string_of_uint String.length Decimal.nb_digits];
    congruence.
Qed.

Lemma js_length (s : string) : length (js s) = String.length s.
Proof.
  unfold js. rewrite length_map.
  induction s as [|a s IH]; cbn [list_ascii_of_string String.length length];
    congruence.
Qed.

(** A positive integer has at most as many decimal digits as bits. *)
Lemma Number_toString_pos_length (p : positive) :
  length (Number_toString (Z.pos p)) <= Pos.size_nat p.
Proof.
  unfold Number_toString. rewrite js_length.
  cbn [Z.to_int NilZero.string_of_int].
  pose proof (DecimalPos.Unsigned.to_uint_nonnil p) as Hnil.
  unfold NilZero.string_of_uint.
  destruct (Pos.to_uint p) eqn:E; try congruence;
    rewrite <- E, string_of_uint_length; unfold Pos.to_uint;
    rewrite DecimalFacts.nb_digits_rev; apply nb_digits_to_little_uint.
Qed.

Lemma Number_toString_length (n : Z) :
  (0 <= n < 2 ^ 53)%Z -> length (Number_toString n) <= 54.
Proof.
  intros [H0 H1]. destruct n as [|p|p]; [cbn; lia| |lia].
  etransitivity; [apply Number_toString_pos_length|].
  change 54 with (Pos.size_nat (2 ^ 53)).
  apply Pos.size_nat_monotone. lia.
Qed.

Lemma truncation_notice_length (truncatedLength itemCount : Z) :
  length (truncation_notice truncatedLength itemCount) =
  287 + length (Number_toString truncatedLength)
      + length (Number_toString itemCount).
Proof.
  unfold truncation_notice. rewrite !length_app, !js_length.
  cbn [length String.length].
  change (length (Number_toString CHARACTER_LIMIT)) with 5.
  lia.
Qed.

Lemma truncateIfNeeded_length (content : jsstring) (itemCount : Z) :
  (0 <= itemCount < 2 ^ 53)%Z ->
  (Z.of_nat (length (truncateIfNeeded content itemCount))
   <= CHARACTER_LIMIT)%Z.
Proof.
  intros Hcount. unfold truncateIfNeeded.
  destruct (Z.of_nat (length content) <=? CHARACTER_LIMIT)%Z eqn:E.
  - apply Z.leb_le in E. exact E.
  - cbv zeta. rewrite length_app, truncation_notice_length.
    unfold substring0.
    pose proof (firstn_le_length (Z.to_nat (CHARACTER_LIMIT - 500)) content)
      as Hkept.
    pose proof (Number_toString_length Hcount) as Hdigits.
    change (length (Number_toString (CHARACTER_LIMIT - 500))) with 5.
    unfold CHARACTER_LIMIT in *. lia.
Qed.

(** X1 [truncateIfNeeded] (formatter.ts, lines 212-221).  For an item
    count a JavaScript number holds exactly, the returned text never has
    more than [CHARACTER_LIMIT] characters: the 500 characters set aside
    are enough for the notice.  Truncating a second time, with any item
    count, therefore changes nothing. *)
Theorem truncateIfNeeded_within_limit (content : jsstring)
        (itemCount itemCount' : Z) :
  (0 <= itemCount < 2 ^ 53)%Z ->
  (Z.of_nat (length (truncateIfNeeded content itemCount))
   <= CHARACTER_LIMIT)%Z /\
  truncateIfNeeded (truncateIfNeeded content itemCount) itemCount' =
  truncateIfNeeded content itemCount.
Proof.
  intros Hcount.
  pose proof (truncateIfNeeded_length content Hcount) as Hlen.
  split; [exact Hlen|].
  unfold truncateIfNeeded at 1.
  apply Z.leb_le in Hlen. rewrite Hlen. reflexivity.
Qed.

(** ** Shape of the extracted entries *)

Lemma trimStart_idempotent (s : jsstring) :
  trimStart (trimStart s) = trimStart s.
Proof.
  induction s as [|c s IH]; [reflexivity|].
  cbn [trimStart]. destruct (is_space c) eqn:E; [exact IH|].
  cbn [trimStart]. rewrite E. reflexivity.
Qed.

Lemma trimStart_suffix (s : jsstring) : exists a, s = a ++ trimStart s.
Proof.
  induction s as [|c s [a IH]]; [exists []; reflexivity|].
  cbn [trimStart]. destruct (is_space c).
  - exists (c :: a). cbn [app]. congruence.
  - exists []. reflexivity.
Qed.

Lemma trimStart_fixed (s : jsstring) :
  match s with c :: _ => is_space c = false | [] => True end ->
  trimStart s = s.
Proof.
  destruct s as [|c s]; [reflexivity|]. intros E. cbn [trimStart].
  rewrite E. reflexivity.
Qed.

Lemma trimStart_head (s : jsstring) :
  match trimStart s with c :: _ => is_space c = false | [] => True end.
Proof.
  induction s as [|c s IH]; [exact I|].
  cbn [trimStart]. destruct (is_space c) eqn:E; [exact IH|exact E].
Qed.

Lemma trimEnd_prefix (s : jsstring) : exists b, s = trimEnd s ++ b.
Proof.
  unfold trimEnd. destruct (trimStart_suffix (rev s)) as [a Ha].
  exists (rev a). rewrite <- rev_app_distr, <- Ha, rev_involutive.
  reflexivity.
Qed.

Lemma trim_idempotent (s : jsstring) : trim (trim s) = trim s.
Proof.
  unfold trim.
  assert (Hfix : trimStart (trimEnd (trimStart s)) = trimEnd (trimStart s)).
  { apply trimStart_fixed.
    pose proof (trimStart_head s) as Hhead.
    destruct (trimEnd_prefix (trimStart s)) as [b Hb].
    destruct (trimEnd (trimStart s)) as [|c r]; [exact I|].
    rewrite Hb in Hhead. exact Hhead. }
  rewrite Hfix. unfold trimEnd. rewrite rev_involutive, trimStart_idempotent.
  reflexivity.
Qed.

(** A successful query read a file the scanner lists. *)
Lemma getRecentErrors_inr (w : World) (serverName : jsstring) (limit : Z)
      (toolName : option jsstring) (hours : option Z)
      (entries : list LogEntry.t) :
  getRecentErrors w serverName limit toolName hours = inr entries ->
  exists servers p content,
    getAvailableServers w = inr servers /\
    resolve servers serverName = Some p /\
    readFileSync w p = Some content /\
    entries = extracted w p serverName limit toolName hours
                (split_lines content).
Proof.
  unfold getRecentErrors, findLogPath. intros H.
  destruct (getAvailableServers w) as [e|servers] eqn:Es;
    [discriminate|].
  cbn [bind ret] in H.
  destruct (resolve servers serverName) as [[|c p]|] eqn:Er;
    try discriminate.
  destruct (readFileSync w (c :: p)) as [content|] eqn:Ec.
  - rewrite (getErrorsFromTextLog_spec _ _ _ _ _ _ Ec) in H.
    exists servers, (c :: p), content. repeat split; congruence.
  - unfold getErrorsFromTextLog in H. rewrite Ec in H. discriminate.
Qed.

Lemma recentErrors_entry_of (w : World) (serverName : jsstring)
      (limit : Z) (toolName : option jsstring) (hours : option Z)
      (entries : list LogEntry.t) (e : LogEntry.t) :
  getRecentErrors w serverName limit toolName hours = inr entries ->
  In e entries ->
  exists h, e = entry_of serverName h.
Proof.
  intros H He.
  destruct (@getRecentErrors_inr _ _ _ _ _ _ H)
    as (servers & p & content & _ & _ & _ & ->).
  apply extracted_In in He. destruct He as (h & _ & -> & _).
  exists h. reflexivity.
Qed.

Lemma recentErrors_no_stack_trace (w : World) (serverName : jsstring)
      (limit : Z) (toolName : option jsstring) (hours : option Z)
      (entries : list LogEntry.t) (e : LogEntry.t) :
  getRecentErrors w serverName limit toolName hours = inr entries ->
  In e entries -> LogEntry.stack_trace e = None.
Proof.
  intros H He. destruct (@recentErrors_entry_of _ _ _ _ _ _ _ H He) as [h ->].
  reflexivity.
Qed.

(** X2 [getRecentErrors] / [getErrorsFromTextLog] (logService.ts, lines
    73-90 and 208-214).  Every entry returned has the level ERROR
    whatever the case of the level in the file, carries no tool name,
    error code, stack trace or request id, bears the identifier of the
    query as its server name (when that is not empty), and has a message
    without white space at either end. *)
Theorem recentErrors_entry_shape (w : World) (serverName : jsstring)
        (limit : Z) (toolName : option jsstring) (hours : option Z)
        (entries : list LogEntry.t) :
  getRecentErrors w serverName limit toolName hours = inr entries ->
  forall e, In e entries ->
    LogEntry.level e = js "ERROR" /\
    LogEntry.tool_name e = None /\
    LogEntry.error_code e = None /\
    LogEntry.stack_trace e = None /\
    LogEntry.request_id e = None /\
    (serverName <> [] -> LogEntry.server_name e = serverName) /\
    trim (LogEntry.message e) = LogEntry.message e.
Proof.
  intros H e He.
  destruct (@recentErrors_entry_of _ _ _ _ _ _ _ H He) as [h ->].
  unfold entry_of.
  cbn [LogEntry.level LogEntry.tool_name LogEntry.error_code
       LogEntry.stack_trace LogEntry.request_id LogEntry.server_name
       LogEntry.message].
  repeat (split; [reflexivity|]).
  split.
  - intros Hne. destruct serverName; [congruence|reflexivity].
  - unfold joined_message. apply trim_idempotent.
Qed.

(** ** Detail analysis *)

Lemma without_stack_trace_fixed (e : LogEntry.t) :
  LogEntry.stack_trace e = None -> LogEntry.without_stack_trace e = e.
Proof.
  destruct e. cbn. intros ->. reflexivity.
Qed.

Lemma find_split (A : Type) (f : A -> bool) (l : list A) (x : A) :
  find f l = Some x ->
  exists before after,
    l = before ++ x :: after /\ f x = true /\
    forall y, In y before -> f y = false.
Proof.
  induction l as [|a l IH]; [discriminate|].
  cbn [find]. destruct (f a) eqn:E.
  - intros H. inversion H; subst. exists [], l.
    split; [reflexivity|]. split; [exact E|]. intros y [].
  - intros H. destruct (IH H) as (before & after & -> & Hx & Hb).
    exists (a :: before), after. split; [reflexivity|].
    split; [exact Hx|]. intros y [<-|Hy]; [exact E|apply Hb; exact Hy].
Qed.

(** What [analyzeError] returns, once the entries are known to carry no
    stack trace. *)
Lemma analyzeError_unfold (w : World) (serverName errorMessage : jsstring)
      (includeStackTrace : bool) :
  analyzeError w serverName errorMessage includeStackTrace =
  match getRecentErrors w serverName MAX_LOG_SCAN_LIMIT None None with
  | inl e => inl e
  | inr errors =>
      match
        find (fun e => includes (toLowerCase (LogEntry.message e))
                                (toLowerCase errorMessage)) errors
      with
      | None => inr None
      | Some matchingError =>
          let relatedErrors :=
            firstn 5 (filter (same_message_other_time matchingError) errors)
          in
          inr (Some
                 {| ErrorAnalysis.error := matchingError;
                    ErrorAnalysis.root_cause :=
                      fst (generateErrorAnalysis matchingError relatedErrors);
                    ErrorAnalysis.suggested_actions :=
                      snd (generateErrorAnalysis matchingError relatedErrors);
                    ErrorAnalysis.related_errors := relatedErrors |})
      end
  end.
Proof.
  unfold analyzeError.
  destruct (getRecentErrors w serverName MAX_LOG_SCAN_LIMIT None None)
    as [e|errors] eqn:E; [reflexivity|].
  cbn [bind ret].
  destruct (find _ errors) as [matchingError|] eqn:Ef; [|reflexivity].
  destruct includeStackTrace; [reflexivity|].
  cbv zeta.
  assert (Hnone : forall e, In e errors -> LogEntry.stack_trace e = None)
    by (intros e He; apply (@recentErrors_no_stack_trace _ _ _ _ _ _ _ E He)).
  rewrite (without_stack_trace_fixed matchingError)
    by (apply Hnone; apply find_some in Ef; apply Ef).
  replace (map LogEntry.without_stack_trace
             (firstn 5 (filter (same_message_other_time matchingError)
                          errors)))
    with (firstn 5 (filter (same_message_other_time matchingError) errors)).
  { reflexivity. }
  symmetry. erewrite map_ext_in; [apply map_id|].
  intros r Hr. apply without_stack_trace_fixed, Hnone.
  apply In_firstn in Hr. apply filter_In in Hr. apply Hr.
Qed.

(** X3 [analyzeError] (logService.ts, lines 95-133).  The flag
    [includeStackTrace] has no effect on the fields of the result: the
    entries come from the extractor, which never sets a stack trace, so
    there is nothing to strip.  (A field that is absent and a field set
    to [undefined] are one and the same here, as they are for every
    reader of the result in the code.) *)
Theorem analyzeError_ignores_stack_flag (w : World)
        (serverName errorMessage : jsstring) :
  analyzeError w serverName errorMessage true =
  analyzeError w serverName errorMessage false.
Proof.
  rewrite !analyzeError_unfold. reflexivity.
Qed.

(** X4 [analyzeError] (logService.ts, lines 95-133).  A returned analysis
    has for primary error the first entry of the query's result whose
    message includes the searched text whatever the case; its related
    errors are at most five other entries of the result, all with the
    primary's message and a timestamp other than the primary's; root
    cause and actions are those of [generateErrorAnalysis] for them. *)
Theorem analyzeError_invariants (w : World)
        (serverName errorMessage : jsstring) (includeStackTrace : bool)
        (a : ErrorAnalysis.t) :
  analyzeError w serverName errorMessage includeStackTrace = inr (Some a) ->
  exists before after,
    getRecentErrors w serverName MAX_LOG_SCAN_LIMIT None None
    = inr (before ++ ErrorAnalysis.error a :: after) /\
    (forall e, In e before ->
       includes (toLowerCase (LogEntry.message e))
                (toLowerCase errorMessage) = false) /\
    includes (toLowerCase (LogEntry.message (ErrorAnalysis.error a)))
             (toLowerCase errorMessage) = true /\
    length (ErrorAnalysis.related_errors a) <= 5 /\
    (forall r, In r (ErrorAnalysis.related_errors a) ->
       In r (before ++ after) /\
       LogEntry.message r = LogEntry.message (ErrorAnalysis.error a) /\
       LogEntry.timestamp r <> LogEntry.timestamp (ErrorAnalysis.error a)) /\
    (ErrorAnalysis.root_cause a, ErrorAnalysis.suggested_actions a) =
    generateErrorAnalysis (ErrorAnalysis.error a)
      (ErrorAnalysis.related_errors a).
Proof.
  rewrite analyzeError_unfold.
  destruct (getRecentErrors w serverName MAX_LOG_SCAN_LIMIT None None)
    as [e|errors] eqn:E; [discriminate|].
  destruct (find _ errors) as [matchingError|] eqn:Ef; [|discriminate].
  cbv zeta.
  set (related := firstn 5 (filter (same_message_other_time matchingError)
                              errors)).
  assert (Hlen : length related <= 5) by apply firstn_le_length.
  assert (Hrel : forall r, In r related ->
                   In r errors /\
                   same_message_other_time matchingError r = true).
  { intros r Hr. apply In_firstn in Hr. apply filter_In in Hr. exact Hr. }
  clearbody related. intros [= <-].
  cbn [ErrorAnalysis.error ErrorAnalysis.related_errors
       ErrorAnalysis.root_cause ErrorAnalysis.suggested_actions].
  destruct (find_split _ _ Ef) as (before & after & -> & Hx & Hb).
  exists before, after.
  split; [reflexivity|]. split; [exact Hb|]. split; [exact Hx|].
  split; [exact Hlen|].
  split; [|symmetry; apply surjective_pairing].
  intros r Hr. destruct (Hrel r Hr) as [Hin Hsame].
  unfold same_message_other_time in Hsame.
  apply andb_true_iff in Hsame. destruct Hsame as [Hm Ht].
  apply str_eqb_eq in Hm. apply negb_true_iff, str_eqb_neq in Ht.
  split; [|split; assumption].
  apply in_app_iff in Hin. apply in_app_iff.
  destruct Hin as [Hin|[<-|Hin]]; [left; exact Hin| |right; exact Hin].
  congruence.
Qed.

(** X5 [analyzeError] (logService.ts, lines 100-109).  The analysis is
    [null] exactly when the query succeeds and no returned message
    includes the searched text, whatever the case. *)
Theorem analyzeError_null_iff (w : World)
        (serverName errorMessage : jsstring) (includeStackTrace : bool) :
  analyzeError w serverName errorMessage includeStackTrace = inr None <->
  exists errors,
    getRecentErrors w serverName MAX_LOG_SCAN_LIMIT None None = inr errors /\
    forall e, In e errors ->
      includes (toLowerCase (LogEntry.message e))
               (toLowerCase errorMessage) = false.
Proof.
  rewrite analyzeError_unfold.
  destruct (getRecentErrors w serverName MAX_LOG_SCAN_LIMIT None None)
    as [e|errors]; [split; [discriminate|intros (l & H & _); discriminate]|].
  destruct (find _ errors) as [matchingError|] eqn:Ef.
  - split; [discriminate|].
    intros (l & Hl & Hnone). injection Hl as <-.
    apply find_some in Ef. destruct Ef as [Hin Hm].
    rewrite (Hnone _ Hin) in Hm. discriminate.
  - split; [|reflexivity].
    intros _. exists errors. split; [reflexivity|].
    intros e He. apply (find_none _ _ Ef e He).
Qed.

(** ** Markdown formatters *)

Lemma join_app (sep : jsstring) (a b : list jsstring) :
  a <> [] -> b <> [] ->
  join sep (a ++ b) = join sep a ++ sep ++ join sep b.
Proof.
  intros Ha Hb. induction a as [|x a IH]; [congruence|].
  destruct a as [|y a].
  - cbn [app]. destruct b as [|z b]; [congruence|]. reflexivity.
  - change (join sep ((x :: y :: a) ++ b))
      with (x ++ sep ++ join sep ((y :: a) ++ b)).
    rewrite IH by discriminate.
    change (join sep (x :: y :: a)) with (x ++ sep ++ join sep (y :: a)).
    rewrite <- !app_assoc. reflexivity.
Qed.

(** X6 [formatErrorsAsMarkdown] (formatter.ts, lines 11-47).  The
    rendering of a non-empty list of entries never has more than
    [CHARACTER_LIMIT] characters.  The message for an empty list is
    returned whole: it is longer than the limit when the server name
    is. *)
Theorem formatErrorsAsMarkdown_size (errors : list LogEntry.t)
        (serverName : jsstring) :
  (errors <> [] -> (Z.of_nat (length errors) < 2 ^ 53)%Z ->
   (Z.of_nat (length (formatErrorsAsMarkdown errors serverName))
    <= CHARACTER_LIMIT)%Z) /\
  length (formatErrorsAsMarkdown [] serverName) = 55 + length serverName.
Proof.
  split.
  - intros Hne Hlen. destruct errors as [|e errors]; [congruence|].
    unfold formatErrorsAsMarkdown. apply truncateIfNeeded_length. lia.
  - unfold formatErrorsAsMarkdown. rewrite !length_app, !js_length.
    cbn [length String.length]. lia.
Qed.

(** X7 [getRecentErrors] followed by [formatErrorsAsMarkdown] or
    [formatErrorsAsJson] (logService.ts, lines 73-90; formatter.ts, lines
    26-44 and 55-64).  An entry returned by the query is rendered without
    any optional part.  In Markdown it takes four lines: heading, time,
    message and an empty line; the lines for tool, error code and stack
    trace are never printed.  In JSON its object has the four keys
    timestamp, level, server_name and message, and no other. *)
Theorem recentErrors_rendering (w : World) (serverName : jsstring)
        (limit : Z) (toolName : option jsstring) (hours : option Z)
        (entries : list LogEntry.t) :
  getRecentErrors w serverName limit toolName hours = inr entries ->
  forall e, In e entries ->
    (forall i,
        error_block i e =
        [ js "## Error " ++ Number_toString (Z.of_nat i + 1);
          js "- **Time**: " ++ LogEntry.timestamp e;
          js "- **Message**: " ++ LogEntry.message e;
          [] ]) /\
    error_json e =
    JObject [ ("timestamp"%string, JString (LogEntry.timestamp e));
              ("level"%string, JString (js "ERROR"));
              ("server_name"%string, JString (LogEntry.server_name e));
              ("message"%string, JString (LogEntry.message e)) ].
Proof.
  intros H e He.
  destruct (@recentErrors_entry_of _ _ _ _ _ _ _ H He) as [h ->].
  split; [intros i|]; reflexivity.
Qed.

(** X8 [analyzeError] followed by [formatAnalysisAsMarkdown] or
    [formatAnalysisAsJson] (logService.ts, lines 95-133; formatter.ts,
    lines 133-179 and 184-207).  The Markdown rendering of a returned
    analysis never has more than [CHARACTER_LIMIT] characters.  The JSON
    object of a returned analysis has no optional key: the error has the
    keys timestamp, server_name and message, and each related error the
    keys timestamp and message. *)
Theorem analysis_rendering (w : World)
        (serverName errorMessage : jsstring) (includeStackTrace : bool)
        (a : ErrorAnalysis.t) :
  analyzeError w serverName errorMessage includeStackTrace = inr (Some a) ->
  (Z.of_nat (length (formatAnalysisAsMarkdown a)) <= CHARACTER_LIMIT)%Z /\
  analysis_json a =
  JObject
    [ ("root_cause"%string, JString (ErrorAnalysis.root_cause a));
      ("error"%string,
       JObject
         [ ("timestamp"%string,
            JString (LogEntry.timestamp (ErrorAnalysis.error a)));
           ("server_name"%string,
            JString (LogEntry.server_name (ErrorAnalysis.error a)));
           ("message"%string,
            JString (LogEntry.message (ErrorAnalysis.error a))) ]);
      ("suggested_actions"%string,
       JArray (map JString (ErrorAnalysis.suggested_actions a)));
      ("related_errors"%string,
       JArray
         (map (fun e =>
                 JObject
                   [ ("timestamp"%string, JString (LogEntry.timestamp e));
                     ("message"%string, JString (LogEntry.message e)) ])
              (ErrorAnalysis.related_errors a))) ].
Proof.
  rewrite analyzeError_unfold.
  destruct (getRecentErrors w serverName MAX_LOG_SCAN_LIMIT None None)
    as [e|errors] eqn:E; [discriminate|].
  destruct (find _ errors) as [matchingError|] eqn:Ef; [|discriminate].
  cbv zeta.
  set (related := firstn 5 (filter (same_message_other_time matchingError)
                              errors)).
  assert (Hlen : length related <= 5) by apply firstn_le_length.
  assert (Hrel : forall r, In r related -> In r errors).
  { intros r Hr. apply In_firstn in Hr. apply filter_In in Hr. apply Hr. }
  clearbody related. intros [= <-]. split.
  - unfold formatAnalysisAsMarkdown. apply truncateIfNeeded_length.
    cbn [ErrorAnalysis.related_errors]. lia.
  - unfold analysis_json.
    cbn [ErrorAnalysis.error ErrorAnalysis.related_errors
         ErrorAnalysis.root_cause ErrorAnalysis.suggested_actions].
    apply find_some in Ef. destruct Ef as [Hin _].
    destruct (@recentErrors_entry_of _ _ _ _ _ _ _ E Hin) as [h ->].
    cbn [entry_of LogEntry.tool_name LogEntry.stack_trace optional_field app].
    assert (Hmap :
              map related_json related =
              map (fun e =>
                     JObject
                       [ ("timestamp"%string, JString (LogEntry.timestamp e));
                         ("message"%string, JString (LogEntry.message e)) ])
                  related).
    { apply map_ext_in. intros r Hr.
      destruct (@recentErrors_entry_of _ _ _ _ _ _ _ E (Hrel r Hr))
        as [h' ->].
      reflexivity. }
    rewrite Hmap. reflexivity.
Qed.

(** The block of every server is part of the listing. *)
Lemma formatServersAsMarkdown_block (servers : list ServerInfo.t)
        (includeStats : bool) (s : ServerInfo.t) :
  In s servers ->
  includes (formatServersAsMarkdown servers includeStats)
    (js "## " ++ ServerInfo.server_name s ++ [LF] ++
     js "- **Log Path**: `" ++ ServerInfo.log_file_path s ++ js "`" ++ [LF] ++
     js "- **Last Modified**: " ++ ServerInfo.last_modified s ++ [LF])
  = true.
Proof.
  intros Hin. apply in_split in Hin. destruct Hin as (l1 & l2 & ->).
  assert (Hblock : exists tail,
            join [LF] (server_block includeStats s) =
            (js "## " ++ ServerInfo.server_name s ++ [LF] ++
             js "- **Log Path**: `" ++ ServerInfo.log_file_path s ++
             js "`" ++ [LF] ++
             js "- **Last Modified**: " ++ ServerInfo.last_modified s ++
             [LF]) ++ tail).
  { exists (if includeStats then
              js "- **Total Errors**: " ++
              Number_toString (Z.of_nat (ServerInfo.total_errors s)) ++
              [LF] ++
              js "- **Recent Errors (24h)**: " ++
              Number_toString (Z.of_nat (ServerInfo.recent_error_count s)) ++
              [LF]
            else []).
    unfold server_block. destruct includeStats;
      cbn [app join]; rewrite ?app_nil_r;
      repeat (progress (rewrite <- ?app_assoc; cbn [app])); reflexivity. }
  destruct Hblock as [tail Hblock].
  apply includes_spec.
  unfold formatServersAsMarkdown.
  destruct (l1 ++ s :: l2) as [|s0 l0] eqn:El;
    [destruct l1; discriminate|]. rewrite <- El. clear El s0 l0.
  cbv zeta. rewrite flat_map_app. cbn [flat_map].
  set (head := [ js "# Available MCP Servers"; [];
                 js "Found **" ++
                 Number_toString (Z.of_nat (length (l1 ++ s :: l2))) ++
                 js "** server(s) with log files"; [] ]).
  rewrite (app_assoc head), (app_assoc (head ++ _)).
  assert (Hb : server_block includeStats s <> [])
    by (unfold server_block; discriminate).
  assert (Hh : head ++ flat_map (server_block includeStats) l1 <> [])
    by (unfold head; discriminate).
  destruct (flat_map (server_block includeStats) l2) as [|x rest] eqn:Er.
  - rewrite app_nil_r, join_app by assumption. rewrite Hblock.
    exists (join [LF] (head ++ flat_map (server_block includeStats) l1) ++
            [LF]), tail.
    rewrite <- !app_assoc. reflexivity.
  - rewrite join_app;
      [|intros E; apply app_eq_nil in E; destruct E as [E _]; exact (Hh E)
       |discriminate].
    rewrite join_app by assumption. rewrite Hblock.
    exists (join [LF] (head ++ flat_map (server_block includeStats) l1) ++
            [LF]), (tail ++ [LF] ++ join [LF] (x :: rest)).
    rewrite <- !app_assoc. reflexivity.
Qed.

(** ** The listing of the scanner *)

Lemma scan_files_total (w : World) :
  forall files acc,
    (forall f, In f files -> is_log_file f = true ->
               stat_mtime w (path_join DEFAULT_LOG_DIR f) <> None) ->
    scan_files w files acc =
    inr (acc ++ map (describe w) (filter is_log_file files)).
Proof.
  induction files as [|f files IH]; intros acc Hstat.
  - cbn. rewrite app_nil_r. reflexivity.
  - cbn [scan_files filter]. destruct (is_log_file f) eqn:El.
    + destruct (stat_mtime w (path_join DEFAULT_LOG_DIR f)) as [t|] eqn:Et;
        [|exfalso; apply (Hstat f); [left; reflexivity|exact El|exact Et]].
      destruct (file_stats w (path_join DEFAULT_LOG_DIR f))
        as [tot rec] eqn:Es.
      rewrite IH by (intros g Hg; apply Hstat; right; exact Hg).
      rewrite <- app_assoc. cbn [map app]. unfold describe.
      rewrite Et, Es. reflexivity.
    + apply IH. intros g Hg. apply Hstat. right. exact Hg.
Qed.

Lemma scan_files_failure (w : World) (f : jsstring) (after : list jsstring) :
  forall before acc,
    is_log_file f = true ->
    stat_mtime w (path_join DEFAULT_LOG_DIR f) = None ->
    (forall g, In g before -> is_log_file g = true ->
               stat_mtime w (path_join DEFAULT_LOG_DIR g) <> None) ->
    scan_files w (before ++ f :: after) acc =
    inl (FsError (path_join DEFAULT_LOG_DIR f)).
Proof.
  induction before as [|g before IH]; intros acc Hl Hf Hb.
  - cbn [app scan_files]. rewrite Hl, Hf. reflexivity.
  - cbn [app scan_files]. destruct (is_log_file g) eqn:Eg.
    + destruct (stat_mtime w (path_join DEFAULT_LOG_DIR g)) as [t|] eqn:Et;
        [|exfalso; apply (Hb g); [left; reflexivity|exact Eg|exact Et]].
      destruct (file_stats w (path_join DEFAULT_LOG_DIR g)) as [tot rec].
      apply IH; [exact Hl|exact Hf|].
      intros h Hh. apply Hb. right. exact Hh.
    + apply IH; [exact Hl|exact Hf|].
      intros h Hh. apply Hb. right. exact Hh.
Qed.

Lemma filter_length_le_implied (A : Type) (f g : A -> bool) (l : list A) :
  (forall x, f x = true -> g x = true) ->
  length (filter f l) <= length (filter g l).
Proof.
  intros Himp. induction l as [|x l IH]; [apply le_n|].
  cbn [filter]. destruct (f x) eqn:Ef.
  - rewrite (Himp x Ef). cbn [length]. lia.
  - destruct (g x); cbn [length]; lia.
Qed.

(** X9 [getAvailableServers] (logService.ts, lines 13-68).  When the
    directory can be listed and every log file in it can be examined, the
    scan returns one descriptor per file named mcp-server-*.log, in the
    order of the listing, with the derived name and the joined path; the
    other files are skipped.  A file that cannot be read is still listed,
    with both counters at zero, and no descriptor counts more recent
    errors than errors. *)
Theorem scanner_listing (w : World) (files : list jsstring) :
  existsSync w DEFAULT_LOG_DIR = true ->
  readdirSync w DEFAULT_LOG_DIR = Some files ->
  (forall f, In f files -> is_log_file f = true ->
             stat_mtime w (path_join DEFAULT_LOG_DIR f) <> None) ->
  exists servers,
    getAvailableServers w = inr servers /\
    map ServerInfo.server_name servers =
      map derive_server_name (filter is_log_file files) /\
    map ServerInfo.log_file_path servers =
      map (path_join DEFAULT_LOG_DIR) (filter is_log_file files) /\
    forall s, In s servers ->
      ServerInfo.recent_error_count s <= ServerInfo.total_errors s /\
      (readFileSync w (ServerInfo.log_file_path s) = None ->
       ServerInfo.total_errors s = 0 /\ ServerInfo.recent_error_count s = 0).
Proof.
  intros Hex Hdir Hstat.
  exists (map (describe w) (filter is_log_file files)).
  split.
  { unfold getAvailableServers. rewrite Hex, Hdir. cbn [negb].
    rewrite scan_files_total by exact Hstat. reflexivity. }
  rewrite !map_map. split; [reflexivity|]. split; [reflexivity|].
  intros s Hs. apply in_map_iff in Hs. destruct Hs as (f & <- & _).
  unfold describe.
  cbn [ServerInfo.recent_error_count ServerInfo.total_errors
       ServerInfo.log_file_path].
  split.
  - rewrite file_stats_spec. cbn [fst snd].
    apply filter_length_le_implied. intros line Hline.
    unfold recent_error_line in Hline. apply andb_true_iff in Hline.
    apply Hline.
  - intros Hread. unfold file_stats. rewrite Hread. split; reflexivity.
Qed.

(** X10 [getAvailableServers], [getRecentErrors], [analyzeError]
    (logService.ts, lines 22-25, 79 and 100).  A log file of the listing
    that cannot be examined makes the scan throw, and with it every
    query and every analysis, whichever server they name. *)
Theorem unexaminable_file_fails_all (w : World)
        (before after : list jsstring) (f : jsstring) :
  existsSync w DEFAULT_LOG_DIR = true ->
  readdirSync w DEFAULT_LOG_DIR = Some (before ++ f :: after) ->
  is_log_file f = true ->
  stat_mtime w (path_join DEFAULT_LOG_DIR f) = None ->
  (forall g, In g before -> is_log_file g = true ->
             stat_mtime w (path_join DEFAULT_LOG_DIR g) <> None) ->
  getAvailableServers w = inl (FsError (path_join DEFAULT_LOG_DIR f)) /\
  (forall serverName limit toolName hours,
      getRecentErrors w serverName limit toolName hours =
      inl (FsError (path_join DEFAULT_LOG_DIR f))) /\
  (forall serverName errorMessage includeStackTrace,
      analyzeError w serverName errorMessage includeStackTrace =
      inl (FsError (path_join DEFAULT_LOG_DIR f))).
Proof.
  intros Hex Hdir Hl Hf Hb.
  assert (Hscan : getAvailableServers w =
                  inl (FsError (path_join DEFAULT_LOG_DIR f))).
  { unfold getAvailableServers. rewrite Hex, Hdir. cbn [negb].
    apply scan_files_failure; assumption. }
  split; [exact Hscan|]. split.
  - intros. apply getRecentErrors_scan_failure. exact Hscan.
  - intros. unfold analyzeError.
    rewrite (getRecentErrors_scan_failure _ _ _ _ _ Hscan). reflexivity.
Qed.

(** X11 [getAvailableServers], [getRecentErrors], [analyzeError]
    (logService.ts, lines 16-18, 81-86 and 100).  When the log directory
    does not exist the scan returns the empty list without reading
    anything, and every query and analysis throws the not-found error,
    whose list of available servers is empty. *)
Theorem missing_directory (w : World) :
  existsSync w DEFAULT_LOG_DIR = false ->
  getAvailableServers w = inr [] /\
  (forall serverName limit toolName hours,
      getRecentErrors w serverName limit toolName hours =
      inl (JsError (js "Log file not found for server: " ++ serverName ++
                    js ". Available servers: "))) /\
  (forall serverName errorMessage includeStackTrace,
      analyzeError w serverName errorMessage includeStackTrace =
      inl (JsError (js "Log file not found for server: " ++ serverName ++
                    js ". Available servers: "))).
Proof.
  intros Hex.
  assert (Hscan : getAvailableServers w = inr [])
    by (unfold getAvailableServers; rewrite Hex; reflexivity).
  assert (Hquery : forall serverName limit toolName hours,
             getRecentErrors w serverName limit toolName hours =
             inl (JsError (js "Log file not found for server: " ++
                           serverName ++ js ". Available servers: "))).
  { intros. unfold getRecentErrors, findLogPath. rewrite Hscan.
    cbn [bind ret resolve find]. unfold not_found_message.
    cbn [map join]. rewrite app_nil_r. reflexivity. }
  split; [exact Hscan|]. split; [exact Hquery|].
  intros. unfold analyzeError. rewrite Hquery. reflexivity.
Qed.

(** ** Derived names *)

(** The extension literal matches nothing that is longer than four
    characters. *)
Lemma mtch_EXT_RE_long (input : jsstring) (a b c d e : char16)
      (s : jsstring) (caps : captures) :
  mtch input EXT_RE (a :: b :: c :: d :: e :: s) caps final_k = None.
Proof.
  unfold EXT_RE, lit, final_k. cbn [Seqs mtch].
  destruct (chr "." a), (chr "l" b), (chr "o" c), (chr "g" d), (chr "t" b),
    (chr "x" c), (chr "t" d); reflexivity.
Qed.

Lemma search_EXT_RE_log (input : jsstring) :
  forall stem before_rev,
    search_from EXT_RE input before_rev (stem ++ js ".log") =
    Some {| m_before := rev before_rev ++ stem; m_after := [];
            m_caps := [(1, js "log")] |}.
Proof.
  induction stem as [|x stem IH]; intros before_rev.
  - rewrite app_nil_r. reflexivity.
  - assert (Hlong : exists a b c d e s,
               (x :: stem) ++ js ".log" = a :: b :: c :: d :: e :: s).
    { destruct stem as [|y [|z [|u [|v stem]]]]; cbn; eauto 8. }
    destruct Hlong as (a & b & c & d & e & s & Hlong).
    change (search_from EXT_RE input before_rev ((x :: stem) ++ js ".log"))
      with (match mtch input EXT_RE ((x :: stem) ++ js ".log") [] final_k with
            | Some (s', c) =>
                Some {| m_before := rev before_rev; m_after := s';
                        m_caps := c |}
            | None =>
                search_from EXT_RE input (x :: before_rev)
                  (stem ++ js ".log")
            end).
    rewrite Hlong, mtch_EXT_RE_long, IH.
    cbn [rev]. rewrite <- app_assoc. reflexivity.
Qed.

Lemma remove_ext_log (stem : jsstring) :
  regex_remove EXT_RE (stem ++ js ".log") = stem.
Proof.
  unfold regex_remove, regex_exec. rewrite search_EXT_RE_log.
  cbn [m_before m_after rev app]. apply app_nil_r.
Qed.

Lemma after_last_hyphen_app (name : jsstring) :
  ~ In HYPHEN name ->
  forall prefix, after_last_hyphen (prefix ++ HYPHEN :: name) = Some name.
Proof.
  intros Hname.
  assert (Hnone : after_last_hyphen name = None).
  { induction name as [|x name IH]; [reflexivity|].
    cbn [after_last_hyphen].
    rewrite IH by (intros H; apply Hname; right; exact H).
    destruct (N.eqb x HYPHEN) eqn:E; [|reflexivity].
    apply N.eqb_eq in E. exfalso. apply Hname. left. congruence. }
  induction prefix as [|x prefix IH].
  - cbn [app after_last_hyphen]. rewrite Hnone, N.eqb_refl. reflexivity.
  - cbn [app after_last_hyphen]. rewrite IH. reflexivity.
Qed.

Lemma derive_server_name_segment (prefix name : jsstring) :
  no_line_terminator prefix -> no_line_terminator name ->
  ~ In HYPHEN name ->
  derive_server_name (prefix ++ [HYPHEN] ++ name ++ js ".log") = name.
Proof.
  intros Hp Hn Hh. unfold derive_server_name.
  replace (prefix ++ [HYPHEN] ++ name ++ js ".log")
    with ((prefix ++ HYPHEN :: name) ++ js ".log")
    by (rewrite <- app_assoc; reflexivity).
  rewrite remove_ext_log, remove_upto_hyphen.
  - rewrite after_last_hyphen_app by exact Hh. reflexivity.
  - apply Forall_app. split; [exact Hp|].
    constructor; [reflexivity|exact Hn].
Qed.

(** X12 [getAvailableServers] (logService.ts, line 26).  The name derived
    from a log file is what stands between the last hyphen of the file
    name and the extension, and the scanner lists the file under that
    name: mcp-server-github-bot.log is listed as bot. *)
Theorem derive_server_name_last_segment (w : World)
        (servers : list ServerInfo.t) (files : list jsstring)
        (prefix name : jsstring) :
  no_line_terminator prefix -> no_line_terminator name ->
  ~ In HYPHEN name ->
  is_log_file (prefix ++ [HYPHEN] ++ name ++ js ".log") = true ->
  existsSync w DEFAULT_LOG_DIR = true ->
  readdirSync w DEFAULT_LOG_DIR = Some files ->
  In (prefix ++ [HYPHEN] ++ name ++ js ".log") files ->
  getAvailableServers w = inr servers ->
  derive_server_name (prefix ++ [HYPHEN] ++ name ++ js ".log") = name /\
  exists s,
    In s servers /\
    ServerInfo.server_name s = name /\
    ServerInfo.log_file_path s =
    path_join DEFAULT_LOG_DIR (prefix ++ [HYPHEN] ++ name ++ js ".log").
Proof.
  intros Hp Hn Hh Hlog Hex Hdir Hin Hscan.
  pose proof (derive_server_name_segment Hp Hn Hh) as Hname.
  split; [exact Hname|].
  apply getAvailableServers_spec in Hscan.
  destruct Hscan as [[Hno _]|(files' & _ & Hfiles & ->)]; [congruence|].
  rewrite Hdir in Hfiles. injection Hfiles as <-.
  exists (describe w (prefix ++ [HYPHEN] ++ name ++ js ".log")).
  split.
  - apply in_map. apply filter_In. split; [exact Hin|exact Hlog].
  - unfold describe. cbn [ServerInfo.server_name ServerInfo.log_file_path].
    split; [exact Hname|reflexivity].
Qed.

(** ** Resolution *)

Lemma find_drop_duplicate (A : Type) (f : A -> bool) (s1 s2 : A)
      (mid after : list A) :
  f s1 = f s2 ->
  forall before,
    find f (before ++ s1 :: mid ++ s2 :: after) =
    find f (before ++ s1 :: mid ++ after).
Proof.
  intros Heq. induction before as [|x before IH].
  - cbn [app find]. destruct (f s1) eqn:E1; [reflexivity|].
    induction mid as [|y mid IHm].
    + cbn [app find]. rewrite <- Heq. reflexivity.
    + cbn [app find]. destruct (f y); [reflexivity|exact IHm].
  - cbn [app find]. destruct (f x); [reflexivity|exact IH].
Qed.

Lemma resolve_drop_shadowed (w : World)
      (files1 files2 files3 : list jsstring)
      (file1 file2 : jsstring) (serverName : jsstring) :
  is_log_file file1 = true ->
  derive_server_name file1 = derive_server_name file2 ->
  resolve
    (map (describe w)
       (filter is_log_file (files1 ++ file1 :: files2 ++ file2 :: files3)))
    serverName =
  resolve
    (map (describe w)
       (filter is_log_file (files1 ++ file1 :: files2 ++ files3)))
    serverName.
Proof.
  intros Hlog Hname.
  rewrite !filter_app. cbn [filter]. rewrite Hlog, !filter_app.
  cbn [filter]. destruct (is_log_file file2); [|reflexivity].
  rewrite !map_app. cbn [map]. rewrite !map_app. cbn [map].
  unfold resolve. rewrite find_drop_duplicate; [reflexivity|].
  unfold name_matches, describe. cbn [ServerInfo.server_name].
  rewrite Hname. reflexivity.
Qed.

(** X13 [findLogPath] (logService.ts, lines 138-148, with line 26).  Of
    two log files of the listing for which line 26 derives the same
    server name, only the first can be reached: whatever the identifier,
    the resolution is what it would be without the second file, and the
    path of the second file, when it is the path of no other file of the
    listing, is never returned.  Two names without line terminator that
    end in the same segment after their last hyphen are such a pair. *)
Theorem shadowed_log_file (w : World) (files1 files2 files3 : list jsstring)
        (file1 file2 : jsstring) :
  is_log_file file1 = true ->
  derive_server_name file1 = derive_server_name file2 ->
  existsSync w DEFAULT_LOG_DIR = true ->
  readdirSync w DEFAULT_LOG_DIR =
    Some (files1 ++ file1 :: files2 ++ file2 :: files3) ->
  (forall f,
      In f (files1 ++ file1 :: files2 ++ files3) ->
      path_join DEFAULT_LOG_DIR f <> path_join DEFAULT_LOG_DIR file2) ->
  (forall serverName,
      findLogPath w serverName <>
      inr (Some (path_join DEFAULT_LOG_DIR file2)) /\
      (forall servers,
          getAvailableServers w = inr servers ->
          resolve servers serverName =
          resolve
            (map (describe w)
               (filter is_log_file (files1 ++ file1 :: files2 ++ files3)))
            serverName)) /\
  (forall prefix1 prefix2 name,
      no_line_terminator prefix1 -> no_line_terminator prefix2 ->
      no_line_terminator name -> ~ In HYPHEN name ->
      derive_server_name (prefix1 ++ [HYPHEN] ++ name ++ js ".log") =
      derive_server_name (prefix2 ++ [HYPHEN] ++ name ++ js ".log")).
Proof.
  intros Hlog Hname Hex Hdir Hpaths. split.
  2:{ intros prefix1 prefix2 name Hp1 Hp2 Hn Hh.
      rewrite !derive_server_name_segment by assumption. reflexivity. }
  intros serverName.
  assert (Hsame : forall servers,
             getAvailableServers w = inr servers ->
             resolve servers serverName =
             resolve
               (map (describe w)
                  (filter is_log_file
                     (files1 ++ file1 :: files2 ++ files3)))
               serverName).
  { intros servers Hscan. apply getAvailableServers_spec in Hscan.
    destruct Hscan as [[Hno _]|(files & _ & Hfiles & ->)]; [congruence|].
    rewrite Hdir in Hfiles. injection Hfiles as <-.
    apply resolve_drop_shadowed; assumption. }
  split; [|exact Hsame].
  unfold findLogPath.
  destruct (getAvailableServers w) as [e|servers] eqn:Hscan;
    [discriminate|].
  cbn [bind ret]. rewrite (Hsame servers eq_refl). intros Hres.
  injection Hres as Hres. unfold resolve in Hres.
  destruct (find (name_matches serverName) _) as [s|] eqn:Ef;
    [|discriminate].
  injection Hres as Hres. apply find_some in Ef. destruct Ef as [Hin _].
  apply in_map_iff in Hin. destruct Hin as (f & <- & Hf).
  apply filter_In in Hf. destruct Hf as [Hf _].
  apply (Hpaths f Hf). exact Hres.
Qed.

Lemma name_matches_self (s : ServerInfo.t) :
  name_matches (ServerInfo.server_name s) s = true.
Proof.
  unfold name_matches. rewrite str_eqb_refl. reflexivity.
Qed.

(** X14 [findLogPath], [getRecentErrors] (logService.ts, lines 138-148
    and 79-86).  Every name the scanner lists is an identifier that
    resolves, to a listed file whose name matches it; a query under such
    a name never throws the not-found error. *)
Theorem listed_names_resolve (w : World) (servers : list ServerInfo.t)
        (s : ServerInfo.t) :
  getAvailableServers w = inr servers ->
  In s servers ->
  (exists s',
      In s' servers /\
      name_matches (ServerInfo.server_name s) s' = true /\
      findLogPath w (ServerInfo.server_name s) =
      inr (Some (ServerInfo.log_file_path s'))) /\
  forall limit toolName hours msg,
    getRecentErrors w (ServerInfo.server_name s) limit toolName hours
    <> inl (JsError msg).
Proof using path_join_nonempty.
  intros Hscan Hin.
  destruct (find (name_matches (ServerInfo.server_name s)) servers)
    as [s'|] eqn:Ef.
  - assert (Hres : resolve servers (ServerInfo.server_name s) =
                   Some (ServerInfo.log_file_path s'))
      by (unfold resolve; rewrite Ef; reflexivity).
    split.
    + exists s'. apply find_some in Ef. destruct Ef as [Hin' Hm].
      split; [exact Hin'|]. split; [exact Hm|].
      rewrite (@findLogPath_resolve _ _ _ Hscan), Hres. reflexivity.
    + intros limit toolName hours msg.
      rewrite (@getRecentErrors_cases _ _ _ _ _ _ Hscan), Hres.
      destruct (readFileSync w (ServerInfo.log_file_path s'));
        discriminate.
  - exfalso. pose proof (find_none _ _ Ef s Hin) as Hn.
    rewrite name_matches_self in Hn. discriminate.
Qed.

Lemma replace_underscores_hyphen (s : jsstring) :
  In HYPHEN (replace_all_char UNDERSCORE HYPHEN s) ->
  ~ In HYPHEN s -> In UNDERSCORE s.
Proof.
  induction s as [|c s IH]; [intros []|].
  cbn [replace_all_char map]. destruct (N.eqb c UNDERSCORE) eqn:E.
  - intros _ _. left. apply N.eqb_eq in E. congruence.
  - intros [H|H] Hno.
    + exfalso. apply Hno. left. exact H.
    + right. apply IH; [exact H|]. intros Hin. apply Hno. right. exact Hin.
Qed.

(** X15 [findLogPath] (logService.ts, lines 138-148, with line 26).  An
    identifier that holds a hyphen is never the name of a listed server:
    it resolves only through the third comparison, to a server whose name
    holds underscores and becomes the identifier once every underscore is
    written as a hyphen. *)
Theorem hyphenated_identifier_resolution (w : World)
        (servers : list ServerInfo.t) (serverName p : jsstring) :
  getAvailableServers w = inr servers ->
  (forall files file,
      readdirSync w DEFAULT_LOG_DIR = Some files ->
      In file files -> is_log_file file = true ->
      no_line_terminator file) ->
  In HYPHEN serverName ->
  resolve servers serverName = Some p ->
  exists s,
    In s servers /\
    ServerInfo.log_file_path s = p /\
    ServerInfo.server_name s <> serverName /\
    In UNDERSCORE (ServerInfo.server_name s) /\
    replace_all_char UNDERSCORE HYPHEN (ServerInfo.server_name s)
    = serverName.
Proof.
  intros Hscan Hfiles Hid Hres. unfold resolve in Hres.
  destruct (find (name_matches serverName) servers) as [s|] eqn:Ef;
    [|discriminate].
  injection Hres as <-. apply find_some in Ef. destruct Ef as [Hs Hm].
  assert (Hno : ~ In HYPHEN (ServerInfo.server_name s)).
  { apply getAvailableServers_spec in Hscan.
    destruct Hscan as [[_ ->] | (files & _ & Hdir & ->)]; [destruct Hs|].
    apply in_map_iff in Hs. destruct Hs as (file & <- & Hin).
    apply filter_In in Hin. destruct Hin as [Hin Hlog].
    cbn. apply derive_server_name_no_hyphen. eapply Hfiles; eassumption. }
  assert (Hneq : ServerInfo.server_name s <> serverName)
    by (intros E; apply Hno; rewrite E; exact Hid).
  exists s. split; [exact Hs|]. split; [reflexivity|].
  split; [exact Hneq|].
  unfold name_matches in Hm.
  rewrite (@replace_all_char_absent HYPHEN UNDERSCORE _ Hno) in Hm.
  apply str_eqb_neq in Hneq. rewrite Hneq in Hm. cbn [orb] in Hm.
  apply str_eqb_eq in Hm. split; [|exact Hm].
  apply replace_underscores_hyphen; [rewrite Hm; exact Hid|exact Hno].
Qed.

(** ** The limit and the filters *)

(** A successful query reads one file, the same whatever the limit and
    the filters. *)
Lemma getRecentErrors_same_file (w : World) (serverName : jsstring)
      (limit : Z) (toolName : option jsstring) (hours : option Z)
      (entries : list LogEntry.t) :
  getRecentErrors w serverName limit toolName hours = inr entries ->
  exists p content,
    forall limit' toolName' hours',
      getRecentErrors w serverName limit' toolName' hours' =
      inr (extracted w p serverName limit' toolName' hours'
             (split_lines content)).
Proof.
  unfold getRecentErrors, findLogPath. intros H.
  destruct (getAvailableServers w) as [e|servers] eqn:Es;
    [discriminate|].
  cbn [bind ret] in H |- *.
  destruct (resolve servers serverName) as [[|c p]|] eqn:Er;
    try discriminate.
  destruct (readFileSync w (c :: p)) as [content|] eqn:Ec.
  - exists (c :: p), content. intros.
    apply getErrorsFromTextLog_spec. exact Ec.
  - unfold getErrorsFromTextLog in H. rewrite Ec in H. discriminate.
Qed.

(** X16 [getRecentErrors] / [getErrorsFromTextLog] (logService.ts, lines
    73-90, 218 and 222).  The limit stops the scan of the file, which
    runs from its first line on: the result for a smaller limit is the
    tail of the result for a larger one, made of the entries nearest the
    start of the file, and what a larger limit adds comes in front.  A
    limit below one acts as one. *)
Theorem limit_keeps_oldest (w : World) (serverName : jsstring)
        (limit limit' : Z) (toolName : option jsstring) (hours : option Z)
        (entries' : list LogEntry.t) :
  (limit <= limit')%Z ->
  getRecentErrors w serverName limit' toolName hours = inr entries' ->
  (exists newer older,
      entries' = newer ++ older /\
      getRecentErrors w serverName limit toolName hours = inr older) /\
  ((limit <= 1)%Z ->
   getRecentErrors w serverName limit toolName hours =
   getRecentErrors w serverName 1 toolName hours).
Proof.
  intros Hle H.
  destruct (@getRecentErrors_same_file _ _ _ _ _ _ H) as (p & content & Hall).
  rewrite Hall in H. inversion H as [Hentries]. clear H.
  split.
  - rewrite Hall. unfold extracted.
    set (l := filter _ _).
    exists (rev (skipn (Z.to_nat (Z.max 1 limit))
                   (firstn (Z.to_nat (Z.max 1 limit')) l))),
           (rev (firstn (Z.to_nat (Z.max 1 limit)) l)).
    split; [|reflexivity].
    rewrite <- rev_app_distr. f_equal.
    rewrite <- (firstn_skipn (Z.to_nat (Z.max 1 limit))
                  (firstn (Z.to_nat (Z.max 1 limit')) l)) at 1.
    f_equal. rewrite firstn_firstn. f_equal. lia.
  - intros H1. rewrite !Hall. unfold extracted.
    replace (Z.max 1 limit) with (Z.max 1 1) by lia. reflexivity.
Qed.

(** X17 [getRecentErrors] / [getErrorsFromTextLog] (logService.ts, lines
    164, 181 and 203-206).  The filters are sound: with a tool name,
    every returned message includes it whatever the case; with a number
    of hours other than zero, no returned entry has a timestamp that
    parses to a time earlier than the cut-off of the file that was
    read. *)
Theorem filters_sound (w : World) (serverName : jsstring) (limit : Z)
        (toolName : option jsstring) (hours : option Z)
        (entries : list LogEntry.t) :
  getRecentErrors w serverName limit toolName hours = inr entries ->
  exists servers p,
    getAvailableServers w = inr servers /\
    resolve servers serverName = Some p /\
    forall e, In e entries ->
      (forall c t, toolName = Some (c :: t) ->
         includes (toLowerCase (LogEntry.message e)) (toLowerCase (c :: t))
         = true) /\
      (forall h t, hours = Some h -> h <> 0%Z ->
         Date_parse (LogEntry.timestamp e) = Some t ->
         (Date_now w p - h * 60 * 60 * 1000 <= t)%Z).
Proof.
  intros H.
  destruct (@getRecentErrors_inr _ _ _ _ _ _ H)
    as (servers & p & content & Hs & Hr & _ & ->).
  exists servers, p. split; [exact Hs|]. split; [exact Hr|].
  intros e He. apply extracted_In in He.
  destruct He as (h & _ & _ & Hpass).
  unfold passes_filters in Hpass. apply andb_true_iff in Hpass.
  destruct Hpass as [Hhours Htool]. split.
  - intros c t ->. unfold tool_filter_rejects in Htool.
    apply negb_true_iff, negb_false_iff in Htool. exact Htool.
  - intros h0 t -> Hh0 Ht. rewrite Ht in Hhours.
    unfold truthy_num, num_ltb, cutoff_of in Hhours.
    destruct (h0 =? 0)%Z eqn:E0; [apply Z.eqb_eq in E0; congruence|].
    cbn [negb andb] in Hhours. apply negb_true_iff, Z.ltb_ge in Hhours.
    exact Hhours.
Qed.

(** ** Header lines and carriage returns *)

Lemma header_message_blank (ws rest : jsstring) :
  blank ws ->
  header_message (ws ++ rest) =
  if forallb not_line_terminator (dropWhile is_space rest)
  then Some (dropWhile is_space rest) else None.
Proof.
  intros [Hne Hws].
  destruct ws as [|x ws]; [congruence|].
  cbn [forallb] in Hws. apply andb_true_iff in Hws. destruct Hws as [Hx Hws].
  unfold header_message. cbn [app]. rewrite Hx.
  rewrite (dropWhile_app_all is_space ws rest Hws). reflexivity.
Qed.

Lemma dropWhile_before_carriage_return (rest : jsstring) :
  forallb not_line_terminator (dropWhile is_space (rest ++ [13%N])) =
  forallb is_space rest.
Proof.
  induction rest as [|x rest IH]; [reflexivity|].
  cbn [app dropWhile forallb]. destruct (is_space x) eqn:E.
  - exact IH.
  - cbn [andb]. change (x :: rest ++ [13%N]) with ((x :: rest) ++ [13%N]).
    rewrite forallb_app. cbn. apply andb_false_r.
Qed.

(** X18 the header literal of [getErrorsFromTextLog] (logService.ts,
    lines 167-168 and 174).  A line made of a timestamp, a source and a
    level is a header exactly when what follows the blank after the level
    holds no line terminator.  A line that ends in a carriage return, as
    the lines of a file with CRLF line ends do, is therefore a header only
    when nothing but white space follows its level. *)
Theorem header_line_carriage_return
        (ts ws1 source ws2 level ws3 rest : jsstring) :
  zoned_timestamp ts -> blank ws1 -> token source -> blank ws2 ->
  token level -> blank ws3 ->
  is_header (header_line ts ws1 source ws2 level ws3 rest) =
    forallb not_line_terminator (dropWhile is_space rest) /\
  is_header (header_line ts ws1 source ws2 level ws3 (rest ++ [13%N])) =
    forallb is_space rest.
Proof.
  intros Hts H1 Hs H2 Hl H3.
  assert (Hgen : forall r,
             is_header (header_line ts ws1 source ws2 level ws3 r) =
             forallb not_line_terminator (dropWhile is_space r)).
  { intros r. unfold is_header, regex_test. rewrite header_exec_spec.
    unfold parse_header, header_line.
    rewrite header_timestamp_app by exact Hts.
    rewrite bracketed_app by assumption.
    rewrite bracketed_app by assumption.
    rewrite header_message_blank by assumption.
    destruct (forallb not_line_terminator (dropWhile is_space r));
      reflexivity. }
  split; [apply Hgen|].
  rewrite Hgen. apply dropWhile_before_carriage_return.
Qed.

(** ** Priority of the rules *)

Lemma first_match_nth
      (rules : list (list jsstring * (jsstring * list jsstring)))
      (message : jsstring) :
  first_match rules message =
  nth (first_index rules message) (map snd rules) UNKNOWN_ERROR.
Proof.
  induction rules as [|[kws res] rules IH]; [reflexivity|].
  cbn [first_match first_index map]. destruct (triggers message kws).
  - reflexivity.
  - cbn [nth snd]. exact IH.
Qed.

Lemma triggers_app (a message b : jsstring) (keywords : list jsstring) :
  triggers message keywords = true ->
  triggers (a ++ message ++ b) keywords = true.
Proof.
  unfold triggers. intros H. apply existsb_exists in H.
  destruct H as (k & Hk & Hinc). apply existsb_exists. exists k.
  split; [exact Hk|].
  apply includes_spec in Hinc. destruct Hinc as (x & y & ->).
  apply includes_spec. exists (a ++ x), (y ++ b).
  rewrite <- !app_assoc. reflexivity.
Qed.

(** X19 the chain of [generateErrorAnalysis] (logService.ts, lines
    237-337).  The chain returns the result of the first rule, in the
    order of the source, that the message triggers.  Text added before or
    after a message can only move it to an earlier rule: it never turns a
    recognised cause into the unknown one. *)
Theorem classify_priority_monotone (a message b : jsstring) :
  classify message =
    nth (first_index RULES message) (map snd RULES) UNKNOWN_ERROR /\
  first_index RULES (a ++ message ++ b) <= first_index RULES message /\
  (classify message <> UNKNOWN_ERROR ->
   classify (a ++ message ++ b) <> UNKNOWN_ERROR).
Proof.
  assert (Hmono : forall rules,
             first_index rules (a ++ message ++ b)
             <= first_index rules message).
  { induction rules as [|[kws res] rules IH]; [apply le_n|].
    cbn [first_index].
    destruct (triggers message kws) eqn:E.
    - rewrite (@triggers_app a message b kws E). apply le_n.
    - destruct (triggers (a ++ message ++ b) kws); lia. }
  split; [rewrite classify_first_match; apply first_match_nth|].
  split; [apply Hmono|].
  rewrite !classify_first_match, !first_match_nth.
  pose proof (Hmono RULES) as Hle.
  set (i := first_index RULES message) in *.
  set (j := first_index RULES (a ++ message ++ b)) in *.
  clearbody i j. intros Hi.
  assert (Hlt : i < 8).
  { destruct (Nat.lt_ge_cases i 8) as [Hlt|Hge]; [exact Hlt|].
    exfalso. apply Hi. apply nth_overflow. exact Hge. }
  assert (Hj : j < 8) by lia. clear - Hj.
  do 8 (destruct j as [|j]; [intros H; vm_compute in H; discriminate|]).
  lia.
Qed.

Lemma first_match_RULES_cases (message : jsstring) :
  first_match RULES message = UNKNOWN_ERROR \/
  (snd (first_match RULES message) <> [] /\
   fst (first_match RULES message) <> js "Unknown error occurred").
Proof.
  unfold RULES. cbn [first_match].
  repeat match goal with
         | |- context [if triggers ?m ?k then _ else _] =>
             destruct (triggers m k);
             [right; split; intros H; vm_compute in H; discriminate|]
         end.
  left. reflexivity.
Qed.

(** X20 [generateErrorAnalysis] (logService.ts, lines 228-351).  The
    list of suggested actions is empty in one case only: the cause is
    the unknown one and there are one or two related errors.  In every
    other case at least one action is suggested. *)
Theorem no_suggested_action_iff (e : LogEntry.t)
        (related : list LogEntry.t) :
  snd (generateErrorAnalysis e related) = [] <->
  fst (generateErrorAnalysis e related) = js "Unknown error occurred" /\
  (length related = 1 \/ length related = 2).
Proof.
  rewrite generateErrorAnalysis_table. cbn [fst snd].
  set (res := first_match RULES (toLowerCase (LogEntry.message e))).
  assert (Hres : res = UNKNOWN_ERROR \/
                 (snd res <> [] /\ fst res <> js "Unknown error occurred"))
    by apply first_match_RULES_cases.
  clearbody res. unfold post_process.
  destruct (length related) as [|[|[|n]]]; cbn [Nat.ltb Nat.leb Nat.eqb].
  - split.
    + intros H. apply app_eq_nil in H. destruct H; discriminate.
    + intros [_ [H|H]]; discriminate.
  - split.
    + intros H. destruct Hres as [->|[Hs _]]; [|congruence].
      split; [reflexivity|left; reflexivity].
    + intros [H _]. destruct Hres as [->|[_ Hf]]; [reflexivity|congruence].
  - split.
    + intros H. destruct Hres as [->|[Hs _]]; [|congruence].
      split; [reflexivity|right; reflexivity].
    + intros [H _]. destruct Hres as [->|[_ Hf]]; [reflexivity|congruence].
  - split.
    + discriminate.
    + intros [_ [H|H]]; discriminate.
Qed.

(** ** Shape of the returned timestamps *)

Lemma has_shape_split (shape : list (char16 -> bool)) (s : jsstring) :
  has_shape shape s = true ->
  exists a b,
    s = a ++ b /\ length a = length shape /\ has_shape shape a = true.
Proof.
  intros H. exists (firstn (length shape) s), (skipn (length shape) s).
  pose proof (has_shape_length _ _ H) as Hlen.
  assert (Hl : length (firstn (length shape) s) = length shape)
    by (rewrite length_firstn; lia).
  split; [symmetry; apply firstn_skipn|]. split; [exact Hl|].
  rewrite <- (has_shape_app shape _ (skipn (length shape) s) Hl).
  rewrite firstn_skipn. exact H.
Qed.

Lemma header_timestamp_zoned (line ts r : jsstring) :
  header_timestamp line = Some (ts, r) ->
  zoned_timestamp ts /\ line = ts ++ r.
Proof.
  unfold header_timestamp.
  destruct (has_shape DATE_TIME_SHAPE_I line) eqn:Hdt; [|discriminate].
  destruct (has_shape_split _ _ Hdt) as (dt & t1 & -> & Hlen & Hdt').
  change (length DATE_TIME_SHAPE_I) with 19 in Hlen.
  rewrite (skipn_exact dt t1 Hlen).
  destruct (has_shape MILLIS_SHAPE t1) eqn:Hms.
  - destruct (has_shape_split _ _ Hms) as (ms & t2 & -> & Hl4 & Hms').
    change (length MILLIS_SHAPE) with 4 in Hl4.
    assert (Hl : length (dt ++ ms) = 23)
      by (rewrite length_app, Hlen, Hl4; reflexivity).
    replace (dt ++ ms ++ t2) with ((dt ++ ms) ++ t2)
      by (rewrite <- app_assoc; reflexivity).
    rewrite (skipn_exact _ _ Hl).
    destruct t2 as [|z t2]; [discriminate|]. cbn [has_shape].
    destruct (chr_i "z" "Z" z) eqn:Hz; [|discriminate]. cbn [andb].
    replace ((dt ++ ms) ++ z :: t2) with ((dt ++ ms ++ [z]) ++ t2)
      by (rewrite <- !app_assoc; reflexivity).
    assert (Hl' : length (dt ++ ms ++ [z]) = 24)
      by (rewrite !length_app, Hlen, Hl4; reflexivity).
    rewrite (firstn_exact _ _ Hl'), (skipn_exact _ _ Hl').
    intros [= <- <-]. split; [|reflexivity].
    exists dt, ms, z. repeat split; auto.
  - rewrite (skipn_exact dt t1 Hlen).
    destruct t1 as [|z t1]; [discriminate|]. cbn [has_shape].
    destruct (chr_i "z" "Z" z) eqn:Hz; [|discriminate]. cbn [andb].
    replace (dt ++ z :: t1) with ((dt ++ [z]) ++ t1)
      by (rewrite <- app_assoc; reflexivity).
    assert (Hl : length (dt ++ [z]) = 20)
      by (rewrite length_app, Hlen; reflexivity).
    rewrite (firstn_exact _ _ Hl), (skipn_exact _ _ Hl).
    intros [= <- <-]. split; [|reflexivity].
    exists dt, [], z. repeat split; auto.
Qed.

(** X21 [getRecentErrors] / the header literal (logService.ts, lines
    167-168 and 209).  Every returned timestamp has the shape of the
    header literal: date and time, the milliseconds or nothing, and a
    final Z (or z). *)
Theorem recentErrors_timestamp_shape (w : World) (serverName : jsstring)
        (limit : Z) (toolName : option jsstring) (hours : option Z)
        (entries : list LogEntry.t) :
  getRecentErrors w serverName limit toolName hours = inr entries ->
  forall e, In e entries -> zoned_timestamp (LogEntry.timestamp e).
Proof.
  intros H e He.
  destruct (@getRecentErrors_inr _ _ _ _ _ _ H)
    as (servers & p & content & _ & _ & _ & ->).
  apply extracted_In in He. destruct He as ([m body] & Hh & -> & _).
  apply error_headers_In in Hh.
  destruct Hh as (before & line & after & _ & Hm & _ & _).
  rewrite header_exec_spec in Hm. unfold parse_header in Hm.
  destruct (header_timestamp line) as [[ts r1]|] eqn:Ets; [|discriminate].
  destruct (bracketed r1) as [[source r2]|]; [|discriminate].
  destruct (bracketed r2) as [[level r3]|]; [|discriminate].
  destruct (header_message r3) as [rest|]; [|discriminate].
  inversion Hm; subst m. cbn.
  apply header_timestamp_zoned in Ets. apply Ets.
Qed.

(** ** The tools *)

(** X22 [get_server_list] with [formatServersAsMarkdown]
    (tools, [execute]; formatter.ts, lines 74-103).  When the log
    directory does not exist the tool answers, without an error, that no
    server was found.  When the scan succeeds the Markdown listing is
    never cut: the block of every server, with its heading, its path and
    its modification time, is part of the text, which is at least as
    long as the name and the path of any server taken together.  When the scan throws,
    the answer is an error whose text starts with the words of the
    tool. *)
Theorem get_server_list_response (w : World) (params : ListServersInput.t) :
  ListServersInput.response_format params = MARKDOWN ->
  (existsSync w DEFAULT_LOG_DIR = false ->
   get_server_list w params =
   {| ToolResponse.isError := false;
      ToolResponse.text :=
        js "# No MCP Servers Found" ++ [LF; LF] ++
        js "No MCP server log files found in the configured directory." |}) /\
  (forall servers s,
      getAvailableServers w = inr servers -> In s servers ->
      ToolResponse.isError (get_server_list w params) = false /\
      includes (ToolResponse.text (get_server_list w params))
        (js "## " ++ ServerInfo.server_name s ++ [LF] ++
         js "- **Log Path**: `" ++ ServerInfo.log_file_path s ++ js "`" ++
         [LF] ++
         js "- **Last Modified**: " ++ ServerInfo.last_modified s ++ [LF])
      = true /\
      length (ServerInfo.server_name s) + length (ServerInfo.log_file_path s)
      <= length (ToolResponse.text (get_server_list w params))) /\
  (forall error,
      getAvailableServers w = inl error ->
      ToolResponse.isError (get_server_list w params) = true /\
      startsWith (ToolResponse.text (get_server_list w params))
        (js "Error listing servers: ") = true).
Proof.
  intros Hfmt. unfold get_server_list. rewrite Hfmt. split; [|split].
  - intros Hex. unfold getAvailableServers. rewrite Hex. reflexivity.
  - intros servers s Hscan Hin. rewrite Hscan.
    cbn [ToolResponse.isError ToolResponse.text].
    split; [reflexivity|].
    pose proof (@formatServersAsMarkdown_block servers
                  (ListServersInput.include_stats params) s Hin) as Hblock.
    split; [exact Hblock|].
    apply includes_spec in Hblock. destruct Hblock as (x & y & ->).
    rewrite !length_app. lia.
  - intros error Hscan. rewrite Hscan.
    cbn [ToolResponse.isError ToolResponse.text].
    split; [reflexivity|]. apply startsWith_spec. eexists. reflexivity.
Qed.

(** X23 [get_recent_errors] with [getRecentErrors],
    [formatErrorsAsMarkdown] and [formatErrorsAsJson] (tools, [execute];
    logService.ts, lines 73-90; formatter.ts, lines 11-69).  For
    arguments that satisfy the schema, the tool answers either with an
    error whose text is the words of the tool and the message thrown, or
    with the rendering of at most [limit] entries.  That rendering has at
    most [CHARACTER_LIMIT] characters, unless it is the Markdown message
    for no entry, which is returned whole. *)
Theorem get_recent_errors_response (w : World)
        (params : GetRecentErrorsInput.t) :
  GetRecentErrorsInputSchema params = true ->
  (exists error,
      getRecentErrors w (GetRecentErrorsInput.server_name params)
        (GetRecentErrorsInput.limit params)
        (GetRecentErrorsInput.tool_name params)
        (GetRecentErrorsInput.hours params) = inl error /\
      get_recent_errors w params =
      {| ToolResponse.isError := true;
         ToolResponse.text :=
           js "Error retrieving logs: " ++ message_of error |}) \/
  (exists errors,
      getRecentErrors w (GetRecentErrorsInput.server_name params)
        (GetRecentErrorsInput.limit params)
        (GetRecentErrorsInput.tool_name params)
        (GetRecentErrorsInput.hours params) = inr errors /\
      ToolResponse.isError (get_recent_errors w params) = false /\
      (Z.of_nat (length errors) <= GetRecentErrorsInput.limit params)%Z /\
      (errors = [] ->
       GetRecentErrorsInput.response_format params = MARKDOWN ->
       ToolResponse.text (get_recent_errors w params) =
       js "# No Errors Found" ++ [LF; LF] ++
       js "No error logs found for server: **" ++
       GetRecentErrorsInput.server_name params ++ js "**") /\
      (errors <> [] \/ GetRecentErrorsInput.response_format params = JSON ->
       (Z.of_nat (length (ToolResponse.text (get_recent_errors w params)))
        <= CHARACTER_LIMIT)%Z)).
Proof.
  intros Hschema. unfold GetRecentErrorsInputSchema in Hschema.
  apply andb_true_iff in Hschema. destruct Hschema as [Hschema _].
  apply andb_true_iff in Hschema. destruct Hschema as [Hschema Hmax].
  apply andb_true_iff in Hschema. destruct Hschema as [_ Hmin].
  apply Z.leb_le in Hmin, Hmax.
  unfold get_recent_errors.
  destruct (getRecentErrors w (GetRecentErrorsInput.server_name params)
              (GetRecentErrorsInput.limit params)
              (GetRecentErrorsInput.tool_name params)
              (GetRecentErrorsInput.hours params)) as [error|errors] eqn:E.
  - left. exists error. split; reflexivity.
  - right. exists errors. split; [reflexivity|].
    cbn [ToolResponse.isError ToolResponse.text].
    split; [reflexivity|].
    assert (Hlen : (Z.of_nat (length errors)
                    <= GetRecentErrorsInput.limit params)%Z).
    { destruct (@getRecentErrors_inr _ _ _ _ _ _ E)
        as (servers & p & content & _ & _ & _ & ->).
      etransitivity; [apply extracted_length|]. lia. }
    assert (Hcount : (0 <= Z.of_nat (length errors) < 2 ^ 53)%Z).
    { change (2 ^ 53)%Z with 9007199254740992%Z. lia. }
    split; [exact Hlen|]. split.
    + intros -> ->. reflexivity.
    + intros Hcase.
      destruct (GetRecentErrorsInput.response_format params) eqn:Ef.
      * destruct Hcase as [Hne|Hjson]; [|discriminate].
        destruct errors as [|e errors]; [congruence|].
        unfold formatErrorsAsMarkdown.
        apply truncateIfNeeded_length. exact Hcount.
      * unfold formatErrorsAsJson. apply truncateIfNeeded_length.
        exact Hcount.
Qed.

(** X24 [get_error_details] with [analyzeError] (getErrorDetails.ts,
    lines 19-64; logService.ts, lines 95-133).  Whatever the directory
    holds, the argument [include_stack_trace] never changes the answer.
    A search that matches no entry is answered without an error, by the
    text of line 33, which starts with the words No error found
    matching.  Once the directory scan has succeeded, an identifier that
    resolves to no file is answered with an error whose text is the
    words of the tool followed by the not-found message. *)
Theorem get_error_details_response (w : World)
        (params : GetErrorDetailsInput.t) :
  (forall flag,
      get_error_details w
        {| GetErrorDetailsInput.server_name :=
             GetErrorDetailsInput.server_name params;
           GetErrorDetailsInput.error_message :=
             GetErrorDetailsInput.error_message params;
           GetErrorDetailsInput.include_stack_trace := flag;
           GetErrorDetailsInput.response_format :=
             GetErrorDetailsInput.response_format params |} =
      get_error_details w params) /\
  (analyzeError w (GetErrorDetailsInput.server_name params)
     (GetErrorDetailsInput.error_message params)
     (GetErrorDetailsInput.include_stack_trace params) = inr None ->
   get_error_details w params =
   {| ToolResponse.isError := false;
      ToolResponse.text :=
        js "No error found matching " ++ [34%N] ++
        GetErrorDetailsInput.error_message params ++ [34%N] ++
        js " in " ++ GetErrorDetailsInput.server_name params ++
        js " logs. Try using get_recent_errors first to see available" ++
        js " errors." |} /\
   startsWith (ToolResponse.text (get_error_details w params))
     (js "No error found matching ") = true) /\
  (forall servers,
      getAvailableServers w = inr servers ->
      resolve servers (GetErrorDetailsInput.server_name params) = None ->
      get_error_details w params =
      {| ToolResponse.isError := true;
         ToolResponse.text :=
           js "Error analyzing error details: " ++
           not_found_message (GetErrorDetailsInput.server_name params)
             servers |}).
Proof using path_join_nonempty.
  split; [|split].
  - intros flag. unfold get_error_details.
    cbn [GetErrorDetailsInput.server_name GetErrorDetailsInput.error_message
         GetErrorDetailsInput.include_stack_trace
         GetErrorDetailsInput.response_format].
    rewrite !analyzeError_unfold. reflexivity.
  - intros Hnone. unfold get_error_details. rewrite Hnone.
    split; [reflexivity|].
    cbn [ToolResponse.text]. apply startsWith_spec. eexists. reflexivity.
  - intros servers Hscan Hres. unfold get_error_details, analyzeError.
    rewrite (@getRecentErrors_cases _ _ _ _ _ _ Hscan), Hres.
    reflexivity.
Qed.

(** ** Blank lines *)

Lemma split_lines_cons (s : jsstring) :
  exists l ls, split_lines s = l :: ls.
Proof.
  destruct s as [|c s]; [exists [], []; reflexivity|].
  cbn [split_lines]. destruct (N.eqb c LF); [eauto|].
  destruct (split_lines s); eauto.
Qed.

Lemma split_lines_no_LF (s : jsstring) :
  Forall (fun l => ~ In LF l) (split_lines s).
Proof.
  induction s as [|c s IH]; [repeat constructor; intros []|].
  cbn [split_lines]. destruct (N.eqb c LF) eqn:E.
  - constructor; [intros []|exact IH].
  - apply N.eqb_neq in E.
    destruct (split_lines s) as [|l ls].
    + constructor; [|constructor]. intros [H|[]]. congruence.
    + inversion IH as [|? ? Hl Hls]; subst. constructor; [|exact Hls].
      intros [H|H]; [congruence|exact (Hl H)].
Qed.

(** Splitting at the line feeds what was joined with line feeds gives the
    parts back. *)
Lemma split_lines_join (parts : list jsstring) :
  parts <> [] -> Forall (fun l => ~ In LF l) parts ->
  split_lines (join [LF] parts) = parts.
Proof.
  assert (Hone : forall p rest,
             ~ In LF p ->
             split_lines (p ++ LF :: rest) = p :: split_lines rest).
  { induction p as [|c p IHp]; intros rest Hp.
    - cbn [app split_lines]. rewrite N.eqb_refl. reflexivity.
    - cbn [app split_lines].
      destruct (N.eqb c LF) eqn:E;
        [apply N.eqb_eq in E; exfalso; apply Hp; left; congruence|].
      rewrite IHp by (intros H; apply Hp; right; exact H). reflexivity. }
  assert (Hlast : forall p, ~ In LF p -> split_lines p = [p]).
  { induction p as [|c p IHp]; intros Hp; [reflexivity|].
    cbn [split_lines].
    destruct (N.eqb c LF) eqn:E;
      [apply N.eqb_eq in E; exfalso; apply Hp; left; congruence|].
    rewrite IHp by (intros H; apply Hp; right; exact H). reflexivity. }
  induction parts as [|p parts IH]; [congruence|].
  intros _ Hall. inversion Hall as [|? ? Hp Hparts]; subst.
  destruct parts as [|q parts].
  - cbn [join]. apply Hlast. exact Hp.
  - change (join [LF] (p :: q :: parts))
      with (p ++ LF :: join [LF] (q :: parts)).
    rewrite Hone by exact Hp. rewrite IH by (try discriminate; exact Hparts).
    reflexivity.
Qed.

Lemma split_lines_blank (a b : jsstring) :
  In [] (tl (split_lines (a ++ LF :: LF :: b))).
Proof.
  induction a as [|c a IH].
  - cbn [app split_lines]. rewrite !N.eqb_refl. cbn [tl].
    left. reflexivity.
  - cbn [app split_lines]. destruct (N.eqb c LF).
    + cbn [tl]. destruct (split_lines (a ++ LF :: LF :: b)) as [|l ls];
        [destruct IH|]. right. exact IH.
    + destruct (split_lines (a ++ LF :: LF :: b)) as [|l ls];
        [destruct IH|]. exact IH.
Qed.

Lemma trim_infix (s : jsstring) : exists a b, s = a ++ trim s ++ b.
Proof.
  unfold trim. destruct (trimStart_suffix s) as [a Ha].
  destruct (trimEnd_prefix (trimStart s)) as [b Hb].
  exists a, b. rewrite <- Hb. exact Ha.
Qed.

Lemma joined_message_no_blank_line (first : jsstring) (body : list jsstring) :
  ~ In LF first -> Forall (fun l => ~ In LF l) body ->
  includes (joined_message first body) [LF; LF] = false.
Proof.
  intros Hfirst Hbody. apply not_true_iff_false. intros H.
  apply includes_spec in H. destruct H as (x & y & H).
  unfold joined_message in H.
  remember (filter nonempty (first :: body)) as parts eqn:Ep.
  assert (Hfree : Forall (fun l => ~ In LF l) parts).
  { subst parts. apply Forall_forall. intros l Hl. apply filter_In in Hl.
    destruct Hl as [[<-|Hl] _]; [exact Hfirst|].
    rewrite Forall_forall in Hbody. apply Hbody. exact Hl. }
  assert (Hfull : ~ In [] parts).
  { subst parts. intros Hin. apply filter_In in Hin.
    destruct Hin as [_ Hin]. discriminate. }
  clear Ep.
  destruct (trim_infix (join [LF] parts)) as (a & b & Hj).
  rewrite H in Hj.
  assert (Hj' : join [LF] parts = (a ++ x) ++ LF :: LF :: (y ++ b))
    by (rewrite Hj, <- !app_assoc; reflexivity).
  destruct parts as [|p parts'].
  - cbn [join] in Hj'. symmetry in Hj'. apply app_eq_nil in Hj'.
    destruct Hj' as [_ Hj']. discriminate.
  - assert (Hne : p :: parts' <> []) by discriminate.
    pose proof (split_lines_join Hne Hfree) as Hsplit.
    rewrite Hj' in Hsplit.
    pose proof (split_lines_blank (a ++ x) (y ++ b)) as Hblank.
    rewrite Hsplit in Hblank. cbn [tl] in Hblank.
    apply Hfull. right. exact Hblank.
Qed.

Lemma body_lines_incl (rest : list jsstring) (l : jsstring) :
  In l (body_lines rest) -> In l rest.
Proof.
  induction rest as [|x rest IH]; [intros []|].
  cbn [body_lines]. destruct (is_header x); [intros []|].
  intros [<-|H]; [left; reflexivity|right; exact (IH H)].
Qed.

(** X25 [getRecentErrors] / [getErrorsFromTextLog] (logService.ts, lines
    184-200).  No returned message holds an empty line: the empty lines
    of the file are dropped before the lines of an entry are joined. *)
Theorem recentErrors_message_no_blank_line (w : World)
        (serverName : jsstring) (limit : Z) (toolName : option jsstring)
        (hours : option Z) (entries : list LogEntry.t) :
  getRecentErrors w serverName limit toolName hours = inr entries ->
  forall e, In e entries ->
    includes (LogEntry.message e) [LF; LF] = false.
Proof.
  intros H e He.
  destruct (@getRecentErrors_inr _ _ _ _ _ _ H)
    as (servers & p & content & _ & _ & _ & ->).
  apply extracted_In in He. destruct He as ([m body] & Hh & -> & _).
  apply error_headers_In in Hh.
  destruct Hh as (before & line & after & Hlines & Hm & _ & ->).
  cbn [entry_of LogEntry.message fst snd].
  apply joined_message_no_blank_line.
  - rewrite header_exec_spec in Hm. unfold parse_header in Hm.
    destruct (header_timestamp line) as [[ts r1]|]; [|discriminate].
    destruct (bracketed r1) as [[source r2]|]; [|discriminate].
    destruct (bracketed r2) as [[level r3]|]; [|discriminate].
    destruct (header_message r3) as [rest|] eqn:Er; [|discriminate].
    inversion Hm; subst m. cbn.
    unfold header_message in Er. destruct r3 as [|c r3]; [discriminate|].
    destruct (is_space c); [|discriminate].
    destruct (forallb not_line_terminator (dropWhile is_space r3)) eqn:Ef;
      [|discriminate].
    inversion Er; subst rest. intros Hin.
    rewrite forallb_forall in Ef. specialize (Ef LF Hin). discriminate.
  - pose proof (split_lines_no_LF content) as Hall.
    rewrite Hlines in Hall. rewrite Forall_forall in Hall |- *.
    intros l Hl. apply Hall. apply in_or_app. right. right.
    apply body_lines_incl. exact Hl.
Qed.

End LogService.

(** ** The properties on the example environment *)

Lemma ex_toLowerCase_ascii :
  forall s, forallb is_ascii s = true -> ex_toLowerCase s = map ascii_lower s.
Proof. reflexivity. Qed.

Lemma ex_path_join_nonempty : forall d f, ex_path_join d f <> [].
Proof.
  intros d f. unfold ex_path_join. destruct d; discriminate.
Qed.

(** *** Truncation *)


(** *** Classifier *)

Lemma classifier_spec_witness :
  generateErrorAnalysis ex_toLowerCase
    (entry_of [] (forbidden_match, [])) []
  = (js "Permission or authorization error",
     post_process 0 (snd PERMISSION_ERROR)).
Proof.
  apply (proj1 (@classifier_spec ex_toLowerCase ex_toLowerCase_ascii)).
  vm_compute. reflexivity.
Defined.

(** *** Resolution *)


(** *** Scanner *)

Lemma scanner_names_no_hyphen_witness :
  exists servers,
    getAvailableServers ex_Date_parse ex_path_join ex_dir ex_world
    = inr servers /\
    forall s, In s servers -> ~ In HYPHEN (ServerInfo.server_name s).
Proof.
  destruct (getAvailableServers ex_Date_parse ex_path_join ex_dir ex_world)
    as [e|servers] eqn:E; [vm_compute in E; discriminate|].
  exists servers. split; [reflexivity|].
  intros s Hs.
  refine (proj1 (@scanner_names_no_hyphen _ _ _ _ _ E _ s Hs)).
  intros files file Hf Hin _. vm_compute in Hf. inversion Hf; subst.
  repeat (destruct Hin as [<-|Hin];
          [repeat constructor|]).
  destruct Hin.
Defined.

Lemma scanner_names_hyphen_counterexample :
  ~ (forall (Date_parse : jsstring -> option Z)
            (path_join : jsstring -> jsstring -> jsstring)
            (dir : jsstring) (w : World) (servers : list ServerInfo.t),
        getAvailableServers Date_parse path_join dir w = inr servers ->
        forall s, In s servers ->
          ~ In HYPHEN (ServerInfo.server_name s) /\
          forall serverName,
            str_eqb (replace_all_char HYPHEN UNDERSCORE
                       (ServerInfo.server_name s)) serverName = true ->
            str_eqb (ServerInfo.server_name s) serverName = true).
Proof.
  intros H.
  destruct (getAvailableServers ex_Date_parse ex_path_join ex_dir
              newline_world) as [e|servers] eqn:E;
    [vm_compute in E; discriminate|].
  pose proof (H _ _ _ _ _ E) as Hs.
  vm_compute in E. inversion E; subst. clear E.
  destruct (Hs _ (or_introl eq_refl)) as [Hno _].
  apply Hno. vm_compute. right. right. left. reflexivity.
Defined.

Lemma scanner_counts_witness :
  exists s,
    ServerInfo.server_name s = js "slack" /\
    ServerInfo.total_errors s = 4 /\
    ServerInfo.recent_error_count s = 3 /\
    ServerInfo.total_errors s =
      length (filter has_error_word
                (physical_lines ex_world (ServerInfo.log_file_path s))) /\
    ServerInfo.recent_error_count s =
      length (filter
                (error_line_within_last_24h ex_Date_parse
                   (Date_now ex_world (ServerInfo.log_file_path s)))
                (physical_lines ex_world (ServerInfo.log_file_path s))).
Proof.
  destruct (getAvailableServers ex_Date_parse ex_path_join ex_dir ex_world)
    as [e|servers] eqn:E; [vm_compute in E; discriminate|].
  destruct servers as [|s servers]; [vm_compute in E; discriminate|].
  exists s.
  destruct (@scanner_counts _ _ _ _ _ E s (or_introl eq_refl))
    as (file & files & _ & _ & _ & _ & Htotal & _ & _ & Hwithin).
  vm_compute in E. inversion E; subst.
  split; [reflexivity|]. split; [reflexivity|]. split; [reflexivity|].
  split; [exact Htotal|].
  apply Hwithin. intros line Hline. vm_compute in Hline.
  repeat (destruct Hline as [<-|Hline]; [vm_compute; reflexivity|]).
  destruct Hline.
Defined.

Lemma scanner_recent_counterexample :
  ~ (forall (Date_parse : jsstring -> option Z)
            (path_join : jsstring -> jsstring -> jsstring)
            (dir : jsstring) (w : World) (servers : list ServerInfo.t),
        getAvailableServers Date_parse path_join dir w = inr servers ->
        forall s, In s servers ->
          ServerInfo.recent_error_count s =
          length (filter
                    (error_line_within_last_24h Date_parse
                       (Date_now w (ServerInfo.log_file_path s)))
                    (physical_lines w (ServerInfo.log_file_path s)))).
Proof.
  intros H.
  destruct (getAvailableServers ex_Date_parse ex_path_join ex_dir
              future_world) as [e|servers] eqn:E;
    [vm_compute in E; discriminate|].
  pose proof (H _ _ _ _ _ E) as Hs.
  vm_compute in E. inversion E; subst. clear E.
  specialize (Hs _ (or_introl eq_refl)).
  vm_compute in Hs. discriminate.
Defined.

(** *** Extractor *)

Lemma extractor_messages_witness :
  readFileSync ex_world (js "/logs/mcp-server-slack.log") = Some slack_log /\
  getErrorsFromTextLog ex_toLowerCase ex_Date_parse ex_world
    (js "/logs/mcp-server-slack.log") (js "slack") 10 None None
  = inr (extracted ex_toLowerCase ex_Date_parse ex_world
           (js "/logs/mcp-server-slack.log") (js "slack") 10 None None
           (split_lines slack_log)) /\
  map LogEntry.message
    (extracted ex_toLowerCase ex_Date_parse ex_world
       (js "/logs/mcp-server-slack.log") (js "slack") 10 None None
       (split_lines slack_log))
  = [ text [ "403 Forbidden: missing scope";
             "Error: capitalised, not counted by the scanner" ]%string;
      text [ "Request timed out after 30s";
             "    at fetch (client.js:10)";
             "    at run (main.js:3)" ]%string;
      js "old failure" ].
Proof.
  assert (Hread : readFileSync ex_world (js "/logs/mcp-server-slack.log")
                  = Some slack_log) by reflexivity.
  split; [exact Hread|]. split.
  - exact (proj1 (@extractor_messages ex_toLowerCase ex_Date_parse ex_world
                    (js "/logs/mcp-server-slack.log") (js "slack") 10 None
                    None slack_log Hread)).
  - vm_compute. reflexivity.
Defined.

(** *** Query Engine *)

Lemma recentErrors_cap_and_order_witness :
  exists entries,
    getRecentErrors ex_toLowerCase ex_Date_parse ex_path_join ex_dir ex_world
      (js "slack") 2 None None = inr entries /\
    (Z.of_nat (length entries) <= 2)%Z /\
    map LogEntry.message (rev entries)
    = [ js "old failure";
        text [ "Request timed out after 30s";
               "    at fetch (client.js:10)";
               "    at run (main.js:3)" ]%string ] /\
    Sorted str_ge (map LogEntry.timestamp entries).
Proof.
  destruct (getRecentErrors ex_toLowerCase ex_Date_parse ex_path_join ex_dir
              ex_world (js "slack") 2 None None) as [e|entries] eqn:E;
    [vm_compute in E; discriminate|].
  exists entries. split; [reflexivity|].
  assert (Hlimit : (1 <= 2)%Z) by lia.
  destruct (@recentErrors_cap_and_order ex_toLowerCase ex_Date_parse
              ex_path_join ex_dir ex_path_join_nonempty ex_world (js "slack")
              2 None None entries Hlimit E)
    as (Hcap & servers & p & content & Hs & Hr & Hc & Hrev & Hsorted).
  split; [exact Hcap|].
  vm_compute in Hs. inversion Hs; subst. clear Hs.
  vm_compute in Hr. inversion Hr; subst. clear Hr.
  vm_compute in Hc. inversion Hc; subst. clear Hc.
  split.
  - rewrite Hrev. vm_compute. reflexivity.
  - apply Hsorted. vm_compute. repeat constructor.
Defined.

Lemma recentErrors_order_counterexample :
  ~ (forall (toLowerCase : jsstring -> jsstring)
            (Date_parse : jsstring -> option Z)
            (path_join : jsstring -> jsstring -> jsstring)
            (dir : jsstring) (w : World) (serverName : jsstring) (limit : Z)
            (toolName : option jsstring) (hours : option Z)
            (entries : list LogEntry.t),
        getRecentErrors toLowerCase Date_parse path_join dir w serverName
          limit toolName hours = inr entries ->
        (Z.of_nat (length entries) <= limit)%Z /\
        Sorted str_ge (map LogEntry.timestamp entries)).
Proof.
  intros H.
  destruct (getRecentErrors ex_toLowerCase ex_Date_parse ex_path_join ex_dir
              ex_world (js "old") 10 None None) as [e|entries] eqn:E;
    [vm_compute in E; discriminate|].
  destruct (H _ _ _ _ _ _ _ _ _ _ E) as [_ Hsorted].
  vm_compute in E. inversion E; subst. clear E.
  cbn [map LogEntry.timestamp] in Hsorted.
  apply Sorted_inv in Hsorted. destruct Hsorted as [_ Hhd].
  inversion Hhd as [|? ? Hge]; subst.
  vm_compute in Hge. discriminate.
Defined.

Lemma recentErrors_failures_witness :
  (exists msg,
      getRecentErrors ex_toLowerCase ex_Date_parse ex_path_join ex_dir
        ex_world (js "slack-mcp") 10 None None = inl (JsError msg) /\
      includes msg (js "Available servers: slack, bot, old, ten, local")
      = true) /\
  getRecentErrors ex_toLowerCase ex_Date_parse ex_path_join ex_dir
    ex_world (js "bot") 10 None None
  = inl (FsError (js "/logs/mcp-server-github-bot.log")) /\
  analyzeError ex_toLowerCase ex_Date_parse ex_path_join ex_dir ex_world
    (js "slack") (js "no such text") false = inr None.
Proof.
  destruct (getAvailableServers ex_Date_parse ex_path_join ex_dir ex_world)
    as [e|servers] eqn:E; [vm_compute in E; discriminate|].
  split; [|split].
  - destruct (@recentErrors_failures ex_toLowerCase ex_Date_parse
                ex_path_join ex_dir ex_path_join_nonempty ex_world
                (js "slack-mcp") 10 None None servers E)
      as (_ & Hmsg & _ & _).
    eexists. split.
    + apply Hmsg. vm_compute in E. inversion E; subst. reflexivity.
    + vm_compute in E. inversion E; subst. vm_compute. reflexivity.
  - vm_compute. reflexivity.
  - destruct (@recentErrors_failures ex_toLowerCase ex_Date_parse
                ex_path_join ex_dir ex_path_join_nonempty ex_world
                (js "slack") 10 None None servers E)
      as (_ & _ & _ & Hnull).
    apply (Hnull (js "/logs/mcp-server-slack.log") slack_log).
    + vm_compute in E. inversion E; subst. reflexivity.
    + reflexivity.
    + intros e0 He0. vm_compute in He0.
      repeat (destruct He0 as [<-|He0]; [vm_compute; reflexivity|]).
      destruct He0.
Defined.

Lemma recentErrors_failure_counterexample :
  ~ (forall (toLowerCase : jsstring -> jsstring)
            (Date_parse : jsstring -> option Z)
            (path_join : jsstring -> jsstring -> jsstring)
            (dir : jsstring) (w : World) (serverName : jsstring) (limit : Z)
            (toolName : option jsstring) (hours : option Z),
        (exists e,
            getRecentErrors toLowerCase Date_parse path_join dir w
              serverName limit toolName hours = inl e)
        <-> findLogPath Date_parse path_join dir w serverName = inr None).
Proof.
  intros H.
  destruct (H ex_toLowerCase ex_Date_parse ex_path_join ex_dir ex_world
              (js "bot") 10%Z None None) as [Hfail _].
  assert (Hnone : findLogPath ex_Date_parse ex_path_join ex_dir ex_world
                    (js "bot") = inr None).
  { apply Hfail. eexists. vm_compute. reflexivity. }
  vm_compute in Hnone. discriminate.
Defined.

(** *** Related errors *)

Lemma analyzeError_related_cap_witness :
  exists errors a,
    getRecentErrors ex_toLowerCase ex_Date_parse ex_path_join ex_dir ex_world
      (js "ten") MAX_LOG_SCAN_LIMIT None None = inr errors /\
    length errors = 10 /\
    analyzeError ex_toLowerCase ex_Date_parse ex_path_join ex_dir ex_world
      (js "ten") (js "429 Too Many Requests") false = inr (Some a) /\
    LogEntry.timestamp (ErrorAnalysis.error a) = js "2025-10-29T18:00:09Z" /\
    map LogEntry.timestamp (ErrorAnalysis.related_errors a)
    = [ js "2025-10-29T18:00:08Z"; js "2025-10-29T18:00:07Z";
        js "2025-10-29T18:00:06Z"; js "2025-10-29T18:00:05Z";
        js "2025-10-29T18:00:04Z" ] /\
    exists n,
      hd_error (ErrorAnalysis.suggested_actions a)
      = Some (occurrence_warning n).
Proof.
  destruct (getRecentErrors ex_toLowerCase ex_Date_parse ex_path_join ex_dir
              ex_world (js "ten") MAX_LOG_SCAN_LIMIT None None)
    as [e|errors] eqn:E; [vm_compute in E; discriminate|].
  assert (Hlen : 6 <= length errors).
  { vm_compute in E. inversion E; subst. cbn. lia. }
  assert (Hmsg : Forall (fun e => LogEntry.message e
                                  = js "429 Too Many Requests") errors).
  { vm_compute in E. inversion E; subst. repeat constructor. }
  assert (Hdup : NoDup (map LogEntry.timestamp errors)).
  { vm_compute in E. inversion E; subst. cbn [map LogEntry.timestamp].
    repeat (constructor;
            [cbn [In]; intros Hin;
             repeat (destruct Hin as [Hin|Hin]; [discriminate Hin|]);
             exact Hin|]).
    constructor. }
  assert (Hfirst : forall p,
             find (message_includes ex_toLowerCase
                     (js "429 Too Many Requests")) errors = Some p ->
             LogEntry.message p = js "429 Too Many Requests").
  { intros p Hp. vm_compute in E. inversion E; subst.
    vm_compute in Hp. inversion Hp; subst. reflexivity. }
  destruct (@analyzeError_related_cap ex_toLowerCase ex_Date_parse
              ex_path_join ex_dir ex_world (js "ten")
              (js "429 Too Many Requests") false errors errors E
              (incl_refl errors) Hlen Hmsg Hdup Hfirst)
    as (a & primary & related & Ha & _ & Hhd & Hrelated & Herror & _ &
        Hrel & _ & _ & n & Hact).
  exists errors, a. split; [reflexivity|].
  vm_compute in E. inversion E; subst errors. clear E.
  split; [reflexivity|].
  split; [exact Ha|].
  vm_compute in Hhd. inversion Hhd; subst primary.
  split; [rewrite Herror; reflexivity|].
  split.
  - rewrite Hrel, Hrelated. vm_compute. reflexivity.
  - exists n. rewrite Hact. reflexivity.
Defined.

(** On [ten_log] the warning does not say 11 times; on ten entries with
    one timestamp, and on the ten entries of [ten_log] followed by a
    newer entry that contains their message, no related error is
    returned. *)
Lemma analyzeError_eleven_counterexample :
  ~ (forall (toLowerCase : jsstring -> jsstring)
            (Date_parse : jsstring -> option Z)
            (path_join : jsstring -> jsstring -> jsstring)
            (dir : jsstring) (w : World) (serverName m : jsstring)
            (errors : list LogEntry.t),
        getRecentErrors toLowerCase Date_parse path_join dir w serverName
          MAX_LOG_SCAN_LIMIT None None = inr errors ->
        length (with_message m errors) = 10 ->
        exists a first rest,
          analyzeError toLowerCase Date_parse path_join dir w serverName m
            false = inr (Some a) /\
          length (ErrorAnalysis.related_errors a) = 5 /\
          ErrorAnalysis.suggested_actions a = first :: rest /\
          includes first (js "11 times") = true) /\
  ~ (forall (toLowerCase : jsstring -> jsstring)
            (Date_parse : jsstring -> option Z)
            (path_join : jsstring -> jsstring -> jsstring)
            (dir : jsstring) (w : World) (serverName m : jsstring)
            (errors : list LogEntry.t),
        getRecentErrors toLowerCase Date_parse path_join dir w serverName
          MAX_LOG_SCAN_LIMIT None None = inr errors ->
        length (with_message m errors) = 10 ->
        exists a,
          analyzeError toLowerCase Date_parse path_join dir w serverName m
            false = inr (Some a) /\
          length (ErrorAnalysis.related_errors a) = 5) /\
  ~ (forall (toLowerCase : jsstring -> jsstring)
            (Date_parse : jsstring -> option Z)
            (path_join : jsstring -> jsstring -> jsstring)
            (dir : jsstring) (w : World) (serverName m : jsstring)
            (errors : list LogEntry.t),
        getRecentErrors toLowerCase Date_parse path_join dir w serverName
          MAX_LOG_SCAN_LIMIT None None = inr errors ->
        length (with_message m errors) = 10 ->
        NoDup (map LogEntry.timestamp (with_message m errors)) ->
        exists a,
          analyzeError toLowerCase Date_parse path_join dir w serverName m
            false = inr (Some a) /\
          length (ErrorAnalysis.related_errors a) = 5).
Proof.
  split; [|split]; intros H.
  - destruct (getRecentErrors ex_toLowerCase ex_Date_parse ex_path_join
                ex_dir ex_world (js "ten") MAX_LOG_SCAN_LIMIT None None)
      as [e|errors] eqn:E; [vm_compute in E; discriminate|].
    specialize (H ex_toLowerCase ex_Date_parse ex_path_join ex_dir ex_world
                  (js "ten") (js "429 Too Many Requests") errors E).
    vm_compute in E. inversion E; subst. clear E.
    destruct H as (a & first & rest & Ha & _ & Hact & H11);
      [vm_compute; reflexivity|].
    vm_compute in Ha. inversion Ha; subst. clear Ha.
    cbn [ErrorAnalysis.suggested_actions] in Hact.
    inversion Hact; subst. vm_compute in H11. discriminate.
  - destruct (getRecentErrors ex_toLowerCase ex_Date_parse ex_path_join
                ex_dir related_world (js "same") MAX_LOG_SCAN_LIMIT None
                None)
      as [e|errors] eqn:E; [vm_compute in E; discriminate|].
    specialize (H ex_toLowerCase ex_Date_parse ex_path_join ex_dir
                  related_world (js "same") (js "429 Too Many Requests")
                  errors E).
    vm_compute in E. inversion E; subst. clear E.
    destruct H as (a & Ha & H5); [vm_compute; reflexivity|].
    vm_compute in Ha. inversion Ha; subst. clear Ha.
    vm_compute in H5. discriminate.
  - destruct (getRecentErrors ex_toLowerCase ex_Date_parse ex_path_join
                ex_dir related_world (js "newer") MAX_LOG_SCAN_LIMIT None
                None)
      as [e|errors] eqn:E; [vm_compute in E; discriminate|].
    specialize (H ex_toLowerCase ex_Date_parse ex_path_join ex_dir
                  related_world (js "newer") (js "429 Too Many Requests")
                  errors E).
    vm_compute in E. inversion E; subst. clear E.
    destruct H as (a & Ha & H5); [vm_compute; reflexivity| |].
    + vm_compute.
      repeat (constructor;
              [cbn [In]; intros Hin;
               repeat (destruct Hin as [Hin|Hin]; [discriminate Hin|]);
               exact Hin|]).
      constructor.
    + vm_compute in Ha. inversion Ha; subst. clear Ha.
      vm_compute in H5. discriminate.
Defined.

(** *** The trailing Z *)

Lemma header_grammar_witness :
  (exists m,
      regex_exec HEADER_RE
        (header_line (js "2025-10-29T18:00:46.468Z") (js " ")
           (js "context7") (js " ") (js "error") (js " ")
           (js "Server disconnected"))
      = Some m /\
      group 1 m = js "2025-10-29T18:00:46.468Z" /\
      group 4 m = js "Server disconnected") /\
  regex_exec HEADER_RE no_zone_line = None.
Proof.
  split.
  - destruct (proj1 header_grammar
                (js "2025-10-29T18:00:46.468Z") (js " ") (js "context7")
                (js " ") (js "error") (js " ") (js "Server disconnected"))
      as (m & Hm & H1 & _ & _ & H4).
    + exists (js "2025-10-29T18:00:46"), (js ".468"), 90%N.
      repeat split. right. split; reflexivity.
    + split; [discriminate | reflexivity].
    + split; [discriminate | reflexivity].
    + split; [discriminate | reflexivity].
    + split; [discriminate | reflexivity].
    + split; [discriminate | reflexivity].
    + reflexivity.
    + exists m. split; [exact Hm|]. split; [exact H1 | exact H4].
  - apply (proj2 header_grammar no_zone_line). reflexivity.
Defined.

(** The same line without its Z: the scanner reads its timestamp and
    counts it, the extractor returns nothing for it. *)
Lemma header_optional_zone_counterexample :
  ~ (forall dt ms zone ws1 source ws2 level ws3 rest,
        length dt = 19 -> has_shape DATE_TIME_SHAPE dt = true ->
        (ms = [] \/ (length ms = 4 /\ has_shape MILLIS_SHAPE ms = true)) ->
        (zone = [] \/ zone = js "Z") ->
        blank ws1 -> token source -> blank ws2 -> token level ->
        blank ws3 -> forallb not_line_terminator rest = true ->
        regex_test HEADER_RE
          (header_line (dt ++ ms ++ zone) ws1 source ws2 level ws3 rest)
        = true).
Proof.
  intros H.
  specialize (H (js "2025-10-29T18:00:46") (js ".468") [] (js " ")
                (js "context7") (js " ") (js "error") (js " ")
                (js "Server disconnected")).
  assert (Hb : blank (js " ")) by (split; [discriminate | reflexivity]).
  assert (E : regex_test HEADER_RE no_zone_line = true).
  { apply H; try exact Hb; try reflexivity.
    - right. split; reflexivity.
    - left. reflexivity.
    - split; [discriminate | reflexivity].
    - split; [discriminate | reflexivity]. }
  vm_compute in E. discriminate.
Defined.

Lemma no_zone_line_scanned_not_extracted :
  bare_iso_prefix no_zone_line = Some (js "2025-10-29T18:00:46.468") /\
  has_error_word no_zone_line = true /\
  getRecentErrors ex_toLowerCase ex_Date_parse ex_path_join ex_dir ex_world
    (js "local") 10 None None = inr [].
Proof.
  split; [reflexivity|]. split; [reflexivity|]. vm_compute. reflexivity.
Qed.

(** ** Further properties on the example environments *)

(** *** Formatters *)

Lemma truncateIfNeeded_within_limit_witness :
  (Z.of_nat (length (truncateIfNeeded long_content 3)) <= CHARACTER_LIMIT)%Z /\
  truncateIfNeeded (truncateIfNeeded long_content 3) 7 =
  truncateIfNeeded long_content 3.
Proof.
  apply truncateIfNeeded_within_limit. split; [discriminate|reflexivity].
Defined.

Lemma formatErrorsAsMarkdown_size_witness :
  (Z.of_nat (length (formatErrorsAsMarkdown [odd_entry] (js "slack")))
   <= CHARACTER_LIMIT)%Z.
Proof.
  apply (proj1 (formatErrorsAsMarkdown_size [odd_entry] (js "slack")));
    [discriminate|reflexivity].
Defined.

(** *** Entries *)

Lemma recentErrors_entry_shape_witness :
  exists entries,
    getRecentErrors ex_toLowerCase ex_Date_parse ex_path_join ex_dir ex_world
      (js "slack") 10 None None = inr entries /\
    length entries = 3 /\
    forall e, In e entries ->
      LogEntry.level e = js "ERROR" /\ LogEntry.stack_trace e = None /\
      LogEntry.server_name e = js "slack".
Proof.
  destruct (getRecentErrors ex_toLowerCase ex_Date_parse ex_path_join ex_dir
              ex_world (js "slack") 10 None None) as [e|entries] eqn:E;
    [vm_compute in E; discriminate|].
  exists entries. split; [reflexivity|].
  pose proof (@recentErrors_entry_shape ex_toLowerCase ex_Date_parse
                ex_path_join ex_dir ex_world (js "slack") 10 None None
                entries E) as Hshape.
  split; [vm_compute in E; inversion E; subst; reflexivity|].
  intros e0 He0. destruct (Hshape e0 He0) as (Hl & _ & _ & Hs & _ & Hn & _).
  split; [exact Hl|]. split; [exact Hs|]. apply Hn. discriminate.
Defined.

Lemma recentErrors_timestamp_shape_witness :
  exists entries,
    getRecentErrors ex_toLowerCase ex_Date_parse ex_path_join ex_dir ex_world
      (js "slack") 10 None None = inr entries /\
    length entries = 3 /\
    forall e, In e entries -> zoned_timestamp (LogEntry.timestamp e).
Proof.
  destruct (getRecentErrors ex_toLowerCase ex_Date_parse ex_path_join ex_dir
              ex_world (js "slack") 10 None None) as [e|entries] eqn:E;
    [vm_compute in E; discriminate|].
  exists entries. split; [reflexivity|].
  pose proof (@recentErrors_timestamp_shape ex_toLowerCase ex_Date_parse
                ex_path_join ex_dir ex_world (js "slack") 10 None None
                entries E) as Hshape.
  split; [vm_compute in E; inversion E; subst; reflexivity|exact Hshape].
Defined.

Lemma recentErrors_message_no_blank_line_witness :
  exists entries,
    getRecentErrors ex_toLowerCase ex_Date_parse ex_path_join ex_dir ex_world
      (js "slack") 10 None None = inr entries /\
    length entries = 3 /\
    forall e, In e entries -> includes (LogEntry.message e) [LF; LF] = false.
Proof.
  destruct (getRecentErrors ex_toLowerCase ex_Date_parse ex_path_join ex_dir
              ex_world (js "slack") 10 None None) as [e|entries] eqn:E;
    [vm_compute in E; discriminate|].
  exists entries. split; [reflexivity|].
  pose proof (@recentErrors_message_no_blank_line ex_toLowerCase
                ex_Date_parse ex_path_join ex_dir ex_world (js "slack") 10
                None None entries E) as Hshape.
  split; [vm_compute in E; inversion E; subst; reflexivity|exact Hshape].
Defined.

Lemma recentErrors_rendering_witness :
  exists entries,
    getRecentErrors ex_toLowerCase ex_Date_parse ex_path_join ex_dir ex_world
      (js "slack") 10 None None = inr entries /\
    length entries = 3 /\
    forall e, In e entries -> length (error_block 0 e) = 4.
Proof.
  destruct (getRecentErrors ex_toLowerCase ex_Date_parse ex_path_join ex_dir
              ex_world (js "slack") 10 None None) as [e|entries] eqn:E;
    [vm_compute in E; discriminate|].
  exists entries. split; [reflexivity|].
  pose proof (@recentErrors_rendering ex_toLowerCase ex_Date_parse
                ex_path_join ex_dir ex_world (js "slack") 10 None None
                entries E) as Hblock.
  split; [vm_compute in E; inversion E; subst; reflexivity|].
  intros e0 He0. rewrite (proj1 (Hblock e0 He0) 0). reflexivity.
Defined.

Lemma limit_keeps_oldest_witness :
  exists newer older,
    getRecentErrors ex_toLowerCase ex_Date_parse ex_path_join ex_dir ex_world
      (js "slack") 3 None None = inr (newer ++ older) /\
    getRecentErrors ex_toLowerCase ex_Date_parse ex_path_join ex_dir ex_world
      (js "slack") 1 None None = inr older /\
    map LogEntry.message older = [js "old failure"].
Proof.
  destruct (getRecentErrors ex_toLowerCase ex_Date_parse ex_path_join ex_dir
              ex_world (js "slack") 3 None None) as [e|entries] eqn:E;
    [vm_compute in E; discriminate|].
  assert (Hle : (1 <= 3)%Z) by discriminate.
  destruct (proj1 (@limit_keeps_oldest ex_toLowerCase ex_Date_parse
                     ex_path_join ex_dir ex_world (js "slack") 1 3 None None
                     entries Hle E))
    as (newer & older & -> & Hold).
  exists newer, older. split; [reflexivity|]. split; [exact Hold|].
  vm_compute in Hold. inversion Hold; subst. reflexivity.
Defined.

Lemma filters_sound_witness :
  exists entries,
    getRecentErrors ex_toLowerCase ex_Date_parse ex_path_join ex_dir ex_world
      (js "slack") 10 (Some (js "TIMED")) (Some 3%Z) = inr entries /\
    length entries = 1 /\
    forall e, In e entries ->
      includes (ex_toLowerCase (LogEntry.message e)) (js "timed") = true.
Proof.
  destruct (getRecentErrors ex_toLowerCase ex_Date_parse ex_path_join ex_dir
              ex_world (js "slack") 10 (Some (js "TIMED")) (Some 3%Z))
    as [e|entries] eqn:E; [vm_compute in E; discriminate|].
  exists entries. split; [reflexivity|].
  destruct (@filters_sound ex_toLowerCase ex_Date_parse ex_path_join ex_dir
              ex_world (js "slack") 10 (Some (js "TIMED")) (Some 3%Z)
              entries E) as (servers & p & _ & _ & Hsound).
  split; [vm_compute in E; inversion E; subst; reflexivity|].
  intros e0 He0. destruct (Hsound e0 He0) as [Htool _].
  apply (Htool 84%N (js "IMED")). reflexivity.
Defined.

(** *** Detail analysis *)

Lemma analyzeError_invariants_witness :
  exists a before after,
    analyzeError ex_toLowerCase ex_Date_parse ex_path_join ex_dir ex_world
      (js "ten") (js "too many") true = inr (Some a) /\
    getRecentErrors ex_toLowerCase ex_Date_parse ex_path_join ex_dir ex_world
      (js "ten") MAX_LOG_SCAN_LIMIT None None
    = inr (before ++ ErrorAnalysis.error a :: after) /\
    length (ErrorAnalysis.related_errors a) <= 5.
Proof.
  destruct (analyzeError ex_toLowerCase ex_Date_parse ex_path_join ex_dir
              ex_world (js "ten") (js "too many") true)
    as [e|[a|]] eqn:E;
    [vm_compute in E; discriminate| |vm_compute in E; discriminate].
  destruct (@analyzeError_invariants ex_toLowerCase ex_Date_parse
              ex_path_join ex_dir ex_world (js "ten") (js "too many") true a
              E) as (before & after & Hq & _ & _ & Hlen & _).
  exists a, before, after. split; [reflexivity|].
  split; [exact Hq|exact Hlen].
Defined.

Lemma analysis_rendering_witness :
  exists a,
    analyzeError ex_toLowerCase ex_Date_parse ex_path_join ex_dir ex_world
      (js "ten") (js "too many") true = inr (Some a) /\
    (Z.of_nat (length (formatAnalysisAsMarkdown a)) <= CHARACTER_LIMIT)%Z.
Proof.
  destruct (analyzeError ex_toLowerCase ex_Date_parse ex_path_join ex_dir
              ex_world (js "ten") (js "too many") true)
    as [e|[a|]] eqn:E;
    [vm_compute in E; discriminate| |vm_compute in E; discriminate].
  exists a. split; [reflexivity|].
  apply (proj1 (@analysis_rendering ex_toLowerCase ex_Date_parse
                  ex_path_join ex_dir ex_world (js "ten") (js "too many")
                  true a E)).
Defined.

Lemma analyzeError_null_iff_witness :
  exists errors,
    getRecentErrors ex_toLowerCase ex_Date_parse ex_path_join ex_dir ex_world
      (js "slack") MAX_LOG_SCAN_LIMIT None None = inr errors /\
    length errors = 3 /\
    forall e, In e errors ->
      includes (ex_toLowerCase (LogEntry.message e))
               (ex_toLowerCase (js "No Such Text")) = false.
Proof.
  assert (Hnull : analyzeError ex_toLowerCase ex_Date_parse ex_path_join
                    ex_dir ex_world (js "slack") (js "No Such Text") false
                  = inr None) by (vm_compute; reflexivity).
  destruct (proj1 (@analyzeError_null_iff ex_toLowerCase ex_Date_parse
                     ex_path_join ex_dir ex_world (js "slack")
                     (js "No Such Text") false) Hnull)
    as (errors & Herrors & Hnone).
  exists errors. split; [exact Herrors|]. split; [|exact Hnone].
  vm_compute in Herrors. inversion Herrors; subst. reflexivity.
Defined.

Lemma no_suggested_action_iff_witness :
  snd (generateErrorAnalysis ex_toLowerCase odd_entry [odd_entry]) = [].
Proof.
  apply (proj2 (@no_suggested_action_iff ex_toLowerCase odd_entry
                  [odd_entry])).
  split; [vm_compute; reflexivity|left; reflexivity].
Defined.

Lemma classify_priority_monotone_witness :
  classify (js "upstream: " ++ js "request timeout" ++ js " (503)")
  <> UNKNOWN_ERROR.
Proof.
  apply (proj2 (proj2 (classify_priority_monotone (js "upstream: ")
                         (js "request timeout") (js " (503)")))).
  vm_compute. discriminate.
Defined.

(** *** Scanner and resolution *)

Lemma scanner_listing_witness :
  exists servers,
    getAvailableServers ex_Date_parse ex_path_join ex_dir ex_world
    = inr servers /\
    map ServerInfo.server_name servers =
      [js "slack"; js "bot"; js "old"; js "ten"; js "local"] /\
    forall s, In s servers ->
      ServerInfo.recent_error_count s <= ServerInfo.total_errors s.
Proof.
  destruct (@scanner_listing ex_Date_parse ex_path_join ex_dir ex_world
              [ js "mcp-server-slack.log"; js "notes.txt";
                js "mcp-server-github-bot.log"; js "mcp-server-old.log";
                js "mcp-server-ten.log"; js "mcp-server-local.log" ]
              eq_refl eq_refl)
    as (servers & Hscan & Hnames & _ & Hcounts).
  - intros f _ _. discriminate.
  - exists servers. split; [exact Hscan|]. split.
    + rewrite Hnames. vm_compute. reflexivity.
    + intros s Hs. apply (Hcounts s Hs).
Defined.

Lemma unexaminable_file_fails_all_witness :
  getRecentErrors ex_toLowerCase ex_Date_parse ex_path_join ex_dir
    vanished_world (js "slack") 10 None None
  = inl (FsError (js "/logs/mcp-server-gone.log")).
Proof.
  destruct (@unexaminable_file_fails_all ex_toLowerCase ex_Date_parse
              ex_path_join ex_dir vanished_world
              [js "mcp-server-slack.log"] [] (js "mcp-server-gone.log")
              eq_refl eq_refl eq_refl eq_refl)
    as (_ & Hquery & _).
  - intros g [<-|[]] _. discriminate.
  - apply Hquery.
Defined.

Lemma missing_directory_witness :
  getAvailableServers ex_Date_parse ex_path_join ex_dir absent_world = inr [] /\
  getRecentErrors ex_toLowerCase ex_Date_parse ex_path_join ex_dir
    absent_world (js "slack") 10 None None
  = inl (JsError (js "Log file not found for server: slack" ++
                  js ". Available servers: ")).
Proof.
  destruct (@missing_directory ex_toLowerCase ex_Date_parse ex_path_join
              ex_dir absent_world eq_refl) as (Hscan & Hquery & _).
  split; [exact Hscan|]. apply Hquery.
Defined.

Lemma derive_server_name_last_segment_witness :
  exists servers s,
    getAvailableServers ex_Date_parse ex_path_join ex_dir ex_world
    = inr servers /\
    In s servers /\ ServerInfo.server_name s = js "bot" /\
    ServerInfo.log_file_path s = js "/logs/mcp-server-github-bot.log".
Proof.
  destruct (getAvailableServers ex_Date_parse ex_path_join ex_dir ex_world)
    as [e|servers] eqn:E; [vm_compute in E; discriminate|].
  assert (Hp : no_line_terminator (js "mcp-server-github"))
    by repeat constructor.
  assert (Hn : no_line_terminator (js "bot")) by repeat constructor.
  assert (Hh : ~ In HYPHEN (js "bot")).
  { cbn. intros H. repeat (destruct H as [H|H]; [discriminate H|]).
    exact H. }
  assert (Hin : In (js "mcp-server-github" ++ [HYPHEN] ++ js "bot" ++
                    js ".log")
                   [ js "mcp-server-slack.log"; js "notes.txt";
                     js "mcp-server-github-bot.log"; js "mcp-server-old.log";
                     js "mcp-server-ten.log"; js "mcp-server-local.log" ])
    by (right; right; left; reflexivity).
  destruct (@derive_server_name_last_segment ex_Date_parse ex_path_join
              ex_dir ex_world servers _ (js "mcp-server-github") (js "bot")
              Hp Hn Hh eq_refl eq_refl eq_refl Hin E)
    as (_ & s & Hs & Hname & Hpath).
  exists servers, s. split; [reflexivity|]. split; [exact Hs|].
  split; [exact Hname|]. rewrite Hpath. reflexivity.
Defined.

Lemma shadowed_log_file_witness :
  derive_server_name (js "mcp-server-github-bot.log") = js "bot" /\
  derive_server_name (js "mcp-server-slack-bot.log") = js "bot" /\
  findLogPath ex_Date_parse ex_path_join ex_dir shadow_world (js "bot")
  = inr (Some (js "/logs/mcp-server-github-bot.log")) /\
  findLogPath ex_Date_parse ex_path_join ex_dir shadow_world (js "bot")
  <> inr (Some (js "/logs/mcp-server-slack-bot.log")).
Proof.
  split; [vm_compute; reflexivity|].
  split; [vm_compute; reflexivity|].
  split; [vm_compute; reflexivity|].
  assert (Hlog : is_log_file (js "mcp-server-github-bot.log") = true)
    by (vm_compute; reflexivity).
  assert (Hname : derive_server_name (js "mcp-server-github-bot.log")
                  = derive_server_name (js "mcp-server-slack-bot.log"))
    by (vm_compute; reflexivity).
  assert (Hpaths : forall f,
             In f ([] ++ js "mcp-server-github-bot.log" :: [] ++ []) ->
             ex_path_join ex_dir f <>
             ex_path_join ex_dir (js "mcp-server-slack-bot.log")).
  { intros f [<-|[]]. vm_compute. discriminate. }
  apply (proj1 (@shadowed_log_file ex_Date_parse ex_path_join ex_dir
                  shadow_world [] [] [] (js "mcp-server-github-bot.log")
                  (js "mcp-server-slack-bot.log") Hlog Hname eq_refl
                  eq_refl Hpaths)
               (js "bot")).
Defined.

Lemma listed_names_resolve_witness :
  exists servers s,
    getAvailableServers ex_Date_parse ex_path_join ex_dir ex_world
    = inr servers /\
    In s servers /\ ServerInfo.server_name s = js "bot" /\
    findLogPath ex_Date_parse ex_path_join ex_dir ex_world (js "bot")
    = inr (Some (js "/logs/mcp-server-github-bot.log")).
Proof.
  destruct (getAvailableServers ex_Date_parse ex_path_join ex_dir ex_world)
    as [e|servers] eqn:E; [vm_compute in E; discriminate|].
  destruct servers as [|s0 [|s servers]];
    [vm_compute in E; discriminate|vm_compute in E; discriminate|].
  assert (Hin : In s (s0 :: s :: servers)) by (right; left; reflexivity).
  destruct (proj1 (@listed_names_resolve ex_toLowerCase ex_Date_parse
                     ex_path_join ex_dir ex_path_join_nonempty ex_world
                     (s0 :: s :: servers) s E Hin))
    as (s' & _ & _ & Hpath).
  exists (s0 :: s :: servers), s. split; [reflexivity|].
  split; [exact Hin|].
  vm_compute in E. inversion E; subst. split; [reflexivity|].
  vm_compute. reflexivity.
Defined.

Lemma hyphenated_identifier_resolution_witness :
  exists s,
    ServerInfo.log_file_path s = js "/logs/mcp-server-my_tool.log" /\
    ServerInfo.server_name s = js "my_tool" /\
    replace_all_char UNDERSCORE HYPHEN (ServerInfo.server_name s)
    = js "my-tool".
Proof.
  destruct (getAvailableServers ex_Date_parse ex_path_join ex_dir
              alias_world) as [e|servers] eqn:E;
    [vm_compute in E; discriminate|].
  assert (Hfiles : forall files file,
             readdirSync alias_world ex_dir = Some files ->
             In file files -> is_log_file file = true ->
             no_line_terminator file).
  { intros files file Hdir Hin _. cbn in Hdir. inversion Hdir; subst.
    destruct Hin as [<-|[]]. repeat constructor. }
  assert (Hid : In HYPHEN (js "my-tool"))
    by (right; right; left; reflexivity).
  assert (Hres : resolve servers (js "my-tool")
                 = Some (js "/logs/mcp-server-my_tool.log"))
    by (vm_compute in E; inversion E; subst; reflexivity).
  destruct (@hyphenated_identifier_resolution ex_Date_parse ex_path_join
              ex_dir alias_world servers (js "my-tool")
              (js "/logs/mcp-server-my_tool.log") E Hfiles Hid Hres)
    as (s & Hs & Hpath & _ & _ & Hname).
  exists s. split; [exact Hpath|]. split; [|exact Hname].
  vm_compute in E. inversion E; subst.
  destruct Hs as [<-|[]]. reflexivity.
Defined.

(** *** Header lines *)

Lemma header_line_carriage_return_witness :
  is_header
    (header_line (js "2025-10-29T18:00:46.468Z") (js " ") (js "context7")
       (js " ") (js "error") (js " ") (js "Server disconnected" ++ [13%N]))
  = false.
Proof.
  assert (Hts : zoned_timestamp (js "2025-10-29T18:00:46.468Z")).
  { exists (js "2025-10-29T18:00:46"), (js ".468"), 90%N.
    repeat split. right. split; reflexivity. }
  assert (Hb : blank (js " ")) by (split; [discriminate | reflexivity]).
  assert (Hs : token (js "context7"))
    by (split; [discriminate | reflexivity]).
  assert (Hl : token (js "error")) by (split; [discriminate | reflexivity]).
  rewrite (proj2 (@header_line_carriage_return
                    (js "2025-10-29T18:00:46.468Z") (js " ") (js "context7")
                    (js " ") (js "error") (js " ")
                    (js "Server disconnected") Hts Hb Hs Hb Hl Hb)).
  reflexivity.
Defined.

(** *** Tools *)

Lemma get_server_list_response_witness :
  get_server_list ex_Date_parse ex_path_join ex_dir ex_JSON_stringify
    ex_fs_error_message absent_world listing_query =
  {| ToolResponse.isError := false;
     ToolResponse.text :=
       js "# No MCP Servers Found" ++ [LF; LF] ++
       js "No MCP server log files found in the configured directory." |}.
Proof.
  apply (proj1 (@get_server_list_response ex_Date_parse ex_path_join ex_dir
                  ex_JSON_stringify ex_fs_error_message absent_world
                  listing_query eq_refl)).
  reflexivity.
Defined.

Lemma get_recent_errors_response_witness :
  ToolResponse.isError
    (get_recent_errors ex_toLowerCase ex_Date_parse ex_path_join ex_dir
       ex_JSON_stringify ex_fs_error_message ex_world slack_query) = false /\
  (Z.of_nat
     (length
        (ToolResponse.text
           (get_recent_errors ex_toLowerCase ex_Date_parse ex_path_join
              ex_dir ex_JSON_stringify ex_fs_error_message ex_world
              slack_query)))
   <= CHARACTER_LIMIT)%Z.
Proof.
  destruct (@get_recent_errors_response ex_toLowerCase ex_Date_parse
              ex_path_join ex_dir ex_JSON_stringify ex_fs_error_message
              ex_world slack_query eq_refl)
    as [(error & Herr & _)|(errors & Hok & Hflag & _ & _ & Hsize)].
  - vm_compute in Herr. discriminate.
  - split; [exact Hflag|]. apply Hsize. left.
    vm_compute in Hok. inversion Hok; subst. discriminate.
Defined.

Lemma get_error_details_response_witness :
  get_error_details ex_toLowerCase ex_Date_parse ex_path_join ex_dir
    ex_JSON_stringify ex_fs_error_message ex_world unknown_details =
  {| ToolResponse.isError := true;
     ToolResponse.text :=
       js "Error analyzing error details: " ++
       js "Log file not found for server: slack-mcp" ++
       js ". Available servers: slack, bot, old, ten, local" |} /\
  get_error_details ex_toLowerCase ex_Date_parse ex_path_join ex_dir
    ex_JSON_stringify ex_fs_error_message ex_world unmatched_details =
  {| ToolResponse.isError := false;
     ToolResponse.text :=
       js "No error found matching " ++ [34%N] ++ js "no such text" ++
       [34%N] ++ js " in slack logs. Try using get_recent_errors first" ++
       js " to see available errors." |}.
Proof.
  split.
  - destruct (getAvailableServers ex_Date_parse ex_path_join ex_dir
                ex_world) as [e|servers] eqn:E;
      [vm_compute in E; discriminate|].
    destruct (@get_error_details_response ex_toLowerCase ex_Date_parse
                ex_path_join ex_dir ex_path_join_nonempty ex_JSON_stringify
                ex_fs_error_message ex_world unknown_details)
      as (_ & _ & Hunknown).
    rewrite (Hunknown servers E).
    + vm_compute in E. inversion E; subst. vm_compute. reflexivity.
    + vm_compute in E. inversion E; subst. vm_compute. reflexivity.
  - destruct (@get_error_details_response ex_toLowerCase ex_Date_parse
                ex_path_join ex_dir ex_path_join_nonempty ex_JSON_stringify
                ex_fs_error_message ex_world unmatched_details)
      as (_ & Hnone & _).
    destruct Hnone as [Htext _]; [vm_compute; reflexivity|].
    rewrite Htext. reflexivity.
Defined.
